(** * Recursive Gaussian blur (tools/gauss_blur.cc): a shallow embedding

    The kernels of [tools/gauss_blur.cc] are embedded as Rocq functions:
    - the lane arithmetic of Highway vectors is an interface ([Lane]) with an
      instance on [Z] (to run the kernels) and one on [R] (exact real
      arithmetic, in which the algebraic claims are stated);
    - memory (rows, the ring buffer, the zero block) is a [list] of lanes, and
      every access is checked: an access outside its object ends the run in
      [OutOfBounds];
    - loops are recursive functions on a fuel computed from the loop bound. *)

From Stdlib Require Import ZArith List Lia Bool Reals Lra.
Import ListNotations.
Open Scope Z_scope.

(** ** Lane arithmetic *)

Class Lane (T : Type) := {
  lane0 : T;
  lane1 : T;
  lane_add : T -> T -> T;
  lane_mul : T -> T -> T;
  lane_neg : T -> T
}.

#[global] Instance Lane_Z : Lane Z :=
  {| lane0 := 0; lane1 := 1; lane_add := Z.add; lane_mul := Z.mul; lane_neg := Z.opp |}.

#[global] Instance Lane_R : Lane R :=
  {| lane0 := 0%R; lane1 := 1%R; lane_add := Rplus; lane_mul := Rmult; lane_neg := Ropp |}.

(** ** Outcome of a run *)

Inductive outcome (A : Type) : Type :=
| Ok (a : A)          (* normal completion *)
| Aborted             (* JXL_UNREACHABLE or a failed JXL_DASSERT *)
| OutOfBounds         (* an access outside its object *)
| Undefined           (* a conversion whose result is not defined *)
| OutOfFuel.          (* the loop model ran out of fuel *)
Arguments Ok {A} a.
Arguments Aborted {A}.
Arguments OutOfBounds {A}.
Arguments Undefined {A}.
Arguments OutOfFuel {A}.

Definition bind {A B : Type} (m : outcome A) (k : A -> outcome B) : outcome B :=
  match m with
  | Ok a => k a
  | Aborted => Aborted
  | OutOfBounds => OutOfBounds
  | Undefined => Undefined
  | OutOfFuel => OutOfFuel
  end.

Notation "x <- m ;; k" := (bind m (fun x => k))
  (at level 61, m at next level, right associativity).
Notation "' pat <- m ;; k" := (bind m (fun x => match x with pat => k end))
  (at level 61, pat pattern, m at next level, right associativity).

(** ** Integer types

    [size_t] arithmetic wraps modulo 2^64; a conversion to [ssize_t] or
    [intptr_t] reads the same 64 bits as a signed number. *)
Definition size_t (z : Z) : Z := z mod 2 ^ 64.
Definition ssize_t (z : Z) : Z := (z + 2 ^ 63) mod 2 ^ 64 - 2 ^ 63.

(** ** Loops

    [for (; cond(n); n = next(n)) body]: the loop variable is returned with
    the state, since the source keeps using it after the loop. *)
Fixpoint for_loop {S : Type} (fuel : nat) (cond : Z -> bool) (next : Z -> Z)
    (body : Z -> S -> outcome S) (n : Z) (s : S) : outcome (Z * S) :=
  if cond n then
    match fuel with
    | O => OutOfFuel
    | Datatypes.S fuel' =>
        s' <- body n s ;; for_loop fuel' cond next body (next n) s'
    end
  else Ok (n, s).

(** [for (; n < bound; n += step) body] on a signed loop variable. *)
Definition for_lt {S : Type} (n bound step : Z)
    (body : Z -> S -> outcome S) (s : S) : outcome (Z * S) :=
  for_loop (Z.to_nat (bound - n)) (fun n => n <? bound) (fun n => n + step)
           body n s.

(** ** Highway vector operations (the ones the kernels use) *)

Module hwy.
Section Ops.
Context {T : Type} {LT : Lane T}.

Definition V : Type := list T.

Fixpoint zip_with (f : T -> T -> T) (a b : V) : V :=
  match a, b with
  | x :: a', y :: b' => f x y :: zip_with f a' b'
  | _, _ => []
  end.

Definition Zero (lanes : nat) : V := repeat lane0 lanes.
Definition SetV (lanes : nat) (x : T) : V := repeat x lanes.
Definition Add (a b : V) : V := zip_with lane_add a b.
Definition Mul (a b : V) : V := zip_with lane_mul a b.
(** [MulAdd(mul, x, add)] is [mul * x + add]. *)
Definition MulAdd (mul x add : V) : V := Add (Mul mul x) add.
(** [NegMulSub(mul, x, sub)] is [-mul * x - sub]. *)
Definition NegMulSub (mul x sub : V) : V :=
  zip_with (fun p s => lane_add (lane_neg p) (lane_neg s)) (Mul mul x) sub.
Definition GetLane (v : V) : T := hd lane0 v.
(** [Broadcast<k>(v)]: lane [k] in every lane. *)
Definition Broadcast (k : nat) (v : V) : V := repeat (nth k v lane0) (length v).
(** [ShiftLeftLanes<k>(v)]: lane [i] moves to lane [i + k], zeros enter. *)
Definition ShiftLeftLanes (k : nat) (v : V) : V :=
  firstn (length v) (repeat lane0 k ++ v).

(** [Load(d, p + off)] and [LoadU]: [lanes] consecutive elements of the
    object [mem] that [p] points into, from offset [off]. *)
Definition Load (lanes : nat) (mem : list T) (off : Z) : outcome V :=
  if (0 <=? off) && (off + Z.of_nat lanes <=? Z.of_nat (length mem))
  then Ok (firstn lanes (skipn (Z.to_nat off) mem))
  else OutOfBounds.
Definition LoadU := Load.

(** [Store(v, d, p + off)]. *)
Definition Store (v : V) (mem : list T) (off : Z) : outcome (list T) :=
  if (0 <=? off) && (off + Z.of_nat (length v) <=? Z.of_nat (length mem))
  then Ok (firstn (Z.to_nat off) mem ++ v
           ++ skipn (Z.to_nat off + length v) mem)
  else OutOfBounds.

(** A scalar read [p[off]] and a scalar write [p[off] = x]. *)
Definition read (mem : list T) (off : Z) : outcome T :=
  if 0 <=? off then
    match nth_error mem (Z.to_nat off) with
    | Some x => Ok x
    | None => OutOfBounds
    end
  else OutOfBounds.
Definition write (x : T) (mem : list T) (off : Z) : outcome (list T) :=
  Store [x] mem off.

End Ops.
End hwy.

(** ** Targets

    The kernels are compiled once per Highway target.  What the code depends
    on is whether the target is [HWY_SCALAR] and the number of [float] lanes
    of a full vector, [Lanes(HWY_FULL(float))]. *)
Inductive Target : Type :=
| HWY_SCALAR
| HWY_SIMD (full_lanes : nat).

Definition LanesFull (t : Target) : nat :=
  match t with HWY_SCALAR => 1 | HWY_SIMD l => l end.

Definition JXL_GAUSS_MAX_LANES : nat := 4.

(** [Lanes(HWY_CAPPED(float, JXL_GAUSS_MAX_LANES))]. *)
Definition LanesCapped (t : Target) : nat :=
  Nat.min JXL_GAUSS_MAX_LANES (LanesFull t).

Definition is_scalar (t : Target) : bool :=
  match t with HWY_SCALAR => true | HWY_SIMD _ => false end.

(** Modelled from the spec: [RoundUpTo] of lib/jxl/base/common.h, which is not
    among the sources; the first multiple of [align] that is not below
    [what] (the spec's "first_aligned"). *)
Definition RoundUpTo (what align : Z) : Z := (what + align - 1) / align * align.

(** ** RecursiveGaussian *)

Record RecursiveGaussian (T : Type) : Type := mkRG {
  n2 : list T;          (* float n2[3 * 4] *)
  d1 : list T;          (* float d1[3 * 4] *)
  mul_prev : list T;    (* float mul_prev[3 * 4] *)
  mul_prev2 : list T;   (* float mul_prev2[3 * 4] *)
  mul_in : list T;      (* float mul_in[3 * 4] *)
  radius : Z
}.
Arguments mkRG {T}.
Arguments n2 {T}.
Arguments d1 {T}.
Arguments mul_prev {T}.
Arguments mul_prev2 {T}.
Arguments mul_in {T}.
Arguments radius {T}.

Section Tables.
Context {T : Type} {LT : Lane T}.

Local Notation "a + b" := (lane_add a b).
Local Notation "a * b" := (lane_mul a b).
Local Notation "- a" := (lane_neg a).
Local Notation "a - b" := (lane_add a (lane_neg b)).

Definition two : T := lane1 + lane1.
Definition three : T := two + lane1.

(** The body of the loop over [i] that ends [CreateRecursiveGaussian], for
    one mode: the four lanes of [n2], [d1], [mul_prev], [mul_prev2] and
    [mul_in] written for the mode's [n2[i]] and [d1[i]]. *)
Definition n2_lanes (n2i : T) : list T := [n2i; n2i; n2i; n2i].
Definition d1_lanes (d1i : T) : list T := [d1i; d1i; d1i; d1i].
Definition mul_prev_lanes (d1i : T) : list T :=
  let d_2 := d1i * d1i in
  [ - d1i;
    d_2 - lane1;
    (- d_2) * d1i + two * d1i;
    d_2 * d_2 - three * d_2 + lane1 ].
Definition mul_prev2_lanes (d1i : T) : list T :=
  let d_2 := d1i * d1i in
  [ - lane1;
    d1i;
    (- d_2) + lane1;
    d_2 * d1i - two * d1i ].
Definition mul_in_lanes (n2i d1i : T) : list T :=
  let d_2 := d1i * d1i in
  [ n2i;
    (- d1i) * n2i;
    d_2 * n2i - n2i;
    (- d_2) * d1i * n2i + two * d1i * n2i ].

(** The tables for the three modes, mode [i] at indices [4 * i + lane]. *)
Definition fill_tables (n2_ d1_ : T * T * T) (radius_ : Z) : RecursiveGaussian T :=
  let '(n2_0, n2_1, n2_2) := n2_ in
  let '(d1_0, d1_1, d1_2) := d1_ in
  mkRG (n2_lanes n2_0 ++ n2_lanes n2_1 ++ n2_lanes n2_2)
       (d1_lanes d1_0 ++ d1_lanes d1_1 ++ d1_lanes d1_2)
       (mul_prev_lanes d1_0 ++ mul_prev_lanes d1_1 ++ mul_prev_lanes d1_2)
       (mul_prev2_lanes d1_0 ++ mul_prev2_lanes d1_1 ++ mul_prev2_lanes d1_2)
       (mul_in_lanes n2_0 d1_0 ++ mul_in_lanes n2_1 d1_1 ++ mul_in_lanes n2_2 d1_2)
       radius_.

End Tables.

(** ** The horizontal kernel: FastGaussian1D *)

Section Horizontal.
Context {T : Type} {LT : Lane T}.
Variable target : Target.

Import hwy.

(** [prev_k], [prev2_k] for the modes k = 1, 3, 5, and the output row. *)
Record hstate : Type := mkH {
  prev_1 : V (T:=T); prev_3 : V (T:=T); prev_5 : V (T:=T);
  prev2_1 : V (T:=T); prev2_3 : V (T:=T); prev2_5 : V (T:=T);
  out : list T
}.

(** The nine coefficient vectors loaded at the top of the function. *)
Record hcoef : Type := mkC {
  mul_in_1 : V (T:=T); mul_in_3 : V (T:=T); mul_in_5 : V (T:=T);
  mul_prev_1 : V (T:=T); mul_prev_3 : V (T:=T); mul_prev_5 : V (T:=T);
  mul_prev2_1 : V (T:=T); mul_prev2_3 : V (T:=T); mul_prev2_5 : V (T:=T)
}.

Definition load_coef (rg : RecursiveGaussian T) : outcome hcoef :=
  let lanes := LanesCapped target in
  i1 <- Load lanes (mul_in rg) (0 * 4) ;;
  i3 <- Load lanes (mul_in rg) (1 * 4) ;;
  i5 <- Load lanes (mul_in rg) (2 * 4) ;;
  p1 <- Load lanes (mul_prev rg) (0 * 4) ;;
  p3 <- Load lanes (mul_prev rg) (1 * 4) ;;
  p5 <- Load lanes (mul_prev rg) (2 * 4) ;;
  q1 <- Load lanes (mul_prev2 rg) (0 * 4) ;;
  q3 <- Load lanes (mul_prev2 rg) (1 * 4) ;;
  q5 <- Load lanes (mul_prev2 rg) (2 * 4) ;;
  Ok (mkC i1 i3 i5 p1 p3 p5 q1 q3 q5).

(** The two operands of a bounds-checked step:
    [left >= 0 ? in[left] : 0.0f] and [(right < xsize) ? in[right] : 0.0f]. *)
Definition left_val (input : list T) (N n : Z) : outcome T :=
  let left := n - N - 1 in
  if 0 <=? left then read input left else Ok lane0.

Definition right_val (input : list T) (N xsize n : Z) : outcome T :=
  let right := n + N - 1 in
  if right <? xsize then read input right else Ok lane0.

(** One mode of a bounds-checked step: the new [out_k], which is also the new
    [prev_k]; the new [prev2_k] is the old [prev_k]. *)
Definition single_out (mul_in_k mul_prev_k mul_prev2_k sum prev_k prev2_k : V) : V :=
  let out_k := Mul sum mul_in_k in
  let out_k := MulAdd mul_prev2_k prev2_k out_k in
  MulAdd mul_prev_k prev_k out_k.

(** A bounds-checked step once its two operands are known; [guard] is the
    first loop's [if (n >= 0)] before the store. *)
Definition checked_step (c : hcoef) (guard : bool) (n : Z) (l r : T)
    (st : hstate) : outcome hstate :=
  let sum := SetV (LanesCapped target) (lane_add l r) in
  let out_1 := single_out (mul_in_1 c) (mul_prev_1 c) (mul_prev2_1 c) sum (prev_1 st) (prev2_1 st) in
  let out_3 := single_out (mul_in_3 c) (mul_prev_3 c) (mul_prev2_3 c) sum (prev_3 st) (prev2_3 st) in
  let out_5 := single_out (mul_in_5 c) (mul_prev_5 c) (mul_prev2_5 c) sum (prev_5 st) (prev2_5 st) in
  o <- (if guard && negb (0 <=? n) then Ok (out st)
        else write (GetLane (Add out_1 (Add out_3 out_5))) (out st) n) ;;
  Ok (mkH out_1 out_3 out_5 (prev_1 st) (prev_3 st) (prev_5 st) o).

(** The body of the first and of the last loop. *)
Definition checked_body (c : hcoef) (N xsize : Z) (input : list T) (guard : bool)
    (n : Z) (st : hstate) : outcome hstate :=
  l <- left_val input N n ;;
  r <- right_val input N xsize n ;;
  checked_step c guard n l r st.

(** One mode of an unrolled step. *)
Definition unrolled_out (mul_in_k mul_prev_k mul_prev2_k sum prev_k prev2_k : V) : V :=
  let in0 := Broadcast 0 sum in
  let out_k := Mul in0 mul_in_k in
  let out_k :=
    if is_scalar target then out_k
    else
      let in1 := Broadcast 1 sum in
      let out_k := MulAdd (ShiftLeftLanes 1 mul_in_k) in1 out_k in
      let in2 := Broadcast 2 sum in
      let out_k := MulAdd (ShiftLeftLanes 2 mul_in_k) in2 out_k in
      let in3 := Broadcast 3 sum in
      MulAdd (ShiftLeftLanes 3 mul_in_k) in3 out_k in
  let out_k := MulAdd mul_prev2_k prev2_k out_k in
  MulAdd mul_prev_k prev_k out_k.

Definition next_prev (out_k : V) : V :=
  if is_scalar target then out_k else Broadcast (JXL_GAUSS_MAX_LANES - 1) out_k.
Definition next_prev2 (prev_k out_k : V) : V :=
  if is_scalar target then prev_k else Broadcast (JXL_GAUSS_MAX_LANES - 2) out_k.

(** The body of the unrolled loop, which has no bounds checks of its own. *)
Definition unrolled_body (c : hcoef) (N : Z) (input : list T)
    (n : Z) (st : hstate) : outcome hstate :=
  a <- LoadU (LanesCapped target) input (n - N - 1) ;;
  b <- LoadU (LanesCapped target) input (n + N - 1) ;;
  let sum := Add a b in
  let out_1 := unrolled_out (mul_in_1 c) (mul_prev_1 c) (mul_prev2_1 c) sum (prev_1 st) (prev2_1 st) in
  let out_3 := unrolled_out (mul_in_3 c) (mul_prev_3 c) (mul_prev2_3 c) sum (prev_3 st) (prev2_3 st) in
  let out_5 := unrolled_out (mul_in_5 c) (mul_prev_5 c) (mul_prev2_5 c) sum (prev_5 st) (prev2_5 st) in
  o <- Store (Add out_1 (Add out_3 out_5)) (out st) n ;;
  Ok (mkH (next_prev out_1) (next_prev out_3) (next_prev out_5)
          (next_prev2 (prev_1 st) out_1) (next_prev2 (prev_3 st) out_3)
          (next_prev2 (prev_5 st) out_5) o).

(** The broadcast of lane 0 between the first loop and the unrolled one. *)
Definition broadcast_state (st : hstate) : hstate :=
  if is_scalar target then st
  else mkH (Broadcast 0 (prev_1 st)) (Broadcast 0 (prev_3 st)) (Broadcast 0 (prev_5 st))
           (Broadcast 0 (prev2_1 st)) (Broadcast 0 (prev2_3 st)) (Broadcast 0 (prev2_5 st))
           (out st).

Definition first_aligned (N : Z) : Z :=
  RoundUpTo (N + 1) (Z.of_nat (LanesCapped target)).

(** The bound of the unrolled loop. *)
Definition unrolled_end (N xsize : Z) : Z :=
  xsize - N + 1 - (Z.of_nat JXL_GAUSS_MAX_LANES - 1).

Definition FastGaussian1D (rg : RecursiveGaussian T) (xsize : Z)
    (input : list T) (output : list T) : outcome (list T) :=
  let lanes := LanesCapped target in
  c <- load_coef rg ;;
  let st := mkH (Zero lanes) (Zero lanes) (Zero lanes)
                (Zero lanes) (Zero lanes) (Zero lanes) output in
  let N := radius rg in
  let n := - N + 1 in
  '(n, st) <- for_lt n (Z.min (first_aligned N) xsize) 1
                (checked_body c N xsize input true) st ;;
  let st := broadcast_state st in
  '(n, st) <- for_lt n (unrolled_end N xsize) (Z.of_nat lanes)
                (unrolled_body c N input) st ;;
  '(n, st) <- for_lt n xsize 1 (checked_body c N xsize input false) st ;;
  Ok (out st).

End Horizontal.

(** The direct form of the recursion, (35) of the paper as the comment in
    [CreateRecursiveGaussian] writes it: [o = n * i - d * p - pp]. *)
Definition direct_step {T : Type} {LT : Lane T} (n d i p pp : T) : T :=
  lane_add (lane_add (lane_mul n i) (lane_neg (lane_mul d p))) (lane_neg pp).

(** ** The vertical kernel *)

(** Ring buffer is for n, n-1, n-2; round up to 4 for faster modulo. *)
Definition kRingBufferLen : Z := Z.shiftl 1 2.
Definition kRingBufferMask : Z := kRingBufferLen - 1.
Definition kPrefetchRows : Z := 8.
Definition sizeof_float : Z := 4.

Section Vertical.
Context {T : Type} {LT : Lane T}.
Variable target : Target.

Import hwy.

(** A pointer into a row of floats: the row and the offset in it. *)
Definition pos : Type := (list T * Z)%type.

(** The two [Input] functors. *)
Inductive Input : Type :=
| SingleInput (p : pos)
| TwoInputs (pos1 pos2 : pos).

Definition input_at (input : Input) (offset : Z) : outcome (V (T:=T)) :=
  match input with
  | SingleInput (m, b) => Load (LanesFull target) m (b + offset)
  | TwoInputs (m1, b1) (m2, b2) =>
      in1 <- Load (LanesFull target) m1 (b1 + offset) ;;
      in2 <- Load (LanesFull target) m2 (b2 + offset) ;;
      Ok (Add in1 in2)
  end.

(** The two [Output] functors. *)
Inductive Output : Type :=
| OutputNone
| OutputStore.

(** [in(y)] and [out(y)]: the row accessors, valid on the rows of the plane. *)
Definition get_row (plane : list (list T)) (y : Z) : outcome (list T) :=
  if 0 <=? y then
    match nth_error plane (Z.to_nat y) with
    | Some r => Ok r
    | None => OutOfBounds
    end
  else OutOfBounds.

Fixpoint set_row (plane : list (list T)) (y : nat) (r : list T) : list (list T) :=
  match plane, y with
  | [], _ => []
  | _ :: rest, O => r :: rest
  | r0 :: rest, Datatypes.S y' => r0 :: set_row rest y' r
  end.

(** [out_pos] is [out(n) + x], kept as the row index and [x], or [nullptr]. *)
Definition output_at (output : Output) (v : V) (out_pos : option (Z * Z))
    (offset : Z) (plane : list (list T)) : outcome (list (list T)) :=
  match output with
  | OutputNone => Ok plane
  | OutputStore =>
      match out_pos with
      | None => OutOfBounds
      | Some (y, x) =>
          r <- get_row plane y ;;
          r' <- Store v r (x + offset) ;;
          Ok (set_row plane (Z.to_nat y) r')
      end
  end.

(** The state of the vertical pass: the ring buffer and the output plane. *)
Record vstate : Type := mkV {
  ring_buffer : list T;
  plane : list (list T)
}.

(** The coefficient vectors of [VerticalStrip]. *)
Record vcoef : Type := mkVC {
  d1_1 : V (T:=T); d1_3 : V (T:=T); d1_5 : V (T:=T);
  n2_1 : V (T:=T); n2_3 : V (T:=T); n2_5 : V (T:=T)
}.

(** Equation (35) as [VerticalBlock] writes it. *)
Definition y_next (n2_k d1_k sum y_n1_k y_n2_k : V) : V :=
  MulAdd n2_k sum (NegMulSub d1_k y_n1_k y_n2_k).

(** The body of the loop of [VerticalBlock] over [idx_vec]. *)
Definition block_body (c : vcoef) (kLanes : Z) (input : Input) (n : Z)
    (output : Output) (out_pos : option (Z * Z))
    (idx_vec : Z) (st : vstate) : outcome vstate :=
  let lanes := LanesFull target in
  let y_1 := 0 * kLanes * kRingBufferLen in
  let y_3 := 1 * kLanes * kRingBufferLen in
  let y_5 := 2 * kLanes * kRingBufferLen in
  let n_0 := Z.land (n - 0) kRingBufferMask in
  let n_1 := Z.land (n - 1) kRingBufferMask in
  let n_2 := Z.land (n - 2) kRingBufferMask in
  let rb := ring_buffer st in
  sum <- input_at input idx_vec ;;
  y_n1_1 <- Load lanes rb (y_1 + kLanes * n_1 + idx_vec) ;;
  y_n1_3 <- Load lanes rb (y_3 + kLanes * n_1 + idx_vec) ;;
  y_n1_5 <- Load lanes rb (y_5 + kLanes * n_1 + idx_vec) ;;
  y_n2_1 <- Load lanes rb (y_1 + kLanes * n_2 + idx_vec) ;;
  y_n2_3 <- Load lanes rb (y_3 + kLanes * n_2 + idx_vec) ;;
  y_n2_5 <- Load lanes rb (y_5 + kLanes * n_2 + idx_vec) ;;
  let y1 := y_next (n2_1 c) (d1_1 c) sum y_n1_1 y_n2_1 in
  let y3 := y_next (n2_3 c) (d1_3 c) sum y_n1_3 y_n2_3 in
  let y5 := y_next (n2_5 c) (d1_5 c) sum y_n1_5 y_n2_5 in
  rb <- Store y1 rb (y_1 + kLanes * n_0 + idx_vec) ;;
  rb <- Store y3 rb (y_3 + kLanes * n_0 + idx_vec) ;;
  rb <- Store y5 rb (y_5 + kLanes * n_0 + idx_vec) ;;
  pl <- output_at output (Add y1 (Add y3 y5)) out_pos idx_vec (plane st) ;;
  Ok (mkV rb pl).

Definition VerticalBlock (kVectors : Z) (c : vcoef) (input : Input) (n : Z)
    (output : Output) (out_pos : option (Z * Z)) (st : vstate) : outcome vstate :=
  let kLanes := kVectors * Z.of_nat (LanesFull target) in
  '(_, st) <- for_lt 0 kLanes (Z.of_nat (LanesFull target))
                (block_body c kLanes input n output out_pos) st ;;
  Ok st.

(** [LoadDup128(d, p)]: the four floats at [p] in every 128-bit block; on
    [HWY_SCALAR] the source has [Set(d, p[0])] in its place. *)
Definition LoadDup128 (mem : list T) (off : Z) : outcome (V (T:=T)) :=
  if is_scalar target then
    x <- read mem off ;; Ok (SetV (LanesFull target) x)
  else
    blk <- Load 4 mem off ;;
    Ok (concat (repeat blk (LanesFull target / 4))).

Definition load_vcoef (rg : RecursiveGaussian T) : outcome vcoef :=
  a1 <- LoadDup128 (d1 rg) (0 * 4) ;;
  a3 <- LoadDup128 (d1 rg) (1 * 4) ;;
  a5 <- LoadDup128 (d1 rg) (2 * 4) ;;
  b1 <- LoadDup128 (n2 rg) (0 * 4) ;;
  b3 <- LoadDup128 (n2 rg) (1 * 4) ;;
  b5 <- LoadDup128 (n2 rg) (2 * 4) ;;
  Ok (mkVC a1 a3 a5 b1 b3 b5).

(** [bottom < ysize ? in(bottom) + x : zero]. *)
Definition bottom_pos (input : list (list T)) (zero : list T)
    (x ysize bottom : Z) : outcome pos :=
  if bottom <? ysize then r <- get_row input bottom ;; Ok (r, x)
  else Ok (zero, 0).

(** [in(y) + x]. *)
Definition row_pos (input : list (list T)) (x y : Z) : outcome pos :=
  r <- get_row input y ;; Ok (r, x).

(** [hwy::Prefetch(in(y) + x)]: the accessor is called, nothing is read. *)
Definition Prefetch (input : list (list T)) (x y : Z) : outcome unit :=
  _ <- row_pos input x y ;; Ok tt.

Definition warmup_body (kVectors : Z) (c : vcoef) (N x ysize : Z)
    (zero : list T) (input : list (list T)) (output : Output)
    (n : Z) (st : vstate) : outcome vstate :=
  let bottom := size_t (n + N - 1) in
  p <- bottom_pos input zero x ysize bottom ;;
  match output with
  | OutputNone => VerticalBlock kVectors c (SingleInput p) n OutputNone None st
  | OutputStore =>
      _ <- get_row (plane st) n ;;
      VerticalBlock kVectors c (SingleInput p) n OutputStore (Some (n, x)) st
  end.

Definition interior_body (kVectors : Z) (c : vcoef) (N x : Z)
    (input : list (list T)) (n : Z) (st : vstate) : outcome vstate :=
  let top := size_t (n - N - 1) in
  let bottom := size_t (n + N - 1) in
  p1 <- row_pos input x top ;;
  p2 <- row_pos input x bottom ;;
  _ <- get_row (plane st) n ;;
  st <- VerticalBlock kVectors c (TwoInputs p1 p2) n OutputStore (Some (n, x)) st ;;
  _ <- Prefetch input x (size_t (top + kPrefetchRows)) ;;
  _ <- Prefetch input x (size_t (bottom + kPrefetchRows)) ;;
  Ok st.

Definition border_body (kVectors : Z) (c : vcoef) (N x ysize : Z)
    (zero : list T) (input : list (list T)) (n : Z) (st : vstate) : outcome vstate :=
  let top := size_t (n - N - 1) in
  let bottom := size_t (n + N - 1) in
  p1 <- row_pos input x top ;;
  p2 <- bottom_pos input zero x ysize bottom ;;
  _ <- get_row (plane st) n ;;
  VerticalBlock kVectors c (TwoInputs p1 p2) n OutputStore (Some (n, x)) st.

(** [memset(ring_buffer, 0, count * sizeof(float))]. *)
Definition memset0 (mem : list T) (count : Z) : outcome (list T) :=
  if 0 <=? count then Store (Zero (Z.to_nat count)) mem 0 else OutOfBounds.

Definition VerticalStrip (kVectors : Z) (rg : RecursiveGaussian T)
    (x ysize : Z) (zero : list T) (input : list (list T))
    (st : vstate) : outcome vstate :=
  let lanes := Z.of_nat (LanesFull target) in
  c <- load_vcoef rg ;;
  let N := size_t (radius rg) in
  rb <- memset0 (ring_buffer st) (3 * kVectors * lanes * kRingBufferLen) ;;
  let st := mkV rb (plane st) in
  (* Warmup: top is out of bounds (zero padded), bottom is usually in-bounds. *)
  let n := - ssize_t N + 1 in
  '(n, st) <- for_lt n 0 1
                (warmup_body kVectors c N x ysize zero input OutputNone) st ;;
  (* Start producing output; top is still out of bounds. *)
  let n := 0 in
  '(n, st) <- for_loop (Z.to_nat ysize)
                (fun n => size_t n <? Z.min (size_t (N + 1)) ysize)
                (fun n => n + 1)
                (warmup_body kVectors c N x ysize zero input OutputStore) n st ;;
  (* Interior outputs with prefetching and without bounds checks. *)
  '(n, st) <- for_lt n (ssize_t (size_t (ysize - N + 1 - kPrefetchRows))) 1
                (interior_body kVectors c N x input) st ;;
  (* Bottom border without prefetching and with bounds checks. *)
  '(n, st) <- for_loop (Z.to_nat (ysize - n))
                (fun n => size_t n <? ysize) (fun n => n + 1)
                (border_body kVectors c N x ysize zero input) n st ;;
  Ok st.

(** The two loops over [x] of [FastGaussianVertical], for any strip routine:
    strips of [unroll] vectors while a whole one fits, then strips of one
    vector. *)
Definition strip_loops {S : Type} (xsize : Z)
    (strip : Z -> Z -> S -> outcome S) (s : S) : outcome S :=
  let lanes := Z.of_nat (LanesFull target) in
  let kCacheLineLanes := 64 / sizeof_float in
  let unroll := Z.max (kCacheLineLanes / lanes) 4 in
  let fast_pace := size_t (unroll * lanes) in
  let x := 0 in
  '(x, s) <-
     (if (unroll =? 4) || (unroll =? 8) || (unroll =? 16) then
        for_loop (Z.to_nat xsize)
          (fun x => size_t (x + fast_pace) <=? xsize)
          (fun x => size_t (x + fast_pace))
          (strip unroll) x s
      else Aborted) ;;
  '(x, s) <- for_loop (Z.to_nat xsize)
               (fun x => x <? xsize) (fun x => size_t (x + lanes))
               (strip 1) x s ;;
  Ok s.

(** [AlignedMemory::Create] either fails or gives a block of the bytes asked
    for; [memory_manager] is the allocator's answer for a size in bytes. *)
Definition FastGaussianVertical (memory_manager : Z -> option (list T))
    (rg : RecursiveGaussian T) (xsize ysize : Z)
    (input : list (list T)) (output : list (list T))
    : outcome (bool * list (list T)) :=
  let lanes := Z.of_nat (LanesFull target) in
  let kCacheLineLanes := 64 / sizeof_float in
  let unroll := Z.max (kCacheLineLanes / lanes) 4 in
  let fast_pace := size_t (unroll * lanes) in
  let scratch_size :=
    size_t (fast_pace * sizeof_float * (1 + 3 * kRingBufferLen)) in
  match memory_manager scratch_size with
  | None => Ok (false, output)
  | Some mem =>
      let zero := firstn (Z.to_nat fast_pace) mem in
      let ring_buffer := skipn (Z.to_nat fast_pace) mem in
      zero <- memset0 zero fast_pace ;;
      st <- strip_loops xsize
              (fun kVectors x st => VerticalStrip kVectors rg x ysize zero input st)
              (mkV ring_buffer output) ;;
      Ok (true, plane st)
  end.

End Vertical.

(** ** The two passes over a plane *)

Section Passes.
Context {T : Type} {LT : Lane T}.
Variable target : Target.

(** [process_line] of [FastGaussianHorizontal]: [in(y)] is read and [out(y)]
    is written by [FastGaussian1D]. *)
Definition process_line (rg : RecursiveGaussian T) (xsize : Z)
    (input : list (list T)) (task : Z) (out : list (list T))
    : outcome (list (list T)) :=
  let y := task in
  r_in <- get_row input y ;;
  r_out <- get_row out y ;;
  r <- FastGaussian1D target rg xsize r_in r_out ;;
  Ok (set_row out (Z.to_nat y) r).

(** Modelled from the spec: [RunOnPool] of lib/jxl/base/data_parallel.h, which
    is not among the sources, "guarantees each index is invoked exactly
    once"; the tasks 0 .. ysize - 1 run here in this order.  This is the
    pass on a pool that reports success; [FastGaussianHorizontal_pool]
    below has the status of the pool and the [uint32_t] task index. *)
Definition FastGaussianHorizontal (rg : RecursiveGaussian T) (xsize ysize : Z)
    (input out : list (list T)) : outcome (bool * list (list T)) :=
  '(_, out) <- for_lt 0 ysize 1 (process_line rg xsize input) out ;;
  Ok (true, out).

End Passes.

(** ** The passes on a thread pool *)

(** A conversion to [uint32_t]. *)
Definition uint32_t (z : Z) : Z := z mod 2 ^ 32.

(** Modelled from the spec: the worker pool, which "accepts a task count and
    a per-task closure indexed by task id" and "guarantees each index is
    invoked exactly once"; [ThreadPool] and [RunOnPool] of
    lib/jxl/base/data_parallel.h are not among the sources.  A pool is
    known by the [Status] its runner reports; [RunOnPool] runs the tasks
    [begin .. end - 1], here in this order, and fails when the runner
    reports a failure or a task returns one. *)
Record ThreadPool : Type := mkPool { runner_ok : bool }.

Definition RunOnPool {S : Type} (pool : ThreadPool) (begin end_ : Z)
    (data_func : Z -> S -> outcome (bool * S)) (s : S) : outcome (bool * S) :=
  '(_, (ok, s)) <-
    for_lt begin end_ 1
      (fun task '(ok, s) =>
         '(ok', s') <- data_func task s ;; Ok (ok && ok', s'))
      (true, s) ;;
  Ok (runner_ok pool && ok, s).

Section PoolPasses.
Context {T : Type} {LT : Lane T}.
Variable target : Target.

(** [FastGaussianHorizontal] with its pool: the lambda [process_line] takes
    its task as a [uint32_t] and returns [true]; a failure of [RunOnPool] is
    returned by [JXL_RETURN_IF_ERROR].  [FastGaussianHorizontal] above is
    this pass on a pool that reports success, for at most [2^32] rows. *)
Definition FastGaussianHorizontal_pool (rg : RecursiveGaussian T)
    (xsize ysize : Z) (input out : list (list T)) (pool : ThreadPool)
    : outcome (bool * list (list T)) :=
  let process_line_task := fun (task : Z) (out : list (list T)) =>
    out <- process_line target rg xsize input (uint32_t task) out ;;
    Ok (true, out) in
  '(ok, out) <- RunOnPool pool 0 ysize process_line_task out ;;
  if negb ok then Ok (false, out) else Ok (true, out).

(** [FastGaussian]: the horizontal pass into [temp], then the vertical pass
    from [temp] into [out]; the state is the pair of [temp] and [out].  Each
    pass is under [JXL_RETURN_IF_ERROR]. *)
Definition FastGaussian (memory_manager : Z -> option (list T))
    (rg : RecursiveGaussian T) (xsize ysize : Z)
    (input temp out : list (list T)) (pool : ThreadPool)
    : outcome (bool * (list (list T) * list (list T))) :=
  '(ok, temp) <- FastGaussianHorizontal_pool rg xsize ysize input temp pool ;;
  if negb ok then Ok (false, (temp, out))
  else
    '(ok, out) <- FastGaussianVertical target memory_manager rg xsize ysize
                    temp out ;;
    if negb ok then Ok (false, (temp, out)) else Ok (true, (temp, out)).

End PoolPasses.

(** ** The filter designer: CreateRecursiveGaussian

    The designer works on [double]; it is embedded on [R], with [PI] for
    [kPi], the functions of [Reals] for those of [<cmath>], and no rounding.
    Division is the total division of [R] ([x / 0 = 0]), where the code goes
    on with an infinity or a NaN. *)

Module Designer.
Open Scope R_scope.

Definition Vector3d : Type := (R * R * R)%type.
Definition Matrix3x3d : Type := (Vector3d * Vector3d * Vector3d)%type.

Definition det3 (A : Matrix3x3d) : R :=
  let '((a, b, c), (d, e, f), (g, h, i)) := A in
  a * (e * i - f * h) - b * (d * i - f * g) + c * (d * h - e * g).

(** Modelled from the spec: [Inv3x3Matrix] of lib/jxl/base/matrix_ops.h, which
    is not among the sources; it inverts the matrix in place and fails when
    "the derived 3x3 coefficient matrix is singular", leaving it as it was. *)
Definition Inv3x3Matrix (A : Matrix3x3d) : bool * Matrix3x3d :=
  let '((a, b, c), (d, e, f), (g, h, i)) := A in
  let det := det3 A in
  if Req_dec_T det 0 then (false, A)
  else
    let idet := 1 / det in
    (true,
     (((e * i - f * h) * idet, (c * h - b * i) * idet, (b * f - c * e) * idet),
      ((f * g - d * i) * idet, (a * i - c * g) * idet, (c * d - a * f) * idet),
      ((d * h - e * g) * idet, (b * g - a * h) * idet, (a * e - b * d) * idet))).

(** Modelled from the spec: [Mul3x3Vector] of lib/jxl/base/matrix_ops.h, the
    product of a matrix and a column vector ("the solution beta"). *)
Definition Mul3x3Vector (A : Matrix3x3d) (v : Vector3d) : Vector3d :=
  let '((a, b, c), (d, e, f), (g, h, i)) := A in
  let '(x, y, z) := v in
  (a * x + b * y + c * z, d * x + e * y + f * z, g * x + h * y + i * z).

(** [std::round]: to the nearest integer, halfway cases away from zero. *)
Definition floor (x : R) : Z := (up x - 1)%Z.
Definition round (x : R) : Z :=
  if Rle_dec 0 x then floor (x + / 2) else (- floor (- x + / 2))%Z.

(** [static_cast<int>] of a [double] that holds the integer [z]. *)
Definition static_cast_int (z : Z) : outcome Z :=
  if ((- 2 ^ 31 <=? z) && (z <? 2 ^ 31))%Z then Ok z else Undefined.

(** [JXL_DASSERT(cond)]; [dassert] tells whether the build checks it (the
    macro is defined in lib/jxl/base/status.h, not among the sources; the
    code's [(void)status] and [(void)sum] are for the builds that do not). *)
Definition JXL_DASSERT (dassert : bool) (cond : bool) : outcome unit :=
  if dassert && negb cond then Aborted else Ok tt.

(** [3.2795 * sigma + 0.2546], the argument of [std::round] in (57). *)
Definition radius_arg (sigma : R) : R :=
  32795 / 10000 * sigma + 2546 / 10000.

(** The values the designer computes before it inverts the matrix. *)
Record design : Type := mkDesign {
  d_radius : R;
  d_omega : Vector3d;
  d_p : Vector3d;        (* p_1, p_3, p_5 *)
  d_r : Vector3d;        (* r_1, r_3, r_5 *)
  d_rho : Vector3d;
  d_zeta : R * R;        (* zeta_15, zeta_35 *)
  d_A : Matrix3x3d
}.

Definition design_of (sigma : R) : design :=
  let radius := IZR (round (radius_arg sigma)) in      (* (57), "N" *)
  (* Table I, first row *)
  let pi_div_2r := PI / (2 * radius) in
  let omega := (pi_div_2r, 3 * pi_div_2r, 5 * pi_div_2r) in
  let '(omega0, omega1, omega2) := omega in
  (* (37), k={1,3,5} *)
  let p_1 := 1 / tan (/ 2 * omega0) in
  let p_3 := - 1 / tan (/ 2 * omega1) in
  let p_5 := 1 / tan (/ 2 * omega2) in
  (* (44), k={1,3,5} *)
  let r_1 := p_1 * p_1 / sin omega0 in
  let r_3 := - p_3 * p_3 / sin omega1 in
  let r_5 := p_5 * p_5 / sin omega2 in
  (* (50), k={1,3,5} *)
  let neg_half_sigma2 := - / 2 * sigma * sigma in
  let recip_radius := 1 / radius in
  let rho0 := exp (neg_half_sigma2 * omega0 * omega0) * recip_radius in
  let rho1 := exp (neg_half_sigma2 * omega1 * omega1) * recip_radius in
  let rho2 := exp (neg_half_sigma2 * omega2 * omega2) * recip_radius in
  (* second part of (52), k1,k2 = 1,3; 3,5; 5,1 *)
  let D_13 := p_1 * r_3 - r_1 * p_3 in
  let D_35 := p_3 * r_5 - r_3 * p_5 in
  let D_51 := p_5 * r_1 - r_5 * p_1 in
  (* (52), k=5 *)
  let recip_d13 := 1 / D_13 in
  let zeta_15 := D_35 * recip_d13 in
  let zeta_35 := D_51 * recip_d13 in
  mkDesign radius omega (p_1, p_3, p_5) (r_1, r_3, r_5) (rho0, rho1, rho2)
           (zeta_15, zeta_35)
           ((p_1, p_3, p_5), (r_1, r_3, r_5) (* (56) *), (zeta_15, zeta_35, 1)).

(** [beta], from (53), and the sum of (39) that the sanity check looks at. *)
Definition beta_of (sigma : R) (A : Matrix3x3d) : Vector3d :=
  let d := design_of sigma in
  let radius := d_radius d in
  let '(rho0, rho1, rho2) := d_rho d in
  let '(zeta_15, zeta_35) := d_zeta d in
  let gamma := (1, radius * radius - sigma * sigma,     (* (55) *)
                zeta_15 * rho0 + zeta_35 * rho1 + rho2) in
  Mul3x3Vector A gamma.                                  (* (53) *)

Definition normalization_sum (sigma : R) (A : Matrix3x3d) : R :=
  let '(p_1, p_3, p_5) := d_p (design_of sigma) in
  let '(beta0, beta1, beta2) := beta_of sigma A in
  beta0 * p_1 + beta1 * p_3 + beta2 * p_5.               (* (39) *)

Definition Rltb (x y : R) : bool := if Rlt_dec x y then true else false.

Definition CreateRecursiveGaussian (dassert : bool) (sigma : R)
    : outcome (RecursiveGaussian R) :=
  let d := design_of sigma in
  let radius := d_radius d in
  let '(omega0, omega1, omega2) := d_omega d in
  let '(status, A) := Inv3x3Matrix (d_A d) in
  _ <- JXL_DASSERT dassert status ;;
  let '(beta0, beta1, beta2) := beta_of sigma A in
  (* Sanity check: correctly solved for beta *)
  let sum := normalization_sum sigma A in
  _ <- JXL_DASSERT dassert (Rltb (Rabs (sum - 1)) (1 / 10 ^ 12)) ;;
  radius_int <- static_cast_int (round (radius_arg sigma)) ;;
  let n2_0 := - beta0 * cos (omega0 * (radius + 1)) in    (* (33) *)
  let n2_1 := - beta1 * cos (omega1 * (radius + 1)) in
  let n2_2 := - beta2 * cos (omega2 * (radius + 1)) in
  let d1_0 := - 2 * cos omega0 in                         (* (33) *)
  let d1_1 := - 2 * cos omega1 in
  let d1_2 := - 2 * cos omega2 in
  Ok (fill_tables (n2_0, n2_1, n2_2) (d1_0, d1_1, d1_2) radius_int).

End Designer.

(** * Statements

    The notions the claims are stated with. *)

Section Reading.
Context {T : Type} {LT : Lane T}.

(** The element at offset [q] of an object. *)
Definition getz (mem : list T) (q : Z) : T := nth (Z.to_nat q) mem lane0.

(** The ring buffer holds, for the modes 1, 3, 5 ([mode] 0, 1, 2), four
    slots of [kLanes] lanes each: [y_k + kLanes * slot + lane]. *)
Definition ring_at (rb : list T) (kLanes mode slot lane : Z) : T :=
  getz rb (mode * kLanes * kRingBufferLen + kLanes * slot + lane).

(** Lane [i] of what an [Input] functor gives for a block. *)
Definition input_lane (input : Input (T:=T)) (i : Z) : T :=
  match input with
  | SingleInput (m, b) => getz m (b + i)
  | TwoInputs (m1, b1) (m2, b2) => lane_add (getz m1 (b1 + i)) (getz m2 (b2 + i))
  end.

(** One lane of [y_next]: [n2 * sum + (-(d1 * y_n1) - y_n2)]. *)
Definition y_lane (n2_k d1_k sum y_n1 y_n2 : T) : T :=
  lane_add (lane_mul n2_k sum)
           (lane_add (lane_neg (lane_mul d1_k y_n1)) (lane_neg y_n2)).

(** The coefficient vectors of a mode. *)
Definition n2_of (c : vcoef (T:=T)) (mode : Z) : hwy.V (T:=T) :=
  if mode =? 0 then n2_1 c else if mode =? 1 then n2_3 c else n2_5 c.
Definition d1_of (c : vcoef (T:=T)) (mode : Z) : hwy.V (T:=T) :=
  if mode =? 0 then d1_1 c else if mode =? 1 then d1_3 c else d1_5 c.

(** What [VerticalBlock] needs of its arguments: a ring buffer of three
    modes, coefficient vectors of full width, [kLanes] readable floats at
    each input pointer and [kLanes] writable floats at [out_pos]. *)
Definition pos_ok (kLanes : Z) (p : pos (T:=T)) : Prop :=
  0 <= snd p /\ snd p + kLanes <= Z.of_nat (length (fst p)).

Definition input_ok (kLanes : Z) (input : Input (T:=T)) : Prop :=
  match input with
  | SingleInput p => pos_ok kLanes p
  | TwoInputs p1 p2 => pos_ok kLanes p1 /\ pos_ok kLanes p2
  end.

Definition output_ok (kLanes : Z) (output : Output) (out_pos : option (Z * Z))
    (pl : list (list T)) : Prop :=
  match output with
  | OutputNone => True
  | OutputStore =>
      match out_pos with
      | None => False
      | Some (y, x) =>
          0 <= y /\ 0 <= x /\
          exists r, nth_error pl (Z.to_nat y) = Some r
                    /\ x + kLanes <= Z.of_nat (length r)
      end
  end.

Definition vcoef_ok (lanes : nat) (c : vcoef (T:=T)) : Prop :=
  length (d1_1 c) = lanes /\ length (d1_3 c) = lanes /\ length (d1_5 c) = lanes /\
  length (n2_1 c) = lanes /\ length (n2_3 c) = lanes /\ length (n2_5 c) = lanes.

End Reading.

(** The update of the vertical pass in the words of the specification:
    [y[n] = n2[k] * sum - d1[k] * y[n-1] + y[n-2]]. *)
Definition spec_vertical_update (n2_k d1_k sum y_n1 y_n2 : R) : R :=
  (n2_k * sum - d1_k * y_n1 + y_n2)%R.

(** Four consecutive applications of the direct form
    [o_j = n2 * i_j - d1 * o_{j-1} - o_{j-2}] from [prev], [prev2]. *)
Definition direct4 (n d : R) (i0 i1 i2 i3 p pp : R) : list R :=
  let o0 := direct_step n d i0 p pp in
  let o1 := direct_step n d i1 o0 p in
  let o2 := direct_step n d i2 o1 o0 in
  let o3 := direct_step n d i3 o2 o1 in
  [o0; o1; o2; o3].

(** The unrolled step of a mode, with the coefficient vectors [mul_in_k],
    [mul_prev_k], [mul_prev2_k], gives the four outputs of the direct form
    with [n] and [d], and hands the last two on as [prev] and [prev2]. *)
Definition unrolled_is_direct (target : Target)
    (mul_in_k mul_prev_k mul_prev2_k : list R) (n d : R) : Prop :=
  forall i0 i1 i2 i3 p pp : R,
    let out_k := unrolled_out target mul_in_k mul_prev_k mul_prev2_k
                   [i0; i1; i2; i3] (hwy.SetV 4 p) (hwy.SetV 4 pp) in
    out_k = direct4 n d i0 i1 i2 i3 p pp
    /\ next_prev target out_k = hwy.SetV 4 (nth 3 out_k 0%R)
    /\ next_prev2 target (hwy.SetV 4 p) out_k = hwy.SetV 4 (nth 2 out_k 0%R).

(** The targets the kernels are compiled for: [HWY_SCALAR], or vectors of
    whole 128-bit blocks. *)
Definition target_ok (t : Target) : Prop :=
  match t with
  | HWY_SCALAR => True
  | HWY_SIMD l => (4 <= l)%nat /\ (l mod 4 = 0)%nat /\ Z.of_nat l < 2 ^ 32
  end.

(** [unroll] and [fast_pace] of [FastGaussianVertical]. *)
Definition unroll_of (t : Target) : Z :=
  Z.max (64 / sizeof_float / Z.of_nat (LanesFull t)) 4.
Definition fast_pace_of (t : Target) : Z :=
  size_t (unroll_of t * Z.of_nat (LanesFull t)).

(** The calls [VerticalStrip<kVectors>(rg, x, ...)] of a run, in order, as
    pairs [(kVectors, x)]: the two loops over [x] with a body that records
    its arguments. *)
Definition strip_schedule (t : Target) (xsize : Z) : outcome (list (Z * Z)) :=
  strip_loops t xsize (fun kVectors x calls => Ok (calls ++ [(kVectors, x)])) [].

(** The strip [(kVectors, x)] works on the columns
    [x .. x + kVectors * Lanes(df) - 1]. *)
Definition covers (t : Target) (col : Z) (strip : Z * Z) : bool :=
  let '(kVectors, x) := strip in
  (x <=? col) && (col <? x + kVectors * Z.of_nat (LanesFull t)).

(** Running a strip routine over a list of calls. *)
Fixpoint run_strips {S : Type} (strip : Z -> Z -> S -> outcome S)
    (calls : list (Z * Z)) (s : S) : outcome S :=
  match calls with
  | [] => Ok s
  | (kVectors, x) :: rest =>
      s' <- strip kVectors x s ;; run_strips strip rest s'
  end.

(** A plane of [ysize] rows with at least [width] floats in each row. *)
Definition rows_ok {T : Type} (pl : list (list T)) (ysize width : Z) : Prop :=
  Z.of_nat (length pl) = ysize
  /\ Forall (fun r => width <= Z.of_nat (length r)) pl.

(** The five tables of a [RecursiveGaussian] have [3 * 4] entries. *)
Definition tables_ok {T : Type} (rg : RecursiveGaussian T) : Prop :=
  length (n2 rg) = 12%nat /\ length (d1 rg) = 12%nat
  /\ length (mul_prev rg) = 12%nat /\ length (mul_prev2 rg) = 12%nat
  /\ length (mul_in rg) = 12%nat.

(** [scratch_size] of [FastGaussianVertical], in bytes. *)
Definition scratch_size_of (t : Target) : Z :=
  size_t (fast_pace_of t * sizeof_float * (1 + 3 * kRingBufferLen)).

(** [AlignedMemory::Create] answers a request with a block of the size asked
    for, when it answers. *)
Definition allocator_ok {T : Type} (memory_manager : Z -> option (list T)) : Prop :=
  forall bytes mem, memory_manager bytes = Some mem ->
    Z.of_nat (length mem) * sizeof_float = bytes.

(** The row with zeros on both sides: [in[i]] inside [0, xsize), 0 outside. *)
Definition padded {T : Type} {LT : Lane T} (input : list T) (i : Z) : T :=
  if (0 <=? i) && (i <? Z.of_nat (length input)) then getz input i else lane0.

(** The coefficient vectors of [FastGaussian1D] have the capped width. *)
Definition hcoef_ok {T : Type} (lanes : nat) (c : hcoef (T:=T)) : Prop :=
  length (mul_in_1 c) = lanes /\ length (mul_in_3 c) = lanes
  /\ length (mul_in_5 c) = lanes /\ length (mul_prev_1 c) = lanes
  /\ length (mul_prev_3 c) = lanes /\ length (mul_prev_5 c) = lanes
  /\ length (mul_prev2_1 c) = lanes /\ length (mul_prev2_3 c) = lanes
  /\ length (mul_prev2_5 c) = lanes.


(** What every row step of a strip keeps: the size of the ring buffer and
    the shape of the output plane, whose rows hold [x + kLanes] floats. *)
Definition strip_inv {T : Type} (t : Target) (kVectors x ysize : Z)
    (rb_len : nat) (shape : list nat) (st : vstate (T:=T)) : Prop :=
  length (ring_buffer st) = rb_len
  /\ map (@length T) (plane st) = shape
  /\ rows_ok (plane st) ysize (x + kVectors * Z.of_nat (LanesFull t)).

(** ** The filter designer *)

(** [D_13] of [CreateRecursiveGaussian], as a function of [sigma]. *)
Definition D_13_of (sigma : R) : R :=
  let '(p_1, p_3, _) := Designer.d_p (Designer.design_of sigma) in
  let '(r_1, r_3, _) := Designer.d_r (Designer.design_of sigma) in
  (p_1 * r_3 - r_1 * p_3)%R.

(** [D_13] as a function of the half angle [x = omega_1 / 2]. *)
Definition D13x (x : R) : R :=
  let p_1 := (1 / tan x)%R in
  let p_3 := (- 1 / tan (3 * x))%R in
  let r_1 := (p_1 * p_1 / sin (2 * x))%R in
  let r_3 := (- p_3 * p_3 / sin (2 * (3 * x)))%R in
  (p_1 * r_3 - r_1 * p_3)%R.


(** ** Example data *)

(** One scalar block: coefficients, ring buffer and input row. *)
Definition c1_coef : vcoef (T:=R) :=
  mkVC [3%R] [3%R] [3%R] [2%R] [2%R] [2%R].
Definition c1_ring : list R := [0; 0; 11; 7; 0; 0; 0; 0; 0; 0; 0; 0]%R.
Definition c1_input : Input (T:=R) := SingleInput ([5%R], 0).

(** A row of twelve floats for four lanes, and a state of zeros. *)
Definition w_coef : hcoef (T:=Z) :=
  mkC [1; 1; 1; 1] [1; 1; 1; 1] [1; 1; 1; 1] [1; 1; 1; 1] [1; 1; 1; 1]
      [1; 1; 1; 1] [1; 1; 1; 1] [1; 1; 1; 1] [1; 1; 1; 1].
Definition w_row : list Z := [1; 0; 0; 2; 0; 0; 0; -1; 0; 3; 0; 7].
Definition w_hstate : hstate (T:=Z) :=
  mkH [0; 0; 0; 0] [0; 0; 0; 0] [0; 0; 0; 0] [0; 0; 0; 0] [0; 0; 0; 0]
      [0; 0; 0; 0] (repeat 0 12%nat).

(** A run on integers: rows of 5 columns, vectors of 4 lanes, radius 2. *)
Definition w_rg : RecursiveGaussian Z := fill_tables (2, 3, 5) (1, -1, 2) 2.

Definition w_alloc (bytes : Z) : option (list Z) :=
  if (0 <=? bytes) && (bytes mod 4 =? 0)
  then Some (repeat 7 (Z.to_nat (bytes / 4)))
  else None.

(** * Further statements

    The notions the properties of the whole passes are stated with. *)

(** ** The direct form along a signal *)

(** The second-order recursion [y[j] = n * u[j] - d * y[j-1] - y[j-2]] from
    [y[-1] = y[-2] = 0]: the pair [(y[j-1], y[j-2])] that step [j] starts
    from. *)
Fixpoint direct_state (n d : R) (u : nat -> R) (j : nat) : R * R :=
  match j with
  | O => (0%R, 0%R)
  | S j' =>
      let '(p, pp) := direct_state n d u j' in
      (direct_step n d (u j') p pp, p)
  end.

(** Step [j] of a pass with radius [N] over the signal [f] adds the samples
    at [j - 2 * N] and at [j], and gives the output at [j - N + 1]. *)
Definition taps (N : Z) (f : Z -> R) (j : nat) : R :=
  (f (Z.of_nat j - 2 * N)%Z + f (Z.of_nat j))%R.

(** What step [j] of the three modes gives when they run in direct form
    over the sums [u]: the sum of the three new outputs. *)
Definition modes_out (n2_ d1_ : R * R * R) (u : nat -> R) (j : nat) : R :=
  let '(n2_0, n2_1, n2_2) := n2_ in
  let '(d1_0, d1_1, d1_2) := d1_ in
  (fst (direct_state n2_0 d1_0 u (S j))
   + (fst (direct_state n2_1 d1_1 u (S j))
      + fst (direct_state n2_2 d1_2 u (S j))))%R.

(** The output at [n] of a pass in direct form over the signal [f]. *)
Definition direct_filter (n2_ d1_ : R * R * R) (N : Z) (f : Z -> R) (n : Z) : R :=
  modes_out n2_ d1_ (taps N f) (Z.to_nat (n + N - 1)).

(** A row of [xsize] floats as a signal, with zeros on both sides. *)
Definition row_signal (xsize : Z) (input : list R) (i : Z) : R :=
  if (0 <=? i) && (i <? xsize) then getz input i else 0%R.

(** The coefficient vectors that [FastGaussian1D] loads from the tables of
    [fill_tables]. *)
Definition coef_of (t : Target) (n2_ d1_ : R * R * R) : hcoef (T:=R) :=
  let '(n2_0, n2_1, n2_2) := n2_ in
  let '(d1_0, d1_1, d1_2) := d1_ in
  let L := LanesCapped t in
  mkC (firstn L (mul_in_lanes n2_0 d1_0)) (firstn L (mul_in_lanes n2_1 d1_1))
      (firstn L (mul_in_lanes n2_2 d1_2))
      (firstn L (mul_prev_lanes d1_0)) (firstn L (mul_prev_lanes d1_1))
      (firstn L (mul_prev_lanes d1_2))
      (firstn L (mul_prev2_lanes d1_0)) (firstn L (mul_prev2_lanes d1_1))
      (firstn L (mul_prev2_lanes d1_2)).

(** The state of a mode between two steps: in the bounds-checked loops lane
    0 of [prev_k] and [prev2_k] holds the two last outputs, in the unrolled
    loop every lane does. *)
Definition mode_head (L : nat) (prev prev2 : list R) (s : R * R) : Prop :=
  length prev = L /\ length prev2 = L
  /\ getz prev 0 = fst s /\ getz prev2 0 = snd s.

Definition mode_all (L : nat) (prev prev2 : list R) (s : R * R) : Prop :=
  prev = hwy.SetV L (fst s) /\ prev2 = hwy.SetV L (snd s).

(** The state of [FastGaussian1D] before step [j] of the three modes. *)
Definition hstate_at (rel : nat -> list R -> list R -> R * R -> Prop)
    (t : Target) (n2_ d1_ : R * R * R) (u : nat -> R) (j : nat)
    (st : hstate (T:=R)) : Prop :=
  let '(n2_0, n2_1, n2_2) := n2_ in
  let '(d1_0, d1_1, d1_2) := d1_ in
  rel (LanesCapped t) (prev_1 st) (prev2_1 st) (direct_state n2_0 d1_0 u j)
  /\ rel (LanesCapped t) (prev_3 st) (prev2_3 st) (direct_state n2_1 d1_1 u j)
  /\ rel (LanesCapped t) (prev_5 st) (prev2_5 st) (direct_state n2_2 d1_2 u j).

(** The output row before the step at [n]: the outputs below [n] are
    written, the rest of the row is as it was. *)
Definition out_upto (F : Z -> R) (output : list R) (n : Z) (o : list R) : Prop :=
  length o = length output
  /\ (forall m, 0 <= m < n -> getz o m = F m)
  /\ (forall m, 0 <= m -> n <= m -> getz o m = getz output m).

(** What the two bounds-checked loops of [FastGaussian1D] keep, before the
    step at [n]. *)
Definition checked_inv (t : Target) (n2_ d1_ : R * R * R) (N xsize : Z)
    (input output : list R) (n : Z) (st : hstate (T:=R)) : Prop :=
  - N + 1 <= n <= xsize
  /\ hstate_at mode_head t n2_ d1_ (taps N (row_signal xsize input))
       (Z.to_nat (n + N - 1)) st
  /\ out_upto (direct_filter n2_ d1_ N (row_signal xsize input)) output n (out st).

(** What the unrolled loop of [FastGaussian1D] keeps, before the step at
    [n]. *)
Definition unrolled_inv (t : Target) (n2_ d1_ : R * R * R) (N xsize : Z)
    (input output : list R) (n : Z) (st : hstate (T:=R)) : Prop :=
  - N + 1 <= n <= xsize
  /\ hstate_at mode_all t n2_ d1_ (taps N (row_signal xsize input))
       (Z.to_nat (n + N - 1)) st
  /\ out_upto (direct_filter n2_ d1_ N (row_signal xsize input)) output n (out st).

(** ** The vertical pass in direct form *)

(** The float at column [q] of row [y] of a plane. *)
Definition at2 (pl : list (list R)) (y q : Z) : R :=
  getz (nth (Z.to_nat y) pl []) q.

(** Column [col] of a plane of [ysize] rows as a signal, with zeros above
    and below. *)
Definition col_signal (ysize : Z) (pl : list (list R)) (col : Z) (i : Z) : R :=
  if (0 <=? i) && (i <? ysize) then at2 pl i col else 0%R.

(** The coefficient of mode 1, 3 or 5 ([k] = 0, 1, 2). *)
Definition mode_coef (c : R * R * R) (k : Z) : R :=
  let '(c0, c1, c2) := c in
  if k =? 0 then c0 else if k =? 1 then c1 else c2.

(** The coefficient vectors that [VerticalStrip] loads from the tables of
    [fill_tables]. *)
Definition vcoef_of (t : Target) (n2_ d1_ : R * R * R) : vcoef (T:=R) :=
  let '(n2_0, n2_1, n2_2) := n2_ in
  let '(d1_0, d1_1, d1_2) := d1_ in
  let L := LanesFull t in
  mkVC (hwy.SetV L d1_0) (hwy.SetV L d1_1) (hwy.SetV L d1_2)
       (hwy.SetV L n2_0) (hwy.SetV L n2_1) (hwy.SetV L n2_2).

(** The state of [VerticalStrip] before the row step at [n]: in every
    column of the strip the ring buffer holds the two last outputs of each
    mode, the rows below [n] of the strip are written, and the rest of the
    output plane is as it was in [plane0]. *)
Definition strip_at (t : Target) (n2_ d1_ : R * R * R) (N : Z)
    (kVectors x ysize : Z) (input plane0 : list (list R)) (rb_len : nat)
    (n : Z) (st : vstate (T:=R)) : Prop :=
  let kLanes := kVectors * Z.of_nat (LanesFull t) in
  let j := Z.to_nat (n + N - 1) in
  length (ring_buffer st) = rb_len
  /\ map (@length R) (plane st) = map (@length R) plane0
  /\ (forall k i, 0 <= k < 3 -> 0 <= i < kLanes ->
        let s := direct_state (mode_coef n2_ k) (mode_coef d1_ k)
                   (taps N (col_signal ysize input (x + i))) j in
        ring_at (ring_buffer st) kLanes k (Z.land (n - 1) kRingBufferMask) i
        = fst s
        /\ ring_at (ring_buffer st) kLanes k (Z.land (n - 2) kRingBufferMask) i
           = snd s)
  /\ (forall m i, 0 <= m < n -> 0 <= i < kLanes ->
        at2 (plane st) m (x + i)
        = direct_filter n2_ d1_ N (col_signal ysize input (x + i)) m)
  /\ (forall m q, 0 <= m -> 0 <= q -> n <= m \/ q < x \/ x + kLanes <= q ->
        at2 (plane st) m q = at2 plane0 m q).

(** Column [q] of a plane, as a row. *)
Definition column (pl : list (list R)) (q : Z) : list R :=
  map (fun r => getz r q) pl.

(** An allocator of blocks of reals, for the examples. *)
Definition r_alloc (bytes : Z) : option (list R) :=
  if (0 <=? bytes) && (bytes mod 4 =? 0)
  then Some (repeat 1%R (Z.to_nat (bytes / 4)))
  else None.

(** A plane of two rows of four floats, and a plane of ones to write to. *)
Definition r_plane : list (list R) := [[1; 2; 3; 4]; [5; 6; 7; 8]]%R.
Definition r_ones : list (list R) := [[1; 1; 1; 1]; [1; 1; 1; 1]]%R.

(** [d1] of the three modes as [CreateRecursiveGaussian] computes it for
    [sigma]: [-2 * cos(omega[i])]. *)
Definition designed_d1 (sigma : R) : R * R * R :=
  let '(omega0, omega1, omega2) := Designer.d_omega (Designer.design_of sigma) in
  (- 2 * cos omega0, - 2 * cos omega1, - 2 * cos omega2)%R.

(** The six state vectors of [FastGaussian1D] have [L] lanes. *)
Definition hshape {T : Type} (L : nat) (st : hstate (T:=T)) : Prop :=
  length (prev_1 st) = L /\ length (prev_3 st) = L /\ length (prev_5 st) = L
  /\ length (prev2_1 st) = L /\ length (prev2_3 st) = L
  /\ length (prev2_5 st) = L.

(** * Proofs *)

(** ** Loop rules *)

Section LoopRules.
Context {S : Type}.

(** An invariant [P] that each iteration keeps while a measure [m] decreases
    holds when the loop ends, and the loop does end within [m n] steps. *)
Lemma for_loop_inv (P : Z -> S -> Prop) (m : Z -> nat)
    (cond : Z -> bool) (next : Z -> Z) (body : Z -> S -> outcome S) :
  (forall i s, P i s -> cond i = true ->
     exists s', body i s = Ok s' /\ P (next i) s' /\ (m (next i) < m i)%nat) ->
  forall fuel n s, P n s -> (m n <= fuel)%nat ->
  exists n' s', for_loop fuel cond next body n s = Ok (n', s')
                /\ P n' s' /\ cond n' = false.
Proof.
  intros Hstep fuel.
  induction fuel as [|fuel IH]; intros n s HP Hm; simpl.
  - destruct (cond n) eqn:Hc.
    + destruct (Hstep n s HP Hc) as (s' & _ & _ & Hlt). lia.
    + exists n, s. auto.
  - destruct (cond n) eqn:Hc.
    + destruct (Hstep n s HP Hc) as (s' & Hb & HP' & Hlt).
      rewrite Hb. simpl. apply IH; [assumption | lia].
    + exists n, s. auto.
Qed.

Lemma for_lt_inv (P : Z -> S -> Prop) (bound step : Z)
    (body : Z -> S -> outcome S) :
  0 < step ->
  (forall i s, P i s -> i < bound ->
     exists s', body i s = Ok s' /\ P (i + step) s') ->
  forall n s, P n s ->
  exists n' s', for_lt n bound step body s = Ok (n', s')
                /\ P n' s' /\ bound <= n'.
Proof.
  intros Hstep Hbody n s HP.
  unfold for_lt.
  destruct (for_loop_inv P (fun i => Z.to_nat (bound - i))
              (fun i => i <? bound) (fun i => i + step) body) with
      (fuel := Z.to_nat (bound - n)) (n := n) (s := s)
    as (n' & s' & Hrun & HP' & Hc); auto.
  - intros i s0 HP0 Hc. apply Z.ltb_lt in Hc.
    destruct (Hbody i s0 HP0 Hc) as (s' & Hb & HP').
    exists s'. repeat split; auto. lia.
  - exists n', s'. repeat split; auto. apply Z.ltb_ge in Hc. exact Hc.
Qed.

(** A loop whose condition is false at the start does nothing. *)
Lemma for_loop_done fuel (cond : Z -> bool) next (body : Z -> S -> outcome S) n s :
  cond n = false -> for_loop fuel cond next body n s = Ok (n, s).
Proof. intros Hc. destruct fuel; simpl; rewrite Hc; reflexivity. Qed.

End LoopRules.

(** ** Vectors and memory *)

Section VectorLemmas.
Context {T : Type} {LT : Lane T}.
Import hwy.

Lemma zip_with_length (f : T -> T -> T) (a b : V) :
  length (zip_with f a b) = Nat.min (length a) (length b).
Proof.
  revert b. induction a as [|x a IH]; intros [|y b]; simpl; auto.
Qed.

Lemma zip_with_nth (f : T -> T -> T) (a b : V) (j : nat) (d : T) :
  (j < length a)%nat -> (j < length b)%nat ->
  nth j (zip_with f a b) d = f (nth j a d) (nth j b d).
Proof.
  revert b j. induction a as [|x a IH]; intros [|y b] [|j]; simpl; intros;
    try lia; auto.
  apply IH; lia.
Qed.

Lemma Load_ok (lanes : nat) (mem : list T) (off : Z) :
  0 <= off -> off + Z.of_nat lanes <= Z.of_nat (length mem) ->
  Load lanes mem off = Ok (firstn lanes (skipn (Z.to_nat off) mem)).
Proof.
  intros H0 H1. unfold Load.
  destruct (0 <=? off) eqn:E0; [|apply Z.leb_gt in E0; lia].
  destruct (off + Z.of_nat lanes <=? Z.of_nat (length mem)) eqn:E1;
    [|apply Z.leb_gt in E1; lia].
  reflexivity.
Qed.

Lemma Load_inv (lanes : nat) (mem : list T) (off : Z) (v : V) :
  Load lanes mem off = Ok v ->
  0 <= off /\ off + Z.of_nat lanes <= Z.of_nat (length mem)
  /\ v = firstn lanes (skipn (Z.to_nat off) mem).
Proof.
  unfold Load.
  destruct (0 <=? off) eqn:E0; simpl; [|discriminate].
  destruct (off + Z.of_nat lanes <=? Z.of_nat (length mem)) eqn:E1;
    [|discriminate].
  intros H. inversion H. apply Z.leb_le in E0, E1. auto.
Qed.

Lemma loaded_length (lanes : nat) (mem : list T) (off : Z) :
  0 <= off -> off + Z.of_nat lanes <= Z.of_nat (length mem) ->
  length (firstn lanes (skipn (Z.to_nat off) mem)) = lanes.
Proof.
  intros H0 H1. rewrite length_firstn, length_skipn. lia.
Qed.

Lemma loaded_nth (lanes : nat) (mem : list T) (off : Z) (j : nat) (d : T) :
  0 <= off -> (j < lanes)%nat ->
  nth j (firstn lanes (skipn (Z.to_nat off) mem)) d
  = nth (Z.to_nat off + j) mem d.
Proof.
  intros H0 Hj.
  rewrite nth_firstn.
  destruct (j <? lanes)%nat eqn:E; [|apply Nat.ltb_ge in E; lia].
  apply nth_skipn.
Qed.

Lemma Store_ok (v : V) (mem : list T) (off : Z) :
  0 <= off -> off + Z.of_nat (length v) <= Z.of_nat (length mem) ->
  Store v mem off
  = Ok (firstn (Z.to_nat off) mem ++ v ++ skipn (Z.to_nat off + length v) mem).
Proof.
  intros H0 H1. unfold Store.
  destruct (0 <=? off) eqn:E0; [|apply Z.leb_gt in E0; lia].
  destruct (off + Z.of_nat (length v) <=? Z.of_nat (length mem)) eqn:E1;
    [|apply Z.leb_gt in E1; lia].
  reflexivity.
Qed.

Lemma Store_inv (v : V) (mem mem' : list T) (off : Z) :
  Store v mem off = Ok mem' ->
  0 <= off /\ off + Z.of_nat (length v) <= Z.of_nat (length mem)
  /\ mem' = firstn (Z.to_nat off) mem ++ v
            ++ skipn (Z.to_nat off + length v) mem.
Proof.
  unfold Store.
  destruct (0 <=? off) eqn:E0; simpl; [|discriminate].
  destruct (off + Z.of_nat (length v) <=? Z.of_nat (length mem)) eqn:E1;
    [|discriminate].
  intros H. inversion H. apply Z.leb_le in E0, E1. auto.
Qed.

Lemma stored_length (v : V) (mem : list T) (off : nat) :
  (off + length v <= length mem)%nat ->
  length (firstn off mem ++ v ++ skipn (off + length v) mem) = length mem.
Proof.
  intros H. rewrite !length_app, length_firstn, length_skipn. lia.
Qed.

Lemma stored_nth_in (v : V) (mem : list T) (off j : nat) (d : T) :
  (off + length v <= length mem)%nat -> (j < length v)%nat ->
  nth (off + j) (firstn off mem ++ v ++ skipn (off + length v) mem) d
  = nth j v d.
Proof.
  intros H Hj.
  rewrite app_nth2; rewrite length_firstn; [|lia].
  replace (off + j - Nat.min off (length mem))%nat with j by lia.
  apply app_nth1. exact Hj.
Qed.

Lemma stored_nth_out (v : V) (mem : list T) (off q : nat) (d : T) :
  (off + length v <= length mem)%nat ->
  (q < off \/ off + length v <= q)%nat ->
  nth q (firstn off mem ++ v ++ skipn (off + length v) mem) d = nth q mem d.
Proof.
  intros H [Hq|Hq].
  - rewrite app_nth1; [|rewrite length_firstn; lia].
    rewrite nth_firstn.
    destruct (q <? off)%nat eqn:E; [reflexivity|apply Nat.ltb_ge in E; lia].
  - rewrite app_nth2; rewrite length_firstn; [|lia].
    rewrite app_nth2; [|lia].
    rewrite nth_skipn. f_equal. lia.
Qed.

End VectorLemmas.

(** ** The ring buffer and one block of the vertical pass *)

Section GetLemmas.
Context {T : Type} {LT : Lane T}.
Import hwy.

Lemma Load_getz (lanes : nat) (mem : list T) (off : Z) (v : V) :
  Load lanes mem off = Ok v ->
  length v = lanes /\
  forall j, 0 <= j < Z.of_nat lanes -> getz v j = getz mem (off + j).
Proof.
  intros H. apply Load_inv in H. destruct H as (H0 & H1 & ->).
  split; [apply loaded_length; assumption|].
  intros j Hj. unfold getz.
  rewrite loaded_nth by lia.
  f_equal. lia.
Qed.

Lemma Store_getz (v : V) (mem mem' : list T) (off : Z) :
  Store v mem off = Ok mem' ->
  length mem' = length mem /\
  (forall j, 0 <= j < Z.of_nat (length v) -> getz mem' (off + j) = getz v j) /\
  (forall q, 0 <= q -> q < off \/ off + Z.of_nat (length v) <= q ->
     getz mem' q = getz mem q).
Proof.
  intros H. apply Store_inv in H. destruct H as (H0 & H1 & ->).
  split; [apply stored_length; lia|].
  split.
  - intros j Hj. unfold getz.
    replace (Z.to_nat (off + j)) with (Z.to_nat off + Z.to_nat j)%nat by lia.
    apply stored_nth_in; lia.
  - intros q Hq Hout. unfold getz.
    apply stored_nth_out; lia.
Qed.

Lemma zip_with_getz (f : T -> T -> T) (a b : V) (j : Z) :
  0 <= j < Z.of_nat (length a) -> length b = length a ->
  getz (zip_with f a b) j = f (getz a j) (getz b j).
Proof.
  intros Hj Hl. unfold getz. apply zip_with_nth; lia.
Qed.

Lemma y_next_length (lanes : nat) (a b s y1 y2 : V) :
  length a = lanes -> length b = lanes -> length s = lanes ->
  length y1 = lanes -> length y2 = lanes ->
  length (y_next a b s y1 y2) = lanes.
Proof.
  intros. unfold y_next, MulAdd, NegMulSub, Add, Mul.
  rewrite !zip_with_length. lia.
Qed.

Lemma y_next_getz (lanes : nat) (a b s y1 y2 : V) (j : Z) :
  length a = lanes -> length b = lanes -> length s = lanes ->
  length y1 = lanes -> length y2 = lanes ->
  0 <= j < Z.of_nat lanes ->
  getz (y_next a b s y1 y2) j
  = y_lane (getz a j) (getz b j) (getz s j) (getz y1 j) (getz y2 j).
Proof.
  intros. unfold y_next, MulAdd, NegMulSub, Add, Mul, y_lane.
  repeat (rewrite zip_with_getz; rewrite ?zip_with_length; try lia).
  reflexivity.
Qed.

Lemma Add_length (a b : V) : length (Add a b) = Nat.min (length a) (length b).
Proof. apply zip_with_length. Qed.

End GetLemmas.

Section BlockLemmas.
Context {T : Type} {LT : Lane T}.
Variable target : Target.
Import hwy.


Lemma input_at_ok (kLanes : Z) (input : Input) (idx : Z) :
  input_ok kLanes input -> 0 <= idx -> idx + Z.of_nat (LanesFull target) <= kLanes ->
  exists v, input_at target input idx = Ok v /\ length v = LanesFull target /\
    forall j, 0 <= j < Z.of_nat (LanesFull target) -> getz v j = input_lane input (idx + j).
Proof.
  intros Hin H0 H1.
  destruct input as [[m b]|[m1 b1] [m2 b2]]; simpl in *; unfold pos_ok in *; simpl in *.
  - destruct Hin as [Hb Hm].
    rewrite Load_ok by lia.
    eexists; split; [reflexivity|].
    destruct (Load_getz (LanesFull target) m (b + idx) _ (Load_ok (LanesFull target) m (b + idx) ltac:(lia) ltac:(lia)))
      as [Hl Hg].
    split; [exact Hl|].
    intros j Hj. rewrite Hg by lia. f_equal. lia.
  - destruct Hin as [[Hb1 Hm1] [Hb2 Hm2]].
    rewrite !Load_ok by lia. simpl.
    eexists; split; [reflexivity|].
    destruct (Load_getz (LanesFull target) m1 (b1 + idx) _ (Load_ok (LanesFull target) m1 (b1 + idx) ltac:(lia) ltac:(lia)))
      as [Hl1 Hg1].
    destruct (Load_getz (LanesFull target) m2 (b2 + idx) _ (Load_ok (LanesFull target) m2 (b2 + idx) ltac:(lia) ltac:(lia)))
      as [Hl2 Hg2].
    split; [rewrite Add_length; lia|].
    intros j Hj. unfold Add. rewrite zip_with_getz by lia.
    rewrite Hg1, Hg2 by lia. f_equal; f_equal; lia.
Qed.

Lemma set_row_shape (pl : list (list T)) (y : nat) (r r' : list T) :
  nth_error pl y = Some r -> length r' = length r ->
  map (@length T) (set_row pl y r') = map (@length T) pl.
Proof.
  revert y. induction pl as [|r0 pl IH]; intros [|y]; simpl; intros H Hl;
    try discriminate.
  - inversion H; subst. rewrite Hl. reflexivity.
  - f_equal. apply IH; assumption.
Qed.

Lemma get_row_ok (pl : list (list T)) (y : Z) (r : list T) :
  0 <= y -> nth_error pl (Z.to_nat y) = Some r -> get_row pl y = Ok r.
Proof.
  intros Hy H. unfold get_row.
  destruct (0 <=? y) eqn:E; [|apply Z.leb_gt in E; lia].
  rewrite H. reflexivity.
Qed.

Lemma output_at_ok (kLanes : Z) (output : Output) (v : V (T:=T))
    (out_pos : option (Z * Z)) (idx : Z) (pl : list (list T)) :
  output_ok kLanes output out_pos pl ->
  0 <= idx -> idx + Z.of_nat (length v) <= kLanes ->
  exists pl', output_at output v out_pos idx pl = Ok pl'
              /\ map (@length T) pl' = map (@length T) pl.
Proof.
  intros Hout H0 H1.
  destruct output; simpl in *.
  - exists pl. auto.
  - destruct out_pos as [[y x]|]; [|contradiction].
    destruct Hout as (Hy & Hx & r & Hr & Hlen).
    rewrite (get_row_ok pl y r Hy Hr). simpl.
    rewrite Store_ok by lia. simpl.
    eexists; split; [reflexivity|].
    apply set_row_shape with (r := r); [assumption|].
    apply stored_length. lia.
Qed.

End BlockLemmas.

Lemma land_mask (n : Z) : Z.land n kRingBufferMask = n mod 4.
Proof.
  change kRingBufferMask with (Z.ones 2).
  rewrite Z.land_ones by lia. reflexivity.
Qed.

Lemma ring_slots (n : Z) :
  let n_0 := Z.land (n - 0) kRingBufferMask in
  let n_1 := Z.land (n - 1) kRingBufferMask in
  let n_2 := Z.land (n - 2) kRingBufferMask in
  0 <= n_0 < 4 /\ 0 <= n_1 < 4 /\ 0 <= n_2 < 4 /\ n_0 <> n_1 /\ n_0 <> n_2.
Proof.
  cbv zeta. rewrite !land_mask.
  pose proof (Z.mod_pos_bound (n - 0) 4 ltac:(lia)).
  pose proof (Z.mod_pos_bound (n - 1) 4 ltac:(lia)).
  pose proof (Z.mod_pos_bound (n - 2) 4 ltac:(lia)).
  pose proof (Z.div_mod (n - 0) 4 ltac:(lia)).
  pose proof (Z.div_mod (n - 1) 4 ltac:(lia)).
  pose proof (Z.div_mod (n - 2) 4 ltac:(lia)).
  repeat split; lia.
Qed.

(** Offsets in the ring buffer decompose uniquely. *)
Lemma ring_pos_inj (kLanes a b i j : Z) :
  0 <= i < kLanes -> 0 <= j < kLanes ->
  kLanes * a + i = kLanes * b + j -> a = b /\ i = j.
Proof.
  intros Hi Hj H.
  assert (a = b).
  { destruct (Z.lt_trichotomy a b) as [Hlt|[Heq|Hgt]]; [|exact Heq|].
    - assert (kLanes * 1 <= kLanes * (b - a)) by (apply Z.mul_le_mono_nonneg_l; lia).
      lia.
    - assert (kLanes * 1 <= kLanes * (a - b)) by (apply Z.mul_le_mono_nonneg_l; lia).
      lia. }
  subst. split; [reflexivity | lia].
Qed.

Section BlockBody.
Context {T : Type} {LT : Lane T}.
Variable target : Target.
Import hwy.

(** One iteration of the loop of [VerticalBlock]. *)
Lemma block_body_spec (c : vcoef) (kLanes : Z) (input : Input) (n : Z)
    (output : Output) (out_pos : option (Z * Z)) (idx : Z) (st : vstate) :
  let L := Z.of_nat (LanesFull target) in
  let n_0 := Z.land (n - 0) kRingBufferMask in
  let n_1 := Z.land (n - 1) kRingBufferMask in
  let n_2 := Z.land (n - 2) kRingBufferMask in
  0 <= idx -> idx + L <= kLanes ->
  3 * kLanes * kRingBufferLen <= Z.of_nat (length (ring_buffer st)) ->
  vcoef_ok (LanesFull target) c ->
  input_ok kLanes input ->
  output_ok kLanes output out_pos (plane st) ->
  exists st',
    block_body target c kLanes input n output out_pos idx st = Ok st'
    /\ length (ring_buffer st') = length (ring_buffer st)
    /\ map (@length T) (plane st') = map (@length T) (plane st)
    /\ (forall k j, 0 <= k < 3 -> 0 <= j < L ->
          ring_at (ring_buffer st') kLanes k n_0 (idx + j)
          = y_lane (getz (n2_of c k) j) (getz (d1_of c k) j)
                   (input_lane input (idx + j))
                   (ring_at (ring_buffer st) kLanes k n_1 (idx + j))
                   (ring_at (ring_buffer st) kLanes k n_2 (idx + j)))
    /\ (forall q, 0 <= q ->
          (forall k, 0 <= k < 3 ->
             q < k * kLanes * kRingBufferLen + kLanes * n_0 + idx
             \/ k * kLanes * kRingBufferLen + kLanes * n_0 + idx + L <= q) ->
          getz (ring_buffer st') q = getz (ring_buffer st) q).
Proof.
  intros L n_0 n_1 n_2 Hidx Hfit Hrb Hc Hin Hout.
  destruct (ring_slots n) as (R0 & R1 & R2 & _).
  fold n_0 n_1 n_2 in R0, R1, R2.
  destruct Hc as (Ld1 & Ld3 & Ld5 & Ln1 & Ln3 & Ln5).
  unfold block_body. cbv zeta. fold n_0 n_1 n_2.
  change kRingBufferLen with 4 in *.
  destruct (input_at_ok target kLanes input idx Hin Hidx Hfit)
    as (sum & Hsum & Lsum & Gsum).
  rewrite Hsum. cbn [bind].
  set (rb := ring_buffer st) in *.
  assert (Hload : forall k s, 0 <= k < 3 -> 0 <= s < 4 ->
            exists v, Load (LanesFull target) rb (k * kLanes * 4 + kLanes * s + idx) = Ok v
              /\ length v = LanesFull target
              /\ forall j, 0 <= j < L -> getz v j = ring_at rb kLanes k s (idx + j)).
  { intros k s Hk Hs.
    assert (E : Load (LanesFull target) rb (k * kLanes * 4 + kLanes * s + idx)
                = Ok (firstn (LanesFull target)
                        (skipn (Z.to_nat (k * kLanes * 4 + kLanes * s + idx)) rb))).
    { apply Load_ok; fold L; nia. }
    eexists; split; [exact E|].
    destruct (Load_getz _ _ _ _ E) as [Hl Hg].
    split; [exact Hl|].
    intros j Hj. rewrite Hg by exact Hj.
    unfold ring_at. change kRingBufferLen with 4. f_equal. lia. }
  destruct (Hload 0 n_1 ltac:(lia) R1) as (y11 & E11 & L11 & G11).
  destruct (Hload 1 n_1 ltac:(lia) R1) as (y13 & E13 & L13 & G13).
  destruct (Hload 2 n_1 ltac:(lia) R1) as (y15 & E15 & L15 & G15).
  destruct (Hload 0 n_2 ltac:(lia) R2) as (y21 & E21 & L21 & G21).
  destruct (Hload 1 n_2 ltac:(lia) R2) as (y23 & E23 & L23 & G23).
  destruct (Hload 2 n_2 ltac:(lia) R2) as (y25 & E25 & L25 & G25).
  rewrite E11, E13, E15, E21, E23, E25. cbn [bind].
  set (y1 := y_next (n2_1 c) (d1_1 c) sum y11 y21).
  set (y3 := y_next (n2_3 c) (d1_3 c) sum y13 y23).
  set (y5 := y_next (n2_5 c) (d1_5 c) sum y15 y25).
  assert (Ly1 : length y1 = LanesFull target) by (apply y_next_length; assumption).
  assert (Ly3 : length y3 = LanesFull target) by (apply y_next_length; assumption).
  assert (Ly5 : length y5 = LanesFull target) by (apply y_next_length; assumption).
  destruct (Store y1 rb (0 * kLanes * 4 + kLanes * n_0 + idx)) as [rb1| | | |] eqn:S1;
    try (rewrite Store_ok in S1 by (rewrite ?Ly1; fold L; nia); discriminate).
  destruct (Store_getz _ _ _ _ S1) as (Lr1 & In1 & Out1).
  cbn [bind].
  destruct (Store y3 rb1 (1 * kLanes * 4 + kLanes * n_0 + idx)) as [rb2| | | |] eqn:S2;
    try (rewrite Store_ok in S2 by (rewrite ?Ly3, ?Lr1; fold L; nia); discriminate).
  destruct (Store_getz _ _ _ _ S2) as (Lr2 & In2 & Out2).
  cbn [bind].
  destruct (Store y5 rb2 (2 * kLanes * 4 + kLanes * n_0 + idx)) as [rb3| | | |] eqn:S3;
    try (rewrite Store_ok in S3 by (rewrite ?Ly5, ?Lr2, ?Lr1; fold L; nia); discriminate).
  destruct (Store_getz _ _ _ _ S3) as (Lr3 & In3 & Out3).
  cbn [bind].
  destruct (output_at_ok kLanes output (Add y1 (Add y3 y5)) out_pos idx (plane st) Hout Hidx)
    as (pl' & Hpl & Shape).
  { rewrite !Add_length, Ly1, Ly3, Ly5. fold L. lia. }
  rewrite Hpl. cbn [bind].
  eexists. split; [reflexivity|]. simpl.
  split; [congruence|]. split; [exact Shape|].
  rewrite Ly1 in In1, Out1. rewrite Ly3 in In2, Out2. rewrite Ly5 in In3, Out3.
  fold L in In1, Out1, In2, Out2, In3, Out3.
  split.
  - intros k j Hk Hj.
    assert (Hk' : k = 0 \/ k = 1 \/ k = 2) by lia.
    unfold ring_at at 1. change kRingBufferLen with 4.
    destruct Hk' as [->|[->| ->]].
    + rewrite Out3 by nia. rewrite Out2 by nia.
      replace (0 * kLanes * 4 + kLanes * n_0 + (idx + j))
        with (0 * kLanes * 4 + kLanes * n_0 + idx + j) by lia.
      rewrite In1 by lia. unfold y1.
      rewrite (y_next_getz (LanesFull target)) by (assumption || exact Hj).
      rewrite Gsum, G11, G21 by exact Hj. reflexivity.
    + rewrite Out3 by nia.
      replace (1 * kLanes * 4 + kLanes * n_0 + (idx + j))
        with (1 * kLanes * 4 + kLanes * n_0 + idx + j) by lia.
      rewrite In2 by lia. unfold y3.
      rewrite (y_next_getz (LanesFull target)) by (assumption || exact Hj).
      rewrite Gsum, G13, G23 by exact Hj. reflexivity.
    + replace (2 * kLanes * 4 + kLanes * n_0 + (idx + j))
        with (2 * kLanes * 4 + kLanes * n_0 + idx + j) by lia.
      rewrite In3 by lia. unfold y5.
      rewrite (y_next_getz (LanesFull target)) by (assumption || exact Hj).
      rewrite Gsum, G15, G25 by exact Hj. reflexivity.
  - intros q Hq Hfar.
    rewrite Out3 by (destruct (Hfar 2 ltac:(lia)); lia).
    rewrite Out2 by (destruct (Hfar 1 ltac:(lia)); lia).
    rewrite Out1 by (destruct (Hfar 0 ltac:(lia)); lia).
    reflexivity.
Qed.

End BlockBody.

Lemma ring_far (kLanes a b i idx : Z) :
  0 <= i < kLanes -> 0 <= idx <= kLanes -> a <> b ->
  kLanes * a + i < kLanes * b \/ kLanes * b + idx <= kLanes * a + i.
Proof.
  intros Hi Hidx Hab.
  destruct (Z.lt_trichotomy a b) as [Hlt|[Heq|Hgt]]; [|contradiction|].
  - left.
    assert (kLanes * (a + 1) <= kLanes * b) by (apply Z.mul_le_mono_nonneg_l; lia).
    lia.
  - right.
    assert (kLanes * (b + 1) <= kLanes * a) by (apply Z.mul_le_mono_nonneg_l; lia).
    lia.
Qed.

Section BlockLoop.
Context {T : Type} {LT : Lane T}.
Variable target : Target.
Import hwy.

Lemma output_ok_shape (kLanes : Z) (output : Output) (out_pos : option (Z * Z))
    (pl pl' : list (list T)) :
  map (@length T) pl' = map (@length T) pl ->
  output_ok kLanes output out_pos pl -> output_ok kLanes output out_pos pl'.
Proof.
  intros Hs. destruct output; simpl; auto.
  destruct out_pos as [[y x]|]; auto.
  intros (Hy & Hx & r & Hr & Hl). repeat split; auto.
  assert (E : nth_error (map (@length T) pl') (Z.to_nat y) = Some (length r)).
  { rewrite Hs. rewrite nth_error_map, Hr. reflexivity. }
  rewrite nth_error_map in E.
  destruct (nth_error pl' (Z.to_nat y)) as [r'|]; [|discriminate].
  exists r'. split; [reflexivity|]. simpl in E. inversion E. lia.
Qed.

(** [VerticalBlock] runs to its end and, in every lane of the block, stores
    at slot [n & 3] the value [y_lane] of the slots [(n-1) & 3] and
    [(n-2) & 3]; the other slots keep their values. *)
Lemma VerticalBlock_spec (kVectors : Z) (c : vcoef) (input : Input) (n : Z)
    (output : Output) (out_pos : option (Z * Z)) (st : vstate) :
  let L := Z.of_nat (LanesFull target) in
  let kLanes := kVectors * L in
  let n_0 := Z.land (n - 0) kRingBufferMask in
  let n_1 := Z.land (n - 1) kRingBufferMask in
  let n_2 := Z.land (n - 2) kRingBufferMask in
  1 <= L -> 0 <= kVectors ->
  3 * kLanes * kRingBufferLen <= Z.of_nat (length (ring_buffer st)) ->
  vcoef_ok (LanesFull target) c ->
  input_ok kLanes input ->
  output_ok kLanes output out_pos (plane st) ->
  exists st',
    VerticalBlock target kVectors c input n output out_pos st = Ok st'
    /\ length (ring_buffer st') = length (ring_buffer st)
    /\ map (@length T) (plane st') = map (@length T) (plane st)
    /\ (forall k i, 0 <= k < 3 -> 0 <= i < kLanes ->
          ring_at (ring_buffer st') kLanes k n_0 i
          = y_lane (getz (n2_of c k) (i mod L)) (getz (d1_of c k) (i mod L))
                   (input_lane input i)
                   (ring_at (ring_buffer st) kLanes k n_1 i)
                   (ring_at (ring_buffer st) kLanes k n_2 i))
    /\ (forall k s i, 0 <= k < 3 -> 0 <= s < 4 -> s <> n_0 -> 0 <= i < kLanes ->
          ring_at (ring_buffer st') kLanes k s i
          = ring_at (ring_buffer st) kLanes k s i).
Proof.
  intros L kLanes n_0 n_1 n_2 HL HkV Hrb Hc Hin Hout.
  destruct (ring_slots n) as (R0 & R1 & R2 & N01 & N02).
  fold n_0 n_1 n_2 in R0, R1, R2, N01, N02.
  set (P := fun (idx : Z) (s : vstate) =>
    (exists j, idx = j * L /\ 0 <= j <= kVectors)
    /\ length (ring_buffer s) = length (ring_buffer st)
    /\ map (@length T) (plane s) = map (@length T) (plane st)
    /\ (forall k i, 0 <= k < 3 -> 0 <= i < idx ->
          ring_at (ring_buffer s) kLanes k n_0 i
          = y_lane (getz (n2_of c k) (i mod L)) (getz (d1_of c k) (i mod L))
                   (input_lane input i)
                   (ring_at (ring_buffer st) kLanes k n_1 i)
                   (ring_at (ring_buffer st) kLanes k n_2 i))
    /\ (forall q, 0 <= q ->
          (forall k, 0 <= k < 3 ->
             q < kLanes * (4 * k + n_0) \/ kLanes * (4 * k + n_0) + idx <= q) ->
          getz (ring_buffer s) q = getz (ring_buffer st) q)).
  assert (Hpos : forall k s i, k * kLanes * kRingBufferLen + kLanes * s + i
                               = kLanes * (4 * k + s) + i).
  { intros. change kRingBufferLen with 4. ring. }
  destruct (for_lt_inv P kLanes L
              (block_body target c kLanes input n output out_pos)) with
      (n := 0) (s := st) as (idx' & st' & Hrun & HP & Hend).
  - lia.
  - (* one iteration keeps the invariant *)
    intros idx s1 (Hj & Hlen & Hshape & Ha & Hb) Hlt.
    destruct Hj as (j & -> & Hj).
    assert (Hj' : j < kVectors) by (unfold kLanes in Hlt; nia).
    assert (Hfit : j * L + L <= kLanes) by (unfold kLanes; nia).
    assert (Hidx0 : 0 <= j * L) by nia.
    destruct (block_body_spec target c kLanes input n output out_pos (j * L) s1)
      as (s2 & Hs2 & Hlen2 & Hshape2 & Hnew & Hfar); auto.
    { rewrite Hlen. exact Hrb. }
    { apply output_ok_shape with (pl := plane st); auto. }
    fold L n_0 n_1 n_2 in Hnew, Hfar.
    exists s2. split; [exact Hs2|].
    split; [exists (j + 1); split; [ring | lia]|].
    split; [congruence|]. split; [congruence|].
    split.
    + intros k i Hk Hi.
      destruct (Z.lt_ge_cases i (j * L)) as [Hold|Hcur].
      * (* a lane of an earlier iteration *)
        rewrite <- (Ha k i Hk ltac:(lia)).
        unfold ring_at. rewrite Hpos. apply Hfar; [nia|].
        intros k' Hk'. rewrite Hpos.
        destruct (Z.eq_dec k k') as [->|Hne]; [left; lia|].
        destruct (ring_far kLanes (4 * k + n_0) (4 * k' + n_0) i (j * L + L))
          as [Hl|Hr]; try lia.
      * (* a lane of this iteration *)
        replace i with (j * L + (i - j * L)) at 1 3 by ring.
        rewrite (Hnew k (i - j * L) Hk ltac:(lia)).
        replace (j * L + (i - j * L)) with i by ring.
        assert (Em : i mod L = i - j * L).
        { symmetry. apply Z.mod_unique with (q := j); lia. }
        rewrite Em.
        assert (Hkeep : forall s, 0 <= s < 4 -> s <> n_0 ->
                  ring_at (ring_buffer s1) kLanes k s i
                  = ring_at (ring_buffer st) kLanes k s i).
        { intros s Hs Hne. unfold ring_at. rewrite Hpos. apply Hb; [nia|].
          intros k' Hk'.
          destruct (ring_far kLanes (4 * k + s) (4 * k' + n_0) i (j * L))
            as [Hl|Hr]; try lia. }
        rewrite (Hkeep n_1 R1 ltac:(congruence)), (Hkeep n_2 R2 ltac:(congruence)).
        reflexivity.
    + intros q Hq Hout2.
      rewrite <- (Hb q Hq).
      * apply Hfar; [exact Hq|].
        intros k Hk. rewrite Hpos. destruct (Hout2 k Hk); lia.
      * intros k Hk. destruct (Hout2 k Hk); lia.
  - (* the invariant holds at the start *)
    unfold P. split; [exists 0; lia|].
    repeat split; auto. intros; lia.
  - (* the claim follows at the end *)
    destruct HP as ((j & -> & Hj) & Hlen & Hshape & Ha & Hb).
    assert (j = kVectors) by (unfold kLanes in Hend; nia). subst j.
    unfold VerticalBlock. fold L kLanes. rewrite Hrun. cbn [bind].
    exists st'. split; [reflexivity|].
    split; [exact Hlen|]. split; [exact Hshape|].
    split; [exact Ha|].
    intros k s i Hk Hs Hne Hi.
    unfold ring_at. rewrite Hpos. apply Hb; [nia|].
    intros k' Hk'.
    destruct (ring_far kLanes (4 * k + s) (4 * k' + n_0) i (kVectors * L))
      as [Hl|Hr]; fold kLanes; lia.
Qed.

End BlockLoop.

(** ** C1: the update of the vertical pass *)

(** On [R], a lane of [y_next] is [n2 * sum - d1 * y_n1 - y_n2]. *)
Lemma y_lane_R (n2_k d1_k sum y_n1 y_n2 : R) :
  y_lane n2_k d1_k sum y_n1 y_n2 = (n2_k * sum - d1_k * y_n1 - y_n2)%R.
Proof. unfold y_lane. simpl. ring. Qed.

(** C1, amended: in exact real arithmetic, for every mode (k = 0, 1, 2 for
    the modes 1, 3, 5), every row step [n] and every lane [i] of the block,
    [VerticalBlock] stores [n2 * sum - d1 * y[n-1] - y[n-2]] at slot [n & 3],
    where [sum] is lane [i] of the input and [y[n-1]], [y[n-2]] are the values
    at the slots [(n-1) & 3] and [(n-2) & 3]: the last term is subtracted. *)
Theorem VerticalBlock_update_direct (target : Target) (kVectors : Z)
    (c : vcoef (T:=R)) (input : Input (T:=R)) (n : Z) (output : Output)
    (out_pos : option (Z * Z)) (st : vstate (T:=R)) :
  1 <= Z.of_nat (LanesFull target) -> 0 <= kVectors ->
  3 * (kVectors * Z.of_nat (LanesFull target)) * kRingBufferLen
    <= Z.of_nat (length (ring_buffer st)) ->
  vcoef_ok (LanesFull target) c ->
  input_ok (kVectors * Z.of_nat (LanesFull target)) input ->
  output_ok (kVectors * Z.of_nat (LanesFull target)) output out_pos (plane st) ->
  exists st',
    VerticalBlock target kVectors c input n output out_pos st = Ok st' /\
    forall k i, 0 <= k < 3 -> 0 <= i < kVectors * Z.of_nat (LanesFull target) ->
      let kLanes := kVectors * Z.of_nat (LanesFull target) in
      let lane := i mod Z.of_nat (LanesFull target) in
      ring_at (ring_buffer st') kLanes k (Z.land (n - 0) kRingBufferMask) i
      = (getz (n2_of c k) lane * input_lane input i
         - getz (d1_of c k) lane
           * ring_at (ring_buffer st) kLanes k (Z.land (n - 1) kRingBufferMask) i
         - ring_at (ring_buffer st) kLanes k (Z.land (n - 2) kRingBufferMask) i)%R.
Proof.
  intros HL HkV Hrb Hc Hin Hout.
  destruct (VerticalBlock_spec target kVectors c input n output out_pos st
              HL HkV Hrb Hc Hin Hout) as (st' & Hrun & _ & _ & Hnew & _).
  exists st'. split; [exact Hrun|].
  intros k i Hk Hi. cbv zeta.
  rewrite (Hnew k i Hk Hi). apply y_lane_R.
Qed.

Lemma VerticalBlock_update_direct_witness :
  exists st',
    VerticalBlock HWY_SCALAR 1 c1_coef c1_input 0 OutputNone None
                  (mkV c1_ring []) = Ok st' /\
    forall k i, 0 <= k < 3 -> 0 <= i < 1 * Z.of_nat (LanesFull HWY_SCALAR) ->
      let kLanes := 1 * Z.of_nat (LanesFull HWY_SCALAR) in
      let lane := i mod Z.of_nat (LanesFull HWY_SCALAR) in
      ring_at (ring_buffer st') kLanes k (Z.land (0 - 0) kRingBufferMask) i
      = (getz (n2_of c1_coef k) lane * input_lane c1_input i
         - getz (d1_of c1_coef k) lane
           * ring_at c1_ring kLanes k (Z.land (0 - 1) kRingBufferMask) i
         - ring_at c1_ring kLanes k (Z.land (0 - 2) kRingBufferMask) i)%R.
Proof.
  apply (VerticalBlock_update_direct HWY_SCALAR 1 c1_coef c1_input 0
           OutputNone None (mkV c1_ring [])).
  - simpl. lia.
  - lia.
  - vm_compute. discriminate.
  - repeat split.
  - simpl. unfold pos_ok. simpl. lia.
  - exact I.
Defined.

(** C1 as the specification words it, with [+ y[n-2]], fails: with n2 = 2,
    d1 = 3, sum = 5, y[n-1] = 7 and y[n-2] = 11 the block stores
    2 * 5 - 3 * 7 - 11 = -22, and the specification's formula gives 0. *)
Lemma VerticalBlock_update_spec_counterexample :
  ~ (forall (target : Target) (kVectors : Z) (c : vcoef (T:=R))
       (input : Input (T:=R)) (n : Z) (output : Output)
       (out_pos : option (Z * Z)) (st st' : vstate (T:=R)),
       VerticalBlock target kVectors c input n output out_pos st = Ok st' ->
       forall k i, 0 <= k < 3 -> 0 <= i < kVectors * Z.of_nat (LanesFull target) ->
         let kLanes := kVectors * Z.of_nat (LanesFull target) in
         let lane := i mod Z.of_nat (LanesFull target) in
         ring_at (ring_buffer st') kLanes k (Z.land (n - 0) kRingBufferMask) i
         = spec_vertical_update
             (getz (n2_of c k) lane) (getz (d1_of c k) lane)
             (input_lane input i)
             (ring_at (ring_buffer st) kLanes k (Z.land (n - 1) kRingBufferMask) i)
             (ring_at (ring_buffer st) kLanes k (Z.land (n - 2) kRingBufferMask) i)).
Proof.
  intros H.
  specialize (H HWY_SCALAR 1 c1_coef c1_input 0 OutputNone None
                (mkV c1_ring [])
                (mkV [-22; 0; 11; 7; 10; 0; 0; 0; 10; 0; 0; 0]%R [])).
  assert (Hrun : VerticalBlock HWY_SCALAR 1 c1_coef c1_input 0 OutputNone None
                   (mkV c1_ring [])
                 = Ok (mkV [-22; 0; 11; 7; 10; 0; 0; 0; 10; 0; 0; 0]%R [])).
  { cbv - [IZR Rplus Rmult Ropp Rminus].
    repeat f_equal; lra. }
  specialize (H Hrun 0 0 ltac:(lia) ltac:(simpl; lia)).
  cbv - [IZR Rplus Rmult Ropp Rminus] in H. lra.
Qed.

(** ** C2: the unrolled step of the horizontal pass *)

Lemma LanesCapped_simd (l : nat) : (4 <= l)%nat -> LanesCapped (HWY_SIMD l) = 4%nat.
Proof.
  intros H. unfold LanesCapped, JXL_GAUSS_MAX_LANES, LanesFull.
  apply Nat.min_l. exact H.
Qed.

Lemma unrolled_out_direct4 (l : nat) (n d : R) :
  unrolled_is_direct (HWY_SIMD l)
    (mul_in_lanes n d) (mul_prev_lanes d) (mul_prev2_lanes d) n d.
Proof.
  intros i0 i1 i2 i3 p pp.
  assert (E : unrolled_out (HWY_SIMD l) (mul_in_lanes n d) (mul_prev_lanes d)
                (mul_prev2_lanes d) [i0; i1; i2; i3] (hwy.SetV 4 p) (hwy.SetV 4 pp)
              = direct4 n d i0 i1 i2 i3 p pp).
  { unfold unrolled_out, direct4, direct_step, mul_in_lanes, mul_prev_lanes,
      mul_prev2_lanes, two, three.
    cbn. repeat (f_equal; try ring). }
  cbv zeta. rewrite E. repeat split.
Qed.

(** C2: on a SIMD target, the coefficient vectors that [FastGaussian1D]
    loads from the tables written by [CreateRecursiveGaussian] make the
    unrolled step produce, for each mode and in exact real arithmetic, the
    four outputs of four consecutive applications of
    [o_j = n2 * i_j - d1 * o_{j-1} - o_{j-2}] to the same [prev], [prev2]
    and inputs, and carry the last two outputs to the next step. *)
Theorem unrolled_step_is_direct (l : nat) (n2_0 n2_1 n2_2 d1_0 d1_1 d1_2 : R)
    (radius_ : Z) :
  (4 <= l)%nat ->
  exists c,
    load_coef (HWY_SIMD l)
      (fill_tables (n2_0, n2_1, n2_2) (d1_0, d1_1, d1_2) radius_) = Ok c
    /\ unrolled_is_direct (HWY_SIMD l)
         (mul_in_1 c) (mul_prev_1 c) (mul_prev2_1 c) n2_0 d1_0
    /\ unrolled_is_direct (HWY_SIMD l)
         (mul_in_3 c) (mul_prev_3 c) (mul_prev2_3 c) n2_1 d1_1
    /\ unrolled_is_direct (HWY_SIMD l)
         (mul_in_5 c) (mul_prev_5 c) (mul_prev2_5 c) n2_2 d1_2.
Proof.
  intros Hl.
  eexists. split.
  - unfold load_coef. rewrite (LanesCapped_simd l Hl). reflexivity.
  - cbn [mul_in_1 mul_in_3 mul_in_5 mul_prev_1 mul_prev_3 mul_prev_5
           mul_prev2_1 mul_prev2_3 mul_prev2_5].
    repeat split; apply unrolled_out_direct4.
Qed.

Lemma unrolled_step_is_direct_witness :
  exists c,
    load_coef (HWY_SIMD 4) (fill_tables (1, 2, 3) (4, 5, 6) 2)%R = Ok c
    /\ unrolled_is_direct (HWY_SIMD 4)
         (mul_in_1 c) (mul_prev_1 c) (mul_prev2_1 c) 1 4
    /\ unrolled_is_direct (HWY_SIMD 4)
         (mul_in_3 c) (mul_prev_3 c) (mul_prev2_3 c) 2 5
    /\ unrolled_is_direct (HWY_SIMD 4)
         (mul_in_5 c) (mul_prev_5 c) (mul_prev2_5 c) 3 6.
Proof.
  apply (unrolled_step_is_direct 4 1 2 3 4 5 6 2)%R. lia.
Defined.

(** ** C7: the strips of the vertical pass *)

Section Strips.
Context {S : Type}.

Lemma run_strips_app (strip : Z -> Z -> S -> outcome S) (a b : list (Z * Z)) (s : S) :
  run_strips strip (a ++ b) s = (s' <- run_strips strip a s ;; run_strips strip b s').
Proof.
  revert s. induction a as [|[k x] a IH]; intros s; simpl; [reflexivity|].
  destruct (strip k x s); simpl; auto.
Qed.

(** A loop over [x] calls its strip routine on the values of [x] that the
    same loop records, whatever the routine is. *)
Lemma for_loop_calls (strip : Z -> Z -> S -> outcome S) (k : Z)
    (cond : Z -> bool) (next : Z -> Z) :
  forall fuel x calls x' calls',
    for_loop fuel cond next (fun x calls => Ok (calls ++ [(k, x)])) x calls
    = Ok (x', calls') ->
    exists new, calls' = calls ++ new /\
      forall s, for_loop fuel cond next (strip k) x s
                = (s' <- run_strips strip new s ;; Ok (x', s')).
Proof.
  induction fuel as [|fuel IH]; intros x calls x' calls'; simpl.
  - destruct (cond x); [discriminate|].
    intros H. inversion H; subst. exists []. rewrite app_nil_r. auto.
  - destruct (cond x).
    + intros H. apply IH in H. destruct H as (new & -> & Hrun).
      exists ((k, x) :: new). rewrite <- app_assoc. split; [reflexivity|].
      intros s. simpl. destruct (strip k x s); simpl; auto.
    + intros H. inversion H; subst. exists []. rewrite app_nil_r. auto.
Qed.

End Strips.

(** [FastGaussianVertical] runs [VerticalStrip] on the recorded calls. *)
Lemma strip_loops_schedule {S : Type} (t : Target) (xsize : Z)
    (strip : Z -> Z -> S -> outcome S) (calls : list (Z * Z)) (s : S) :
  strip_schedule t xsize = Ok calls ->
  strip_loops t xsize strip s = run_strips strip calls s.
Proof.
  unfold strip_schedule, strip_loops. cbv zeta.
  set (unroll := Z.max (64 / sizeof_float / Z.of_nat (LanesFull t)) 4).
  set (fp := size_t (unroll * Z.of_nat (LanesFull t))).
  destruct ((unroll =? 4) || (unroll =? 8) || (unroll =? 16)); [|discriminate].
  destruct (for_loop (Z.to_nat xsize) (fun x => size_t (x + fp) <=? xsize)
              (fun x => size_t (x + fp))
              (fun x calls => Ok (calls ++ [(unroll, x)])) 0 [])
    as [[x1 calls1]| | | |] eqn:E1; try discriminate.
  cbn [bind].
  destruct (for_loop (Z.to_nat xsize) (fun x => x <? xsize)
              (fun x => size_t (x + Z.of_nat (LanesFull t)))
              (fun x calls => Ok (calls ++ [(1, x)])) x1 calls1)
    as [[x2 calls2]| | | |] eqn:E2; try discriminate.
  cbn [bind]. intros H. inversion H; subst calls2. clear H.
  destruct (for_loop_calls strip unroll _ _ _ _ _ _ _ E1) as (new1 & -> & R1).
  destruct (for_loop_calls strip 1 _ _ _ _ _ _ _ E2) as (new2 & -> & R2).
  rewrite R1. simpl app. rewrite run_strips_app.
  destruct (run_strips strip new1 s) as [s1| | | |]; cbn [bind]; auto.
  rewrite R2.
  destruct (run_strips strip new2 s1); reflexivity.
Qed.

Lemma size_t_small (z : Z) : 0 <= z < 2 ^ 64 -> size_t z = z.
Proof. intros H. unfold size_t. apply Z.mod_small. exact H. Qed.

Lemma unroll_cases (t : Target) :
  target_ok t ->
  let L := Z.of_nat (LanesFull t) in
  ((unroll_of t = 16 /\ L = 1) \/ (unroll_of t = 4 /\ 4 <= L < 2 ^ 32))
  /\ fast_pace_of t = unroll_of t * L.
Proof.
  intros Hok. cbv zeta. unfold fast_pace_of, unroll_of, sizeof_float.
  destruct t as [|l]; simpl in Hok |- *.
  - split; [left; split; reflexivity | reflexivity].
  - destruct Hok as (H4 & _ & Hl).
    change (64 / 4) with 16.
    assert (16 / Z.of_nat l <= 4).
    { apply Z.div_le_upper_bound; lia. }
    assert (E : Z.max (16 / Z.of_nat l) 4 = 4) by lia.
    rewrite E. split; [right; lia|].
    apply size_t_small. lia.
Qed.

Lemma count_covers_app (t : Target) (col : Z) (calls : list (Z * Z)) (k x : Z) :
  length (filter (covers t col) (calls ++ [(k, x)]))
  = (length (filter (covers t col) calls)
     + (if ((x <=? col) && (col <? x + k * Z.of_nat (LanesFull t)))%Z
        then 1 else 0))%nat.
Proof.
  rewrite filter_app, length_app. simpl.
  destruct ((x <=? col) && (col <? x + k * Z.of_nat (LanesFull t))); reflexivity.
Qed.

(** The calls of [VerticalStrip]: strips of [unroll] vectors at the
    multiples of [fast_pace] while a whole one fits, then strips of one
    vector at multiples of the vector width; a column below [x] lies in
    exactly one strip once the loops have reached [x]. *)
Lemma strip_schedule_inv (t : Target) (xsize : Z) :
  target_ok t -> 0 <= xsize < 2 ^ 62 ->
  exists full singles,
    strip_schedule t xsize = Ok (full ++ singles)
    /\ (unroll_of t = 4 \/ unroll_of t = 8 \/ unroll_of t = 16)
    /\ Forall (fun c => fst c = unroll_of t
                        /\ (exists i, snd c = i * fast_pace_of t)
                        /\ 0 <= snd c /\ snd c + fast_pace_of t <= xsize) full
    /\ Forall (fun c => fst c = 1
                        /\ (exists j, snd c = j * Z.of_nat (LanesFull t))
                        /\ 0 <= snd c < xsize) singles
    /\ (forall col, 0 <= col ->
          length (filter (covers t col) full)
          = if col <? fast_pace_of t * (xsize / fast_pace_of t) then 1%nat else 0%nat)
    /\ (forall col, 0 <= col < xsize ->
          length (filter (covers t col) (full ++ singles)) = 1%nat).
Proof.
  intros Hok Hx.
  destruct (unroll_cases t Hok) as (Hcases & Hfp). cbv zeta in Hcases.
  set (L := Z.of_nat (LanesFull t)) in *.
  set (u := unroll_of t) in *. set (fp := fast_pace_of t) in *.
  assert (HL : 1 <= L < 2 ^ 32) by lia.
  assert (Hfp0 : 0 < fp < 2 ^ 40) by (rewrite Hfp; destruct Hcases as [[-> ->]|[-> ?]]; lia).
  assert (Hu : (u =? 4) || (u =? 8) || (u =? 16) = true)
    by (destruct Hcases as [[-> _]|[-> _]]; reflexivity).
  (* the first loop *)
  set (P1 := fun (x : Z) (calls : list (Z * Z)) =>
    0 <= x <= xsize /\ (exists i, x = i * fp)
    /\ Forall (fun c => fst c = u /\ (exists i, snd c = i * fp)
                        /\ 0 <= snd c /\ snd c + fp <= xsize) calls
    /\ forall col, 0 <= col ->
         length (filter (covers t col) calls) = if col <? x then 1%nat else 0%nat).
  destruct (for_loop_inv P1 (fun x => Z.to_nat (xsize - x))
              (fun x => size_t (x + fp) <=? xsize) (fun x => size_t (x + fp))
              (fun x calls => Ok (calls ++ [(u, x)])))
    with (fuel := Z.to_nat xsize) (n := 0) (s := @nil (Z * Z))
    as (x1 & full & Hrun1 & (Hx1 & Hi1 & Hfull & Hcount1) & Hend1).
  { intros x calls (Hx0 & (i & Hi) & Hall & Hcount) Hc.
    rewrite size_t_small in Hc by lia. apply Z.leb_le in Hc.
    rewrite size_t_small by lia.
    eexists; split; [reflexivity|]. split; [|lia].
    split; [lia|]. split; [exists (i + 1); lia|].
    split.
    - apply Forall_app. split; [exact Hall|].
      constructor; [|constructor]. simpl.
      split; [reflexivity|]. split; [exists i; exact Hi|lia].
    - intros col Hcol. rewrite count_covers_app, (Hcount col Hcol).
      fold L. rewrite <- Hfp.
      destruct (col <? x) eqn:E1; destruct (x <=? col) eqn:E2;
        destruct (col <? x + fp) eqn:E3; destruct (col <? x + fp) eqn:E4;
        simpl; try reflexivity;
        rewrite ?Z.ltb_lt, ?Z.ltb_ge, ?Z.leb_le, ?Z.leb_gt in *; lia. }
  { unfold P1. split; [lia|]. split; [exists 0; lia|].
    split; [constructor|]. intros col Hcol. simpl.
    destruct (col <? 0) eqn:E; [apply Z.ltb_lt in E; lia|reflexivity]. }
  { lia. }
  rewrite size_t_small in Hend1 by lia. apply Z.leb_gt in Hend1.
  destruct Hi1 as (i1 & Hi1).
  assert (Ex1 : x1 = fp * (xsize / fp)).
  { rewrite Hi1, (Z.mul_comm fp). f_equal.
    apply Z.div_unique with (r := xsize - i1 * fp); lia. }
  (* the second loop *)
  set (P2 := fun (x : Z) (calls : list (Z * Z)) =>
    x1 <= x <= xsize + L /\ (exists j, x = j * L)
    /\ (exists singles, calls = full ++ singles
          /\ Forall (fun c => fst c = 1 /\ (exists j, snd c = j * L)
                              /\ 0 <= snd c < xsize) singles)
    /\ forall col, 0 <= col ->
         length (filter (covers t col) calls) = if col <? x then 1%nat else 0%nat).
  destruct (for_loop_inv P2 (fun x => Z.to_nat (xsize - x))
              (fun x => x <? xsize) (fun x => size_t (x + L))
              (fun x calls => Ok (calls ++ [(1, x)])))
    with (fuel := Z.to_nat xsize) (n := x1) (s := full)
    as (x2 & calls & Hrun2 & (Hx2 & _ & (singles & -> & Hsingles) & Hcount2) & Hend2).
  { intros x calls (Hx0 & (j & Hj) & (singles & -> & Hall) & Hcount) Hc.
    apply Z.ltb_lt in Hc. rewrite size_t_small by lia.
    eexists; split; [reflexivity|]. split; [|lia].
    split; [lia|]. split; [exists (j + 1); lia|]. split.
    - exists (singles ++ [(1, x)]). rewrite app_assoc. split; [reflexivity|].
      apply Forall_app. split; [exact Hall|].
      constructor; [|constructor]. simpl.
      split; [reflexivity|]. split; [exists j; exact Hj|lia].
    - intros col Hcol. rewrite count_covers_app, (Hcount col Hcol).
      fold L. rewrite Z.mul_1_l.
      destruct (col <? x) eqn:E1; destruct (x <=? col) eqn:E2;
        destruct (col <? x + L) eqn:E3; simpl; try reflexivity;
        rewrite ?Z.ltb_lt, ?Z.ltb_ge, ?Z.leb_le, ?Z.leb_gt in *; lia. }
  { unfold P2. split; [lia|]. split; [exists (i1 * u); lia|].
    split; [|exact Hcount1].
    exists []. rewrite app_nil_r. split; [reflexivity|constructor]. }
  { lia. }
  apply Z.ltb_ge in Hend2.
  exists full, singles.
  split.
  { unfold strip_schedule, strip_loops. cbv zeta.
    change (Z.max (64 / sizeof_float / Z.of_nat (LanesFull t)) 4) with u.
    change (size_t (u * Z.of_nat (LanesFull t))) with fp.
    rewrite Hu. fold L. rewrite Hrun1. cbn [bind]. rewrite Hrun2. reflexivity. }
  split; [destruct Hcases as [[-> _]|[-> _]]; auto|].
  split; [exact Hfull|]. split; [exact Hsingles|].
  split.
  - intros col Hcol. rewrite (Hcount1 col Hcol), Ex1. reflexivity.
  - intros col Hcol. rewrite (Hcount2 col ltac:(lia)).
    destruct (col <? x2) eqn:E; [reflexivity|apply Z.ltb_ge in E; lia].
Qed.

(** C7: for every [xsize], the calls of [VerticalStrip] are strips of
    [unroll] in {4, 8, 16} vectors at the multiples of [fast_pace], which
    cover a prefix of the columns, followed by strips of one vector; every
    column of [0, xsize) lies in exactly one strip, none in two and none in
    no strip. *)
Theorem strips_cover_once (t : Target) (xsize : Z) :
  target_ok t -> 0 <= xsize < 2 ^ 62 ->
  exists full singles,
    strip_schedule t xsize = Ok (full ++ singles)
    /\ (unroll_of t = 4 \/ unroll_of t = 8 \/ unroll_of t = 16)
    /\ Forall (fun c => fst c = unroll_of t
                        /\ exists i, snd c = i * fast_pace_of t) full
    /\ Forall (fun c => fst c = 1) singles
    /\ (forall col, 0 <= col ->
          length (filter (covers t col) full)
          = if col <? fast_pace_of t * (xsize / fast_pace_of t) then 1%nat else 0%nat)
    /\ (forall col, 0 <= col < xsize ->
          length (filter (covers t col) (full ++ singles)) = 1%nat).
Proof.
  intros Hok Hx.
  destruct (strip_schedule_inv t xsize Hok Hx)
    as (full & singles & Hrun & Hu & Hfull & Hsingles & Hprefix & Honce).
  exists full, singles.
  split; [exact Hrun|]. split; [exact Hu|].
  split; [|split; [|split; assumption]].
  - eapply Forall_impl; [|exact Hfull]. simpl. intros c (H1 & H2 & _). auto.
  - eapply Forall_impl; [|exact Hsingles]. simpl. intros c (H1 & _). auto.
Qed.

Lemma strips_cover_once_witness :
  exists full singles,
    strip_schedule (HWY_SIMD 4) 37 = Ok (full ++ singles)
    /\ (unroll_of (HWY_SIMD 4) = 4 \/ unroll_of (HWY_SIMD 4) = 8
        \/ unroll_of (HWY_SIMD 4) = 16)
    /\ Forall (fun c => fst c = unroll_of (HWY_SIMD 4)
                        /\ exists i, snd c = i * fast_pace_of (HWY_SIMD 4)) full
    /\ Forall (fun c => fst c = 1) singles
    /\ (forall col, 0 <= col ->
          length (filter (covers (HWY_SIMD 4) col) full)
          = if col <? fast_pace_of (HWY_SIMD 4) * (37 / fast_pace_of (HWY_SIMD 4))
            then 1%nat else 0%nat)
    /\ (forall col, 0 <= col < 37 ->
          length (filter (covers (HWY_SIMD 4) col) (full ++ singles)) = 1%nat).
Proof.
  apply (strips_cover_once (HWY_SIMD 4) 37).
  - simpl. repeat split; lia.
  - lia.
Defined.

(** ** The vertical pass stays inside its rows *)

Lemma ssize_t_small (z : Z) : - 2 ^ 63 <= z < 2 ^ 63 -> ssize_t z = z.
Proof.
  intros H. unfold ssize_t. rewrite Z.mod_small by lia. lia.
Qed.

Lemma ssize_t_size_t (z : Z) : - 2 ^ 63 <= z < 2 ^ 63 -> ssize_t (size_t z) = z.
Proof.
  intros H. unfold ssize_t, size_t.
  rewrite Zplus_mod_idemp_l.
  rewrite Z.mod_small by lia. lia.
Qed.

Section VerticalSafety.
Context {T : Type} {LT : Lane T}.
Variable t : Target.
Import hwy.

Lemma rows_ok_get (pl : list (list T)) (ysize width y : Z) :
  rows_ok pl ysize width -> 0 <= y < ysize ->
  exists r, nth_error pl (Z.to_nat y) = Some r /\ width <= Z.of_nat (length r).
Proof.
  intros [Hlen Hall] Hy.
  destruct (nth_error pl (Z.to_nat y)) as [r|] eqn:E.
  - exists r. split; [reflexivity|].
    rewrite Forall_forall in Hall. apply Hall. eapply nth_error_In; eauto.
  - apply nth_error_None in E. lia.
Qed.

Lemma rows_ok_shape (pl pl' : list (list T)) (ysize width : Z) :
  map (@length T) pl' = map (@length T) pl ->
  rows_ok pl ysize width -> rows_ok pl' ysize width.
Proof.
  intros Hs [Hlen Hall]. split.
  - rewrite <- Hlen. rewrite <- (length_map (@length T) pl'), Hs, length_map.
    reflexivity.
  - clear Hlen. revert pl Hs Hall.
    induction pl' as [|r' pl' IH]; intros [|r pl] Hs Hall; simpl in Hs;
      try discriminate; constructor.
    + inversion Hs. inversion Hall; subst. lia.
    + inversion Hs. inversion Hall; subst. eapply IH; eauto.
Qed.

Lemma rows_ok_weaken (pl : list (list T)) (ysize w w' : Z) :
  w' <= w -> rows_ok pl ysize w -> rows_ok pl ysize w'.
Proof.
  intros Hw [Hlen Hall]. split; [exact Hlen|].
  eapply Forall_impl; [|exact Hall]. simpl. intros; lia.
Qed.

Lemma LanesFull_ok : target_ok t -> 1 <= Z.of_nat (LanesFull t) < 2 ^ 32.
Proof. destruct t; simpl; lia. Qed.

Lemma read_ok (mem : list T) (off : Z) :
  0 <= off < Z.of_nat (length mem) -> exists x, read mem off = Ok x.
Proof.
  intros H. unfold read.
  destruct (0 <=? off) eqn:E; [|apply Z.leb_gt in E; lia].
  destruct (nth_error mem (Z.to_nat off)) as [x|] eqn:E1.
  - exists x. reflexivity.
  - apply nth_error_None in E1. lia.
Qed.

Lemma concat_repeat_length (blk : list T) (k : nat) :
  length (concat (repeat blk k)) = (k * length blk)%nat.
Proof.
  induction k as [|k IH]; simpl; [reflexivity|].
  rewrite length_app, IH. reflexivity.
Qed.

Lemma LoadDup128_ok (mem : list T) (off : Z) :
  target_ok t -> 0 <= off -> off + 4 <= Z.of_nat (length mem) ->
  exists v, LoadDup128 t mem off = Ok v /\ length v = LanesFull t.
Proof.
  intros Hok H0 H1. unfold LoadDup128.
  destruct t as [|l]; cbn [is_scalar LanesFull] in *.
  - destruct (read_ok mem off ltac:(lia)) as (x & ->). cbn [bind].
    eexists; split; [reflexivity|]. apply repeat_length.
  - destruct Hok as (H4 & Hmod & _).
    rewrite Load_ok by lia. cbn [bind].
    eexists; split; [reflexivity|].
    rewrite concat_repeat_length, loaded_length by lia.
    pose proof (Nat.div_mod_eq l 4). lia.
Qed.

Lemma load_vcoef_ok (rg : RecursiveGaussian T) :
  target_ok t -> tables_ok rg ->
  exists c, load_vcoef t rg = Ok c /\ vcoef_ok (LanesFull t) c.
Proof.
  intros Hok (Hn2 & Hd1 & _). unfold load_vcoef.
  destruct (LoadDup128_ok (d1 rg) (0 * 4) Hok) as (a1 & -> & L1); try lia.
  destruct (LoadDup128_ok (d1 rg) (1 * 4) Hok) as (a3 & -> & L3); try lia.
  destruct (LoadDup128_ok (d1 rg) (2 * 4) Hok) as (a5 & -> & L5); try lia.
  destruct (LoadDup128_ok (n2 rg) (0 * 4) Hok) as (b1 & -> & M1); try lia.
  destruct (LoadDup128_ok (n2 rg) (1 * 4) Hok) as (b3 & -> & M3); try lia.
  destruct (LoadDup128_ok (n2 rg) (2 * 4) Hok) as (b5 & -> & M5); try lia.
  cbn [bind]. eexists; split; [reflexivity|].
  repeat split; assumption.
Qed.

Lemma memset0_ok (mem : list T) (count : Z) :
  0 <= count <= Z.of_nat (length mem) ->
  exists mem', memset0 mem count = Ok mem' /\ length mem' = length mem.
Proof.
  intros H. unfold memset0.
  destruct (0 <=? count) eqn:E; [|apply Z.leb_gt in E; lia].
  assert (Hl : length (Zero (T:=T) (Z.to_nat count)) = Z.to_nat count)
    by apply repeat_length.
  rewrite Store_ok by (rewrite ?Hl; lia).
  eexists; split; [reflexivity|].
  apply stored_length. rewrite Hl. lia.
Qed.

End VerticalSafety.

Section StripSafety.
Context {T : Type} {LT : Lane T}.
Variable t : Target.
Variables (kVectors N x ysize : Z) (c : vcoef (T:=T)).
Variables (zero : list T) (input : list (list T)).
Variables (rb_len : nat) (shape : list nat).
Import hwy.

Let kLanes : Z := kVectors * Z.of_nat (LanesFull t).

Hypothesis Hok : target_ok t.
Hypothesis HkV : 0 <= kVectors.
Hypothesis Hc : vcoef_ok (LanesFull t) c.
Hypothesis HN : 0 <= N < 2 ^ 62.
Hypothesis Hx : 0 <= x.
Hypothesis Hysize : 0 <= ysize < 2 ^ 62.
Hypothesis Hzero : kLanes <= Z.of_nat (length zero).
Hypothesis Hinput : rows_ok input ysize (x + kLanes).
Hypothesis Hrb : 3 * kLanes * kRingBufferLen <= Z.of_nat rb_len.

Local Abbreviation strip_inv := (strip_inv (T:=T) t kVectors x ysize rb_len shape).

Lemma bottom_pos_ok (bottom : Z) :
  0 <= bottom ->
  exists p, bottom_pos input zero x ysize bottom = Ok p /\ pos_ok kLanes p.
Proof.
  intros Hb. unfold bottom_pos.
  destruct (bottom <? ysize) eqn:E.
  - apply Z.ltb_lt in E.
    destruct (rows_ok_get input ysize (x + kLanes) bottom Hinput ltac:(lia))
      as (r & Hr & Hlen).
    rewrite (get_row_ok input bottom r ltac:(lia) Hr). cbn [bind].
    eexists; split; [reflexivity|]. unfold pos_ok. simpl. lia.
  - eexists; split; [reflexivity|]. unfold pos_ok. simpl. lia.
Qed.

Lemma row_pos_ok (y : Z) :
  0 <= y < ysize ->
  exists p, row_pos input x y = Ok p /\ pos_ok kLanes p.
Proof.
  intros Hy. unfold row_pos.
  destruct (rows_ok_get input ysize (x + kLanes) y Hinput Hy) as (r & Hr & Hlen).
  rewrite (get_row_ok input y r ltac:(lia) Hr). cbn [bind].
  eexists; split; [reflexivity|]. unfold pos_ok. simpl. lia.
Qed.

Lemma block_safe (inp : Input) (n : Z) (output : Output)
    (out_pos : option (Z * Z)) (st : vstate) :
  strip_inv st -> input_ok kLanes inp ->
  (output = OutputNone \/ (out_pos = Some (n, x) /\ 0 <= n < ysize)) ->
  exists st', VerticalBlock t kVectors c inp n output out_pos st = Ok st'
              /\ strip_inv st'.
Proof.
  intros (Hlen & Hshape & Hrows) Hin Hout.
  destruct (VerticalBlock_spec t kVectors c inp n output out_pos st)
    as (st' & Hrun & Hlen' & Hshape' & _).
  - apply LanesFull_ok. exact Hok.
  - exact HkV.
  - rewrite Hlen. exact Hrb.
  - exact Hc.
  - exact Hin.
  - destruct Hout as [-> | [-> Hn]]; [exact I|].
    destruct output; [exact I|]. simpl.
    destruct (rows_ok_get (plane st) ysize (x + kLanes) n Hrows Hn)
      as (r & Hr & Hl).
    split; [lia|]. split; [exact Hx|]. exists r. split; [exact Hr|exact Hl].
  - exists st'. split; [exact Hrun|].
    split; [congruence|]. split; [congruence|].
    eapply rows_ok_shape; eauto.
Qed.

Lemma plane_row_ok (st : vstate) (n : Z) :
  strip_inv st -> 0 <= n < ysize -> exists r, get_row (plane st) n = Ok r.
Proof.
  intros (_ & _ & Hrows) Hn.
  destruct (rows_ok_get (plane st) ysize (x + kLanes) n Hrows Hn) as (r & Hr & _).
  exists r. apply get_row_ok; [lia|exact Hr].
Qed.

Lemma warmup_none_safe (n : Z) (st : vstate) :
  strip_inv st -> 0 <= n + N - 1 < 2 ^ 64 ->
  exists st', warmup_body t kVectors c N x ysize zero input OutputNone n st = Ok st'
              /\ strip_inv st'.
Proof.
  intros Hinv Hn. unfold warmup_body.
  rewrite size_t_small by exact Hn.
  destruct (bottom_pos_ok (n + N - 1) ltac:(lia)) as (p & -> & Hp). cbn [bind].
  apply block_safe; auto.
Qed.

Lemma warmup_store_safe (n : Z) (st : vstate) :
  strip_inv st -> 0 <= n < ysize -> 0 <= n + N - 1 ->
  exists st', warmup_body t kVectors c N x ysize zero input OutputStore n st = Ok st'
              /\ strip_inv st'.
Proof.
  intros Hinv Hn Hb. unfold warmup_body.
  rewrite size_t_small by lia.
  destruct (bottom_pos_ok (n + N - 1) Hb) as (p & -> & Hp). cbn [bind].
  destruct (plane_row_ok st n Hinv Hn) as (r & ->). cbn [bind].
  apply block_safe; auto.
Qed.

Lemma interior_safe (n : Z) (st : vstate) :
  strip_inv st -> N + 1 <= n -> n + N + 7 < ysize ->
  exists st', interior_body t kVectors c N x input n st = Ok st'
              /\ strip_inv st'.
Proof.
  intros Hinv Hn Hb. unfold interior_body, Prefetch, kPrefetchRows.
  rewrite !(size_t_small (n - N - 1)), !(size_t_small (n + N - 1)) by lia.
  rewrite !size_t_small by lia.
  destruct (row_pos_ok (n - N - 1) ltac:(lia)) as (p1 & -> & Hp1).
  destruct (row_pos_ok (n + N - 1) ltac:(lia)) as (p2 & -> & Hp2).
  cbn [bind].
  destruct (plane_row_ok st n Hinv ltac:(lia)) as (r & ->). cbn [bind].
  destruct (block_safe (TwoInputs p1 p2) n OutputStore (Some (n, x)) st)
    as (st' & -> & Hinv'); auto.
  { simpl. auto. }
  { right. split; [reflexivity|lia]. }
  cbn [bind].
  destruct (row_pos_ok (n - N - 1 + 8) ltac:(lia)) as (q1 & -> & _).
  destruct (row_pos_ok (n + N - 1 + 8) ltac:(lia)) as (q2 & -> & _).
  cbn [bind]. exists st'. auto.
Qed.

Lemma border_safe (n : Z) (st : vstate) :
  strip_inv st -> N + 1 <= n < ysize ->
  exists st', border_body t kVectors c N x ysize zero input n st = Ok st'
              /\ strip_inv st'.
Proof.
  intros Hinv Hn. unfold border_body.
  rewrite !size_t_small by lia.
  destruct (row_pos_ok (n - N - 1) ltac:(lia)) as (p1 & -> & Hp1).
  destruct (bottom_pos_ok (n + N - 1) ltac:(lia)) as (p2 & -> & Hp2).
  cbn [bind].
  destruct (plane_row_ok st n Hinv ltac:(lia)) as (r & ->). cbn [bind].
  apply block_safe; auto.
  - simpl. auto.
  - right. split; [reflexivity|lia].
Qed.

End StripSafety.

Section StripRun.
Context {T : Type} {LT : Lane T}.
Import hwy.

(** [VerticalStrip] runs to its end on a strip that lies inside the rows of
    both planes, and keeps the shape of the output plane. *)
Lemma VerticalStrip_safe (t : Target) (kVectors : Z) (rg : RecursiveGaussian T)
    (x ysize : Z) (zero : list T) (input : list (list T)) (st : vstate) :
  let kLanes := kVectors * Z.of_nat (LanesFull t) in
  target_ok t -> 0 <= kVectors -> tables_ok rg ->
  1 <= radius rg < 2 ^ 62 -> 0 <= x -> 0 <= ysize < 2 ^ 62 ->
  kLanes <= Z.of_nat (length zero) ->
  rows_ok input ysize (x + kLanes) ->
  3 * kLanes * kRingBufferLen <= Z.of_nat (length (ring_buffer st)) ->
  rows_ok (plane st) ysize (x + kLanes) ->
  exists st', VerticalStrip t kVectors rg x ysize zero input st = Ok st'
              /\ length (ring_buffer st') = length (ring_buffer st)
              /\ map (@length T) (plane st') = map (@length T) (plane st).
Proof.
  intros kLanes Hok HkV Htab Hrad Hx Hy Hzero Hin Hrb Hrows.
  unfold VerticalStrip. cbv zeta.
  destruct (load_vcoef_ok t rg Hok Htab) as (c & -> & Hc). cbn [bind].
  rewrite !(size_t_small (radius rg)) by lia.
  rewrite (ssize_t_small (radius rg)) by lia.
  set (N := radius rg) in *.
  pose proof (LanesFull_ok t Hok) as HL.
  destruct (memset0_ok (ring_buffer st)
              (3 * kVectors * Z.of_nat (LanesFull t) * kRingBufferLen))
    as (rb & -> & Hrblen).
  { change kRingBufferLen with 4 in *. unfold kLanes in Hrb. nia. }
  cbn [bind].
  set (inv := strip_inv (T:=T) t kVectors x ysize (length (ring_buffer st))
                (map (@length T) (plane st))).
  assert (Hinv0 : inv (mkV rb (plane st))).
  { unfold inv, strip_inv. simpl. auto. }
  assert (HN : 0 <= N < 2 ^ 62) by lia.
  (* warmup without output *)
  destruct (for_lt_inv (fun n s => - N + 1 <= n /\ inv s) 0 1
              (warmup_body t kVectors c N x ysize zero input OutputNone))
    with (n := - N + 1) (s := mkV rb (plane st))
    as (n1 & st1 & -> & (_ & Hinv1) & _).
  { lia. }
  { intros n s (Hn & Hs) Hlt.
    destruct (warmup_none_safe t kVectors N x ysize c zero input
                (length (ring_buffer st)) (map (@length T) (plane st))
                Hok HkV Hc Hx Hzero Hin Hrb n s Hs ltac:(lia))
      as (s' & Hs' & Hinv').
    exists s'. split; [exact Hs'|]. split; [lia|exact Hinv']. }
  { split; [lia|exact Hinv0]. }
  cbn [bind].
  (* warmup with output *)
  rewrite (size_t_small (N + 1)) by lia.
  destruct (for_loop_inv (fun n s => 0 <= n <= Z.min (N + 1) ysize /\ inv s)
              (fun n => Z.to_nat (ysize - n))
              (fun n => size_t n <? Z.min (N + 1) ysize) (fun n => n + 1)
              (warmup_body t kVectors c N x ysize zero input OutputStore))
    with (fuel := Z.to_nat ysize) (n := 0) (s := st1)
    as (n2 & st2 & -> & ((Hn2 & Hinv2) & Hend2)).
  { intros n s (Hn & Hs) Hc2.
    rewrite size_t_small in Hc2 by lia. apply Z.ltb_lt in Hc2.
    destruct (warmup_store_safe t kVectors N x ysize c zero input
                (length (ring_buffer st)) (map (@length T) (plane st))
                Hok HkV Hc HN Hx Hy Hzero Hin Hrb n s Hs ltac:(lia) ltac:(lia))
      as (s' & Hs' & Hinv').
    exists s'. split; [exact Hs'|]. split; [split; [lia|exact Hinv']|lia]. }
  { split; [lia|exact Hinv1]. }
  { lia. }
  rewrite size_t_small in Hend2 by lia. apply Z.ltb_ge in Hend2.
  assert (En2 : n2 = Z.min (N + 1) ysize) by lia.
  cbn [bind].
  (* interior *)
  unfold kPrefetchRows.
  rewrite (ssize_t_size_t (ysize - N + 1 - 8)) by lia.
  destruct (for_lt_inv
              (fun n s => n2 <= n <= Z.max n2 (ysize - N + 1 - 8) /\ inv s)
              (ysize - N + 1 - 8) 1
              (interior_body t kVectors c N x input))
    with (n := n2) (s := st2)
    as (n3 & st3 & -> & ((Hn3 & Hinv3) & Hend3)).
  { lia. }
  { intros n s (Hn & Hs) Hlt.
    destruct (interior_safe t kVectors N x ysize c zero input
                (length (ring_buffer st)) (map (@length T) (plane st))
                Hok HkV Hc HN Hx Hy Hin Hrb n s Hs ltac:(lia) ltac:(lia))
      as (s' & Hs' & Hinv').
    exists s'. split; [exact Hs'|]. split; [lia|exact Hinv']. }
  { split; [lia|exact Hinv2]. }
  cbn [bind].
  (* bottom border *)
  destruct (for_loop_inv (fun n s => n2 <= n <= ysize /\ inv s)
              (fun n => Z.to_nat (ysize - n))
              (fun n => size_t n <? ysize) (fun n => n + 1)
              (border_body t kVectors c N x ysize zero input))
    with (fuel := Z.to_nat (ysize - n3)) (n := n3) (s := st3)
    as (n4 & st4 & -> & ((Hn4 & Hinv4) & Hend4)).
  { intros n s (Hn & Hs) Hc4.
    rewrite size_t_small in Hc4 by lia. apply Z.ltb_lt in Hc4.
    destruct (border_safe t kVectors N x ysize c zero input
                (length (ring_buffer st)) (map (@length T) (plane st))
                Hok HkV Hc HN Hx Hy Hzero Hin Hrb n s Hs ltac:(lia))
      as (s' & Hs' & Hinv').
    exists s'. split; [exact Hs'|]. split; [split; [lia|exact Hinv']|lia]. }
  { split; [lia|exact Hinv3]. }
  { lia. }
  cbn [bind].
  exists st4. split; [reflexivity|].
  destruct Hinv4 as (H1 & H2 & _). auto.
Qed.

End StripRun.

Lemma RoundUpTo_ge (what align : Z) :
  0 < align -> what <= RoundUpTo what align.
Proof.
  intros H. unfold RoundUpTo.
  pose proof (Z.div_mod (what + align - 1) align ltac:(lia)).
  pose proof (Z.mod_pos_bound (what + align - 1) align H).
  lia.
Qed.

(** A vector that starts at a multiple of [align] below [what] ends at or
    before [RoundUpTo what align]. *)
Lemma RoundUpTo_vector (what align j : Z) :
  0 < align -> j * align < what -> j * align + align <= RoundUpTo what align.
Proof.
  intros H Hj. unfold RoundUpTo.
  pose proof (Z.div_mod (what + align - 1) align ltac:(lia)) as E.
  pose proof (Z.mod_pos_bound (what + align - 1) align H) as B.
  set (q := (what + align - 1) / align) in *.
  assert (j < q) by nia.
  nia.
Qed.

Section VerticalRun.
Context {T : Type} {LT : Lane T}.
Import hwy.

Lemma run_strips_safe (t : Target) (rg : RecursiveGaussian T)
    (ysize width : Z) (zero : list T) (input : list (list T))
    (calls : list (Z * Z)) :
  target_ok t -> tables_ok rg -> 1 <= radius rg < 2 ^ 62 ->
  0 <= ysize < 2 ^ 62 -> rows_ok input ysize width ->
  Forall (fun c => 0 <= fst c /\ 0 <= snd c
            /\ snd c + fst c * Z.of_nat (LanesFull t) <= width
            /\ fst c * Z.of_nat (LanesFull t) <= Z.of_nat (length zero)) calls ->
  forall st,
    Forall (fun c => 3 * (fst c * Z.of_nat (LanesFull t)) * kRingBufferLen
                     <= Z.of_nat (length (ring_buffer st))) calls ->
    rows_ok (plane st) ysize width ->
    exists st',
      run_strips (fun kVectors x st => VerticalStrip t kVectors rg x ysize zero input st)
                 calls st = Ok st'
      /\ map (@length T) (plane st') = map (@length T) (plane st).
Proof.
  intros Hok Htab Hrad Hy Hin Hcalls.
  induction Hcalls as [|[k x] calls (Hk & Hx & Hw & Hz) _ IH];
    intros st Hrb Hrows; simpl.
  - exists st. auto.
  - simpl in *. inversion Hrb as [|? ? Hrb1 Hrb2]; subst.
    destruct (VerticalStrip_safe t k rg x ysize zero input st)
      as (st1 & -> & Hlen1 & Hshape1); auto.
    { eapply rows_ok_weaken; [|exact Hin]. lia. }
    { eapply rows_ok_weaken; [|exact Hrows]. lia. }
    cbn [bind].
    destruct (IH st1) as (st' & Hrun & Hshape').
    { rewrite Hlen1. exact Hrb2. }
    { eapply rows_ok_shape; eauto. }
    exists st'. split; [exact Hrun|congruence].
Qed.

(** With rows that hold whole vectors, [FastGaussianVertical] returns
    failure, and the output plane as it was, when the allocation fails, and
    otherwise runs every strip inside the rows and returns success. *)
Lemma FastGaussianVertical_run (t : Target)
    (memory_manager : Z -> option (list T)) (rg : RecursiveGaussian T)
    (xsize ysize : Z) (input output : list (list T)) :
  let width := RoundUpTo xsize (Z.of_nat (LanesFull t)) in
  target_ok t -> allocator_ok memory_manager -> tables_ok rg ->
  1 <= radius rg < 2 ^ 62 -> 0 <= xsize < 2 ^ 62 -> 0 <= ysize < 2 ^ 62 ->
  rows_ok input ysize width -> rows_ok output ysize width ->
  match memory_manager (scratch_size_of t) with
  | None =>
      FastGaussianVertical t memory_manager rg xsize ysize input output
      = Ok (false, output)
  | Some _ =>
      exists out',
        FastGaussianVertical t memory_manager rg xsize ysize input output
        = Ok (true, out')
        /\ map (@length T) out' = map (@length T) output
  end.
Proof.
  intros width Hok Halloc Htab Hrad Hxs Hys Hin Hout.
  unfold FastGaussianVertical. cbv zeta.
  change (Z.max (64 / sizeof_float / Z.of_nat (LanesFull t)) 4) with (unroll_of t).
  change (size_t (unroll_of t * Z.of_nat (LanesFull t))) with (fast_pace_of t).
  change (size_t (fast_pace_of t * sizeof_float * (1 + 3 * kRingBufferLen)))
    with (scratch_size_of t).
  destruct (memory_manager (scratch_size_of t)) as [mem|] eqn:Emm; [|reflexivity].
  pose proof (LanesFull_ok t Hok) as HL.
  destruct (unroll_cases t Hok) as (Hcases & Hfp). cbv zeta in Hcases.
  set (L := Z.of_nat (LanesFull t)) in *.
  set (fp := fast_pace_of t) in *.
  assert (Hfp0 : 0 < fp < 2 ^ 40)
    by (rewrite Hfp; destruct Hcases as [[-> ->]|[-> ?]]; lia).
  assert (Hmem : Z.of_nat (length mem) = 13 * fp).
  { apply Halloc in Emm. unfold scratch_size_of in Emm. fold fp in Emm.
    change sizeof_float with 4 in Emm. change kRingBufferLen with 4 in Emm.
    rewrite size_t_small in Emm by lia. lia. }
  destruct (memset0_ok (firstn (Z.to_nat fp) mem) fp) as (zero & -> & Hzero).
  { rewrite length_firstn. lia. }
  rewrite length_firstn in Hzero.
  cbn [bind].
  destruct (strip_schedule_inv t xsize Hok Hxs)
    as (full & singles & Hsched & Hu & Hfull & Hsingles & _).
  fold L fp in Hfull, Hsingles.
  rewrite (strip_loops_schedule t xsize _ _ _ Hsched).
  destruct (run_strips_safe t rg ysize width zero input (full ++ singles))
    with (st := mkV (skipn (Z.to_nat fp) mem) output)
    as (st' & -> & Hshape); auto.
  - apply Forall_app. split.
    + eapply Forall_impl; [|exact Hfull]. simpl.
      intros [k x]. simpl. intros (-> & _ & Hx0 & Hx1). fold L.
      rewrite <- Hfp.
      pose proof (RoundUpTo_ge xsize L ltac:(lia)). fold width in H. lia.
    + eapply Forall_impl; [|exact Hsingles]. simpl.
      intros [k x]. simpl. intros (-> & (j & ->) & Hx0). fold L.
      pose proof (RoundUpTo_vector xsize L j ltac:(lia) ltac:(lia)).
      fold width in H.
      assert (L <= fp) by (rewrite Hfp; destruct Hcases as [[-> ->]|[-> ?]]; lia).
      lia.
  - cbn [ring_buffer]. rewrite length_skipn. change kRingBufferLen with 4.
    apply Forall_app. split.
    + eapply Forall_impl; [|exact Hfull]. cbn beta.
      intros [k x]. cbn [fst snd]. intros (-> & _). fold L. rewrite <- Hfp. lia.
    + eapply Forall_impl; [|exact Hsingles]. cbn beta.
      intros [k x]. cbn [fst snd]. intros (-> & _). fold L.
      assert (L <= fp) by (rewrite Hfp; destruct Hcases as [[-> ->]|[-> ?]]; lia).
      lia.
  - cbn [bind]. exists (plane st'). split; [reflexivity|exact Hshape].
Qed.

End VerticalRun.

(** ** The horizontal pass stays inside its row *)

Section HorizontalSafety.
Context {T : Type} {LT : Lane T}.
Variable t : Target.
Import hwy.

Lemma LanesCapped_ok : target_ok t -> LanesCapped t = 1%nat \/ LanesCapped t = 4%nat.
Proof.
  destruct t as [|l]; simpl; intros H.
  - left. reflexivity.
  - right. apply LanesCapped_simd. lia.
Qed.

Lemma read_getz (mem : list T) (off : Z) :
  0 <= off < Z.of_nat (length mem) -> read mem off = Ok (getz mem off).
Proof.
  intros H. unfold read, getz.
  destruct (0 <=? off) eqn:E; [|apply Z.leb_gt in E; lia].
  destruct (nth_error mem (Z.to_nat off)) as [x|] eqn:E1.
  - rewrite (nth_error_nth _ _ _ E1). reflexivity.
  - apply nth_error_None in E1. lia.
Qed.

(** The left operand of a bounds-checked step is the zero-padded sample. *)
Lemma left_val_padded (input : list T) (N xsize n : Z) :
  Z.of_nat (length input) = xsize -> - 1 <= N -> n < xsize ->
  left_val input N n = Ok (padded input (n - N - 1)).
Proof.
  intros Hlen HN Hn. unfold left_val, padded. cbv zeta.
  destruct (0 <=? n - N - 1) eqn:E; simpl.
  - apply Z.leb_le in E.
    destruct (n - N - 1 <? Z.of_nat (length input)) eqn:E1;
      [|apply Z.ltb_ge in E1; lia].
    apply read_getz. lia.
  - reflexivity.
Qed.

(** The right operand of a bounds-checked step is the zero-padded sample. *)
Lemma right_val_padded (input : list T) (N xsize n : Z) :
  Z.of_nat (length input) = xsize -> - N + 1 <= n ->
  right_val input N xsize n = Ok (padded input (n + N - 1)).
Proof.
  intros Hlen Hn. unfold right_val, padded. cbv zeta. rewrite Hlen.
  destruct (n + N - 1 <? xsize) eqn:E.
  - apply Z.ltb_lt in E.
    destruct (0 <=? n + N - 1) eqn:E1; [|apply Z.leb_gt in E1; lia].
    simpl. apply read_getz. lia.
  - rewrite andb_false_r. reflexivity.
Qed.

Lemma zip_with_length_le (f : T -> T -> T) (a b : V) :
  (length (zip_with f a b) <= length a)%nat.
Proof. rewrite zip_with_length. lia. Qed.

Lemma single_out_length (a b c s p q : V (T:=T)) :
  (length (single_out a b c s p q) <= length b)%nat.
Proof.
  unfold single_out, MulAdd, Add, Mul.
  rewrite !zip_with_length. lia.
Qed.

Lemma unrolled_out_length (a b c s p q : V (T:=T)) :
  (length (unrolled_out t a b c s p q) <= length b)%nat.
Proof.
  unfold unrolled_out, MulAdd, Add, Mul.
  rewrite !zip_with_length. lia.
Qed.

Lemma load_coef_ok (rg : RecursiveGaussian T) :
  target_ok t -> tables_ok rg ->
  exists c, load_coef t rg = Ok c /\ hcoef_ok (LanesCapped t) c.
Proof.
  intros Hok (_ & _ & Hp & Hq & Hi). unfold load_coef. cbv zeta.
  assert (HL : Z.of_nat (LanesCapped t) <= 4)
    by (destruct (LanesCapped_ok Hok) as [-> | ->]; lia).
  rewrite !Load_ok by lia. cbn [bind].
  eexists; split; [reflexivity|].
  unfold hcoef_ok; cbn [mul_in_1 mul_in_3 mul_in_5 mul_prev_1 mul_prev_3
    mul_prev_5 mul_prev2_1 mul_prev2_3 mul_prev2_5].
  repeat split; apply loaded_length; lia.
Qed.

(** At [n] in [-N + 1, xsize) a bounds-checked step reads nothing outside
    the row: its operands are the zero-padded samples. *)
Lemma checked_body_padded (c : hcoef) (N xsize : Z) (input : list T)
    (guard : bool) (n : Z) (st : hstate) :
  Z.of_nat (length input) = xsize -> - 1 <= N -> - N + 1 <= n < xsize ->
  checked_body t c N xsize input guard n st
  = checked_step t c guard n (padded input (n - N - 1))
                 (padded input (n + N - 1)) st.
Proof.
  intros Hin HN Hn. unfold checked_body.
  rewrite (left_val_padded input N xsize n Hin HN ltac:(lia)).
  rewrite (right_val_padded input N xsize n Hin ltac:(lia)).
  reflexivity.
Qed.

Lemma checked_step_safe (c : hcoef) (xsize : Z) (guard : bool) (n : Z)
    (l r : T) (st : hstate) :
  Z.of_nat (length (out st)) = xsize -> n < xsize -> (guard = true \/ 0 <= n) ->
  exists st', checked_step t c guard n l r st = Ok st'
              /\ Z.of_nat (length (out st')) = xsize.
Proof.
  intros Hout Hn Hg. unfold checked_step. cbv zeta.
  destruct (guard && negb (0 <=? n)) eqn:E.
  - cbn [bind]. eexists; split; [reflexivity|]. exact Hout.
  - assert (H0 : 0 <= n).
    { destruct Hg as [-> | H]; [|exact H].
      simpl in E. apply negb_false_iff in E. apply Z.leb_le in E. exact E. }
    unfold write. rewrite Store_ok by (simpl; lia). cbn [bind].
    eexists; split; [reflexivity|]. cbn [out].
    rewrite stored_length by (simpl; lia). exact Hout.
Qed.

(** A bounds-checked step at [n] in [-N + 1, xsize) reads and writes inside
    the row. *)
Lemma checked_body_safe (c : hcoef) (N xsize : Z) (input : list T)
    (guard : bool) (n : Z) (st : hstate) :
  Z.of_nat (length input) = xsize -> Z.of_nat (length (out st)) = xsize ->
  - 1 <= N -> - N + 1 <= n < xsize -> (guard = true \/ 0 <= n) ->
  exists st', checked_body t c N xsize input guard n st = Ok st'
              /\ Z.of_nat (length (out st')) = xsize.
Proof.
  intros Hin Hout HN Hn Hg.
  rewrite (checked_body_padded c N xsize input guard n st Hin HN Hn).
  apply checked_step_safe; auto. lia.
Qed.

(** An unrolled step at [n] in [N + 1, xsize - N - 2) reads and writes
    inside the row. *)
Lemma unrolled_body_safe (c : hcoef) (N xsize : Z) (input : list T)
    (n : Z) (st : hstate) :
  target_ok t -> hcoef_ok (LanesCapped t) c ->
  Z.of_nat (length input) = xsize -> Z.of_nat (length (out st)) = xsize ->
  1 <= N -> N + 1 <= n < unrolled_end N xsize ->
  exists st', unrolled_body t c N input n st = Ok st'
              /\ Z.of_nat (length (out st')) = xsize.
Proof.
  intros Hok Hc Hin Hout HN Hn. unfold unrolled_body, LoadU.
  unfold unrolled_end, JXL_GAUSS_MAX_LANES in Hn.
  assert (HL : Z.of_nat (LanesCapped t) <= 4)
    by (destruct (LanesCapped_ok Hok) as [-> | ->]; lia).
  rewrite !Load_ok by lia. cbn [bind].
  match goal with |- context [Store ?v (out st) n] => set (v0 := v) end.
  assert (Hv : (length v0 <= LanesCapped t)%nat).
  { unfold v0, Add. etransitivity; [apply zip_with_length_le|].
    etransitivity; [apply unrolled_out_length|].
    destruct Hc as (_ & _ & _ & -> & _). lia. }
  rewrite Store_ok by lia. cbn [bind].
  eexists; split; [reflexivity|]. cbn [out].
  rewrite stored_length by lia. exact Hout.
Qed.

Lemma first_aligned_ge (N : Z) : target_ok t -> N + 1 <= first_aligned t N.
Proof.
  intros Hok. unfold first_aligned. apply RoundUpTo_ge.
  destruct (LanesCapped_ok Hok) as [-> | ->]; lia.
Qed.

(** The left-side loop runs to its end inside the row. *)
Lemma left_loop_safe (c : hcoef) (N xsize : Z) (input : list T) (st : hstate) :
  Z.of_nat (length input) = xsize -> Z.of_nat (length (out st)) = xsize ->
  - 1 <= N ->
  exists n1 st1,
    for_lt (- N + 1) (Z.min (first_aligned t N) xsize) 1
           (checked_body t c N xsize input true) st = Ok (n1, st1)
    /\ n1 = Z.max (- N + 1) (Z.min (first_aligned t N) xsize)
    /\ Z.of_nat (length (out st1)) = xsize.
Proof.
  intros Hin Hout HN.
  destruct (for_lt_inv
              (fun n (s : hstate) =>
                 - N + 1 <= n
                   <= Z.max (- N + 1) (Z.min (first_aligned t N) xsize)
                 /\ Z.of_nat (length (out s)) = xsize)
              (Z.min (first_aligned t N) xsize) 1
              (checked_body t c N xsize input true))
    with (n := - N + 1) (s := st)
    as (n1 & st1 & Hrun & ((Hn1 & Ho1) & Hend1)).
  { lia. }
  { intros n s (Hn & Hs) Hlt.
    destruct (checked_body_safe c N xsize input true n s Hin Hs)
      as (s' & Hs' & Ho'); try lia; auto.
    exists s'. split; [exact Hs'|]. split; [lia|exact Ho']. }
  { split; [lia|exact Hout]. }
  exists n1, st1. split; [exact Hrun|]. split; [lia|exact Ho1].
Qed.

(** The unrolled loop, entered at or after [N + 1], runs to its end inside
    the row. *)
Lemma unrolled_loop_safe (c : hcoef) (N xsize n1 : Z) (input : list T)
    (st : hstate) :
  target_ok t -> hcoef_ok (LanesCapped t) c ->
  Z.of_nat (length input) = xsize -> Z.of_nat (length (out st)) = xsize ->
  1 <= N -> (n1 < unrolled_end N xsize -> N + 1 <= n1) ->
  exists n2 st2,
    for_lt n1 (unrolled_end N xsize) (Z.of_nat (LanesCapped t))
           (unrolled_body t c N input) st = Ok (n2, st2)
    /\ n1 <= n2 /\ Z.of_nat (length (out st2)) = xsize.
Proof.
  intros Hok Hc Hin Hout HN Hstart.
  assert (HL : 1 <= Z.of_nat (LanesCapped t) <= 4)
    by (destruct (LanesCapped_ok Hok) as [-> | ->]; lia).
  destruct (for_lt_inv
              (fun n (s : hstate) =>
                 n1 <= n /\ Z.of_nat (length (out s)) = xsize)
              (unrolled_end N xsize) (Z.of_nat (LanesCapped t))
              (unrolled_body t c N input))
    with (n := n1) (s := st)
    as (n2 & st2 & Hrun & ((Hn2 & Ho2) & Hend2)).
  { lia. }
  { intros n s (Hn & Hs) Hlt.
    destruct (unrolled_body_safe c N xsize input n s Hok Hc Hin Hs)
      as (s' & Hs' & Ho'); try lia.
    exists s'. split; [exact Hs'|]. split; [lia|exact Ho']. }
  { split; [lia|exact Hout]. }
  exists n2, st2. auto.
Qed.

(** The remainder loop, entered at [n0 >= 0], runs to its end inside the
    row. *)
Lemma right_loop_safe (c : hcoef) (N xsize n0 : Z) (input : list T)
    (st : hstate) :
  Z.of_nat (length input) = xsize -> Z.of_nat (length (out st)) = xsize ->
  - 1 <= N -> 0 <= n0 -> - N + 1 <= n0 ->
  exists n3 st3,
    for_lt n0 xsize 1 (checked_body t c N xsize input false) st = Ok (n3, st3)
    /\ Z.of_nat (length (out st3)) = xsize.
Proof.
  intros Hin Hout HN Hn0 Hn0'.
  destruct (for_lt_inv
              (fun n (s : hstate) =>
                 n0 <= n /\ Z.of_nat (length (out s)) = xsize)
              xsize 1 (checked_body t c N xsize input false))
    with (n := n0) (s := st)
    as (n3 & st3 & Hrun & ((Hn3 & Ho3) & Hend3)).
  { lia. }
  { intros n s (Hn & Hs) Hlt.
    destruct (checked_body_safe c N xsize input false n s Hin Hs)
      as (s' & Hs' & Ho'); try lia.
    exists s'. split; [exact Hs'|]. split; [lia|exact Ho']. }
  { split; [lia|exact Hout]. }
  exists n3, st3. auto.
Qed.


End HorizontalSafety.

(** Two bodies that agree on the values the loop variable takes give the
    same loop. *)
Lemma for_loop_ext {S : Type} (P : Z -> Prop) (cond : Z -> bool) (next : Z -> Z)
    (body1 body2 : Z -> S -> outcome S) :
  (forall i, P i -> cond i = true -> P (next i)) ->
  (forall i s, P i -> cond i = true -> body1 i s = body2 i s) ->
  forall fuel n s, P n ->
    for_loop fuel cond next body1 n s = for_loop fuel cond next body2 n s.
Proof.
  intros Hnext Hbody fuel.
  induction fuel as [|fuel IH]; intros n s HP; simpl; [reflexivity|].
  destruct (cond n) eqn:Hc; [|reflexivity].
  rewrite (Hbody n s HP Hc).
  destruct (body2 n s); simpl; auto.
Qed.

Lemma for_lt_ext {S : Type} (n bound step : Z) (body1 body2 : Z -> S -> outcome S)
    (s : S) :
  0 < step ->
  (forall i s, n <= i < bound -> body1 i s = body2 i s) ->
  for_lt n bound step body1 s = for_lt n bound step body2 s.
Proof.
  intros Hstep Hbody. unfold for_lt.
  apply for_loop_ext with (P := fun i => n <= i); [| |lia].
  - intros i Hi Hc. lia.
  - intros i s0 Hi Hc. apply Z.ltb_lt in Hc. apply Hbody. lia.
Qed.

(** ** C6: zero padding in the boundary phases *)

(** C6: in the two bounds-checked loops of [FastGaussian1D], at every step
    [n] the left operand is [in[n - radius - 1]] when that index is in the
    row and 0 otherwise, and the right operand is [in[n + radius - 1]] when
    that index is in the row and 0 otherwise; both loops run to their end
    without a read or a write outside the row. *)
Theorem boundary_phases_zero_pad {T : Type} {LT : Lane T} (t : Target)
    (c : hcoef) (N xsize : Z) (input : list T) :
  Z.of_nat (length input) = xsize -> 1 <= N ->
  (forall n, - N + 1 <= n < xsize ->
     left_val input N n = Ok (padded input (n - N - 1))
     /\ right_val input N xsize n = Ok (padded input (n + N - 1)))
  /\ (forall st,
        for_lt (- N + 1) (Z.min (first_aligned t N) xsize) 1
               (checked_body t c N xsize input true) st
        = for_lt (- N + 1) (Z.min (first_aligned t N) xsize) 1
               (fun n => checked_step t c true n (padded input (n - N - 1))
                                      (padded input (n + N - 1))) st)
  /\ (forall st n0, - N + 1 <= n0 ->
        for_lt n0 xsize 1 (checked_body t c N xsize input false) st
        = for_lt n0 xsize 1
               (fun n => checked_step t c false n (padded input (n - N - 1))
                                      (padded input (n + N - 1))) st)
  /\ (forall st, Z.of_nat (length (out st)) = xsize ->
        exists n1 st1,
          for_lt (- N + 1) (Z.min (first_aligned t N) xsize) 1
                 (checked_body t c N xsize input true) st = Ok (n1, st1))
  /\ (forall st n0, Z.of_nat (length (out st)) = xsize -> 0 <= n0 ->
        exists n3 st3,
          for_lt n0 xsize 1 (checked_body t c N xsize input false) st
          = Ok (n3, st3)).
Proof.
  intros Hin HN.
  split; [|split; [|split; [|split]]].
  - intros n Hn. split.
    + apply left_val_padded with (xsize := xsize); lia.
    + apply right_val_padded; lia.
  - intros st. apply for_lt_ext; [lia|].
    intros i s Hi. apply checked_body_padded; lia.
  - intros st n0 Hn0. apply for_lt_ext; [lia|].
    intros i s Hi. apply checked_body_padded; lia.
  - intros st Hout.
    destruct (left_loop_safe t c N xsize input st Hin Hout ltac:(lia))
      as (n1 & st1 & Hrun & _).
    exists n1, st1. exact Hrun.
  - intros st n0 Hout Hn0.
    destruct (right_loop_safe t c N xsize n0 input st Hin Hout)
      as (n3 & st3 & Hrun & _); try lia.
    exists n3, st3. exact Hrun.
Qed.

(** ** C10: the unrolled loop *)

(** C10: given [radius >= 1], the unrolled loop of [FastGaussian1D] starts
    at [min(first_aligned, xsize)], and at each of its steps [n] both
    unaligned loads, from [n - radius - 1] and from [n + radius - 1], and the
    store at [n] cover [Lanes(d)] indices inside [0, xsize); the loop runs to
    its end without an access outside the row. *)
Theorem unrolled_loop_in_bounds {T : Type} {LT : Lane T} (t : Target)
    (c : hcoef) (N xsize : Z) (input : list T) (st : hstate) :
  target_ok t -> hcoef_ok (LanesCapped t) c ->
  Z.of_nat (length input) = xsize -> Z.of_nat (length (out st)) = xsize ->
  1 <= N ->
  let L := Z.of_nat (LanesCapped t) in
  let n1 := Z.min (first_aligned t N) xsize in
  (forall n, n1 <= n < unrolled_end N xsize ->
     (0 <= n - N - 1 /\ n - N - 1 + L <= xsize)
     /\ (0 <= n + N - 1 /\ n + N - 1 + L <= xsize)
     /\ (0 <= n /\ n + L <= xsize))
  /\ exists n2 st2,
       for_lt n1 (unrolled_end N xsize) L (unrolled_body t c N input) st
       = Ok (n2, st2)
       /\ Z.of_nat (length (out st2)) = xsize.
Proof.
  intros Hok Hc Hin Hout HN L n1.
  pose proof (first_aligned_ge t N Hok) as Hfa.
  assert (HL : 1 <= L <= 4)
    by (unfold L; destruct (LanesCapped_ok t Hok) as [-> | ->]; lia).
  split.
  - intros n Hn. unfold unrolled_end, JXL_GAUSS_MAX_LANES in Hn.
    unfold n1 in Hn. lia.
  - destruct (unrolled_loop_safe t c N xsize n1 input st Hok Hc Hin Hout HN)
      as (n2 & st2 & Hrun & _ & Ho2).
    { unfold n1, unrolled_end, JXL_GAUSS_MAX_LANES. lia. }
    exists n2, st2. auto.
Qed.

Lemma boundary_phases_zero_pad_witness :
  (forall n, - 1 + 1 <= n < 12 ->
     left_val w_row 1 n = Ok (padded w_row (n - 1 - 1))
     /\ right_val w_row 1 12 n = Ok (padded w_row (n + 1 - 1)))
  /\ (forall st,
        for_lt (- 1 + 1) (Z.min (first_aligned (HWY_SIMD 4) 1) 12) 1
               (checked_body (HWY_SIMD 4) w_coef 1 12 w_row true) st
        = for_lt (- 1 + 1) (Z.min (first_aligned (HWY_SIMD 4) 1) 12) 1
               (fun n => checked_step (HWY_SIMD 4) w_coef true n
                           (padded w_row (n - 1 - 1))
                           (padded w_row (n + 1 - 1))) st)
  /\ (forall st n0, - 1 + 1 <= n0 ->
        for_lt n0 12 1 (checked_body (HWY_SIMD 4) w_coef 1 12 w_row false) st
        = for_lt n0 12 1
               (fun n => checked_step (HWY_SIMD 4) w_coef false n
                           (padded w_row (n - 1 - 1))
                           (padded w_row (n + 1 - 1))) st)
  /\ (forall st, Z.of_nat (length (out st)) = 12 ->
        exists n1 st1,
          for_lt (- 1 + 1) (Z.min (first_aligned (HWY_SIMD 4) 1) 12) 1
                 (checked_body (HWY_SIMD 4) w_coef 1 12 w_row true) st
          = Ok (n1, st1))
  /\ (forall st n0, Z.of_nat (length (out st)) = 12 -> 0 <= n0 ->
        exists n3 st3,
          for_lt n0 12 1 (checked_body (HWY_SIMD 4) w_coef 1 12 w_row false) st
          = Ok (n3, st3)).
Proof.
  apply (boundary_phases_zero_pad (HWY_SIMD 4) w_coef 1 12 w_row).
  - reflexivity.
  - lia.
Defined.

Lemma unrolled_loop_in_bounds_witness :
  let L := Z.of_nat (LanesCapped (HWY_SIMD 4)) in
  let n1 := Z.min (first_aligned (HWY_SIMD 4) 1) 12 in
  (forall n, n1 <= n < unrolled_end 1 12 ->
     (0 <= n - 1 - 1 /\ n - 1 - 1 + L <= 12)
     /\ (0 <= n + 1 - 1 /\ n + 1 - 1 + L <= 12)
     /\ (0 <= n /\ n + L <= 12))
  /\ exists n2 st2,
       for_lt n1 (unrolled_end 1 12) L
              (unrolled_body (HWY_SIMD 4) w_coef 1 w_row) w_hstate
       = Ok (n2, st2)
       /\ Z.of_nat (length (out st2)) = 12.
Proof.
  apply (unrolled_loop_in_bounds (HWY_SIMD 4) w_coef 1 12 w_row w_hstate).
  - simpl. repeat split; try lia; try reflexivity.
  - repeat split.
  - reflexivity.
  - reflexivity.
  - lia.
Defined.

(** ** The passes over a plane *)

Section PassSafety.
Context {T : Type} {LT : Lane T}.




End PassSafety.

(** ** C8: the status of the vertical pass *)

(** C8: [FastGaussianVertical] returns a failure status exactly when
    [AlignedMemory::Create] fails, and then the output plane is as it was;
    when the allocation succeeds the call runs to its end and returns
    success. *)
Theorem FastGaussianVertical_status {T : Type} {LT : Lane T} (t : Target)
    (memory_manager : Z -> option (list T)) (rg : RecursiveGaussian T)
    (xsize ysize : Z) (input output : list (list T)) :
  target_ok t -> allocator_ok memory_manager -> tables_ok rg ->
  1 <= radius rg < 2 ^ 62 -> 0 <= xsize < 2 ^ 62 -> 0 <= ysize < 2 ^ 62 ->
  rows_ok input ysize (RoundUpTo xsize (Z.of_nat (LanesFull t))) ->
  rows_ok output ysize (RoundUpTo xsize (Z.of_nat (LanesFull t))) ->
  exists status out',
    FastGaussianVertical t memory_manager rg xsize ysize input output
    = Ok (status, out')
    /\ (status = false <-> memory_manager (scratch_size_of t) = None)
    /\ (status = false -> out' = output).
Proof.
  intros Hok Halloc Htab Hrad Hxs Hys Hin Hout.
  pose proof (FastGaussianVertical_run t memory_manager rg xsize ysize
                input output Hok Halloc Htab Hrad Hxs Hys Hin Hout) as Hrun.
  destruct (memory_manager (scratch_size_of t)) as [mem|].
  - destruct Hrun as (out' & Hrun & _).
    exists true, out'. split; [exact Hrun|].
    split; [split; discriminate | discriminate].
  - exists false, output. split; [exact Hrun|].
    split; [split; reflexivity | reflexivity].
Qed.

(** ** C9: the rows of the planes *)


Lemma w_alloc_ok : allocator_ok w_alloc.
Proof.
  intros bytes mem. unfold w_alloc, sizeof_float.
  destruct (0 <=? bytes) eqn:E0; [|discriminate].
  destruct (bytes mod 4 =? 0) eqn:E1; [|discriminate].
  simpl. intros H. inversion H. rewrite repeat_length.
  apply Z.leb_le in E0. apply Z.eqb_eq in E1.
  pose proof (Z.div_mod bytes 4 ltac:(lia)).
  assert (0 <= bytes / 4) by (apply Z.div_pos; lia).
  lia.
Qed.

Lemma FastGaussianVertical_status_witness :
  exists status out',
    FastGaussianVertical (HWY_SIMD 4) w_alloc w_rg 5 3
      (repeat (repeat 1 8%nat) 3%nat) (repeat (repeat 0 8%nat) 3%nat)
    = Ok (status, out')
    /\ (status = false <-> w_alloc (scratch_size_of (HWY_SIMD 4)) = None)
    /\ (status = false -> out' = repeat (repeat 0 8%nat) 3%nat).
Proof.
  apply (FastGaussianVertical_status (HWY_SIMD 4) w_alloc w_rg 5 3
           (repeat (repeat 1 8%nat) 3%nat) (repeat (repeat 0 8%nat) 3%nat)).
  - simpl. repeat split; try lia; try reflexivity.
  - exact w_alloc_ok.
  - repeat split.
  - simpl. lia.
  - lia.
  - lia.
  - split; [reflexivity|]. repeat constructor; vm_compute; discriminate.
  - split; [reflexivity|]. repeat constructor; vm_compute; discriminate.
Defined.



(** ** The filter designer: proofs *)

Section DesignerProofs.
Import Designer.
Local Open Scope R_scope.

Lemma floor_unique (x : R) (z : Z) :
  IZR z <= x < IZR z + 1 -> floor x = z.
Proof.
  intros [H0 H1]. unfold floor.
  assert (E : (z + 1)%Z = up x).
  { apply tech_up; rewrite plus_IZR; simpl; lra. }
  rewrite <- E. lia.
Qed.

(** [std::round] on a positive and on a negative argument. *)
Lemma round_nonneg (x : R) (z : Z) :
  0 <= x -> IZR z - / 2 <= x < IZR z + / 2 -> round x = z.
Proof.
  intros Hx H. unfold round.
  destruct (Rle_dec 0 x) as [_|Hn]; [|contradiction].
  apply floor_unique. lra.
Qed.



(** When the determinant is not 0, [Inv3x3Matrix] gives a right inverse:
    the first row of [A] times [A^-1 v] is the first entry of [v]. *)
Lemma Inv3x3Matrix_regular (A : Matrix3x3d) :
  det3 A <> 0 ->
  exists A', Inv3x3Matrix A = (true, A') /\
    forall x y z,
      let '(b0, b1, b2) := Mul3x3Vector A' (x, y, z) in
      let '(a, b, c) := fst (fst A) in
      a * b0 + b * b1 + c * b2 = x.
Proof.
  intros H. unfold Inv3x3Matrix.
  destruct A as [[[[a b] c] [[d e] f]] [[g h] i]].
  destruct (Req_dec_T _ 0) as [Hz|_]; [contradiction|].
  eexists. split; [reflexivity|].
  intros x y z. unfold Mul3x3Vector. cbn [fst].
  unfold det3 in *. field. exact H.
Qed.

(** The first row of the matrix is [p], and its determinant is
    [D_13 + (D_35^2 + D_51^2) / D_13]. *)
Lemma design_first_row (sigma : R) :
  fst (fst (d_A (design_of sigma))) = d_p (design_of sigma).
Proof. reflexivity. Qed.

Lemma det_zero_iff_D13 (sigma : R) :
  det3 (d_A (design_of sigma)) = 0 <-> D_13_of sigma = 0.
Proof.
  unfold D_13_of, design_of. cbv zeta. cbn [d_A d_p d_r].
  set (radius := IZR (round (radius_arg sigma))).
  set (w := PI / (2 * radius)).
  set (p_1 := 1 / tan (/ 2 * w)).
  set (p_3 := - 1 / tan (/ 2 * (3 * w))).
  set (p_5 := 1 / tan (/ 2 * (5 * w))).
  set (r_1 := p_1 * p_1 / sin w).
  set (r_3 := - p_3 * p_3 / sin (3 * w)).
  set (r_5 := p_5 * p_5 / sin (5 * w)).
  set (D13 := p_1 * r_3 - r_1 * p_3).
  set (D35 := p_3 * r_5 - r_3 * p_5).
  set (D51 := p_5 * r_1 - r_5 * p_1).
  unfold det3.
  destruct (Req_dec_T D13 0) as [Hz|Hn].
  - split; [intros _; exact Hz|intros _].
    replace (1 / D13) with 0
      by (rewrite Hz; unfold Rdiv; rewrite Rinv_0; ring).
    transitivity D13; [unfold D13; ring | exact Hz].
  - split; [|intros H; contradiction].
    intros H. exfalso.
    assert (E : p_1 * (r_3 * 1 - r_5 * (D51 * (1 / D13)))
                - p_3 * (r_1 * 1 - r_5 * (D35 * (1 / D13)))
                + p_5 * (r_1 * (D51 * (1 / D13)) - r_3 * (D35 * (1 / D13)))
                = (D13 * D13 + D35 * D35 + D51 * D51) / D13).
    { unfold D13, D35, D51 in *. field. exact Hn. }
    rewrite E in H.
    assert (Hpos : 0 < D13 * D13 + D35 * D35 + D51 * D51).
    { assert (0 < D13 * D13) by nra.
      assert (0 <= D35 * D35) by nra.
      assert (0 <= D51 * D51) by nra. lra. }
    apply Rmult_integral in H. destruct H as [H|H]; [lra|].
    apply Rinv_neq_0_compat in Hn. contradiction.
Qed.


Lemma D_13_of_D13x (sigma : R) :
  D_13_of sigma = D13x (/ 2 * (PI / (2 * IZR (round (radius_arg sigma))))).
Proof.
  unfold D_13_of, design_of, D13x. cbv zeta. cbn [d_p d_r].
  set (w := PI / (2 * IZR (round (radius_arg sigma)))).
  replace (2 * (/ 2 * w)) with w by field.
  replace (3 * (/ 2 * w)) with (/ 2 * (3 * w)) by field.
  replace (2 * (/ 2 * (3 * w))) with (3 * w) by field.
  reflexivity.
Qed.

Lemma D13x_even (x : R) : D13x (- x) = D13x x.
Proof.
  unfold D13x. cbv zeta.
  replace (3 * - x) with (- (3 * x)) by ring.
  replace (2 * - x) with (- (2 * x)) by ring.
  replace (2 * - (3 * x)) with (- (2 * (3 * x))) by ring.
  rewrite !tan_neg, !sin_neg. unfold Rdiv.
  rewrite !Rinv_opp. ring.
Qed.

Lemma D13x_0 : D13x 0 = 0.
Proof.
  unfold D13x. cbv zeta. rewrite tan_0. unfold Rdiv. rewrite Rinv_0. ring.
Qed.

Lemma tan_3PI4 : tan (3 * (PI / 4)) = - 1.
Proof.
  unfold tan. rewrite sin_3PI4, cos_3PI4.
  assert (H : sqrt 2 <> 0).
  { apply Rgt_not_eq. apply sqrt_lt_R0. lra. }
  field. exact H.
Qed.

Lemma D13x_PI4 : D13x (PI / 4) = 0.
Proof.
  unfold D13x. cbv zeta.
  rewrite tan_PI4, tan_3PI4.
  replace (2 * (PI / 4)) with (PI / 2) by field.
  replace (2 * (3 * (PI / 4))) with (3 * (PI / 2)) by field.
  rewrite sin_PI2, sin_3PI2. field.
Qed.

Lemma D13x_pos (x : R) : 0 < x <= PI / 8 -> D13x x <> 0.
Proof.
  intros [H0 H1].
  pose proof PI_RGT_0 as Hpi.
  assert (Ha : 0 < sin x) by (apply sin_gt_0; lra).
  assert (Hb : 0 < cos x) by (apply cos_gt_0; lra).
  assert (Hc : 0 < sin (3 * x)) by (apply sin_gt_0; lra).
  assert (Hd : 0 < cos (3 * x)) by (apply cos_gt_0; lra).
  assert (Hlt : sin x < sin (3 * x)) by (apply sin_increasing_1; lra).
  unfold D13x. cbv zeta. unfold tan. rewrite !sin_2a.
  set (a := sin x) in *. set (b := cos x) in *.
  set (c := sin (3 * x)) in *. set (d := cos (3 * x)) in *.
  assert (E : 1 / (a / b) * (- (- 1 / (c / d)) * (- 1 / (c / d)) / (2 * c * d))
              - 1 / (a / b) * (1 / (a / b)) / (2 * a * b) * (- 1 / (c / d))
              = b * d * ((c - a) * (c + a)) / (2 * (a * a * a) * (c * c * c))).
  { field. repeat split; lra. }
  rewrite E.
  apply Rgt_not_eq. apply Rdiv_lt_0_compat.
  - repeat apply Rmult_lt_0_compat; lra.
  - repeat apply Rmult_lt_0_compat; lra.
Qed.

(** The matrix of the designer is singular exactly for the radii -1, 0
    and 1. *)
Lemma D13_zero_iff_radius (sigma : R) :
  D_13_of sigma = 0 <-> (- 1 <= round (radius_arg sigma) <= 1)%Z.
Proof.
  rewrite D_13_of_D13x.
  set (r := round (radius_arg sigma)).
  pose proof PI_RGT_0 as Hpi.
  split.
  - intros H.
    destruct (Z_lt_le_dec r 2) as [Hlt|Hge];
      [destruct (Z_lt_le_dec (- 2) r) as [Hgt|Hle]; [lia|]|]; exfalso.
    + (* r <= -2 *)
      rewrite <- D13x_even in H. revert H. apply D13x_pos.
      assert (Hr : IZR r <= - 2) by (apply IZR_le in Hle; exact Hle).
      assert (Hu : 0 < / (2 * - IZR r) <= / 4).
      { split; [apply Rinv_0_lt_compat; lra|].
        apply Rinv_le_contravar; lra. }
      replace (- (/ 2 * (PI / (2 * IZR r))))
        with (/ 2 * PI * / (2 * - IZR r)) by (field; lra).
      nra.
    + (* 2 <= r *)
      revert H. apply D13x_pos.
      assert (Hr : 2 <= IZR r) by (apply IZR_le in Hge; exact Hge).
      assert (Hu : 0 < / (2 * IZR r) <= / 4).
      { split; [apply Rinv_0_lt_compat; lra|].
        apply Rinv_le_contravar; lra. }
      unfold Rdiv. nra.
  - intros Hr.
    assert (Hcases : r = (- 1)%Z \/ r = 0%Z \/ r = 1%Z) by lia.
    destruct Hcases as [-> | [-> | ->]].
    + replace (/ 2 * (PI / (2 * -1))) with (- (PI / 4)) by field.
      rewrite D13x_even. apply D13x_PI4.
    + replace (/ 2 * (PI / (2 * 0))) with 0
        by (unfold Rdiv; rewrite Rmult_0_r, Rinv_0; ring).
      apply D13x_0.
    + replace (/ 2 * (PI / (2 * 1))) with (PI / 4) by field.
      apply D13x_PI4.
Qed.


(** With an inverted matrix the sum of (39) is exactly 1. *)
Lemma normalization_regular (sigma : R) (A' : Matrix3x3d) :
  det3 (d_A (design_of sigma)) <> 0 ->
  Inv3x3Matrix (d_A (design_of sigma)) = (true, A') ->
  normalization_sum sigma A' = 1.
Proof.
  intros Hdet Hinv.
  destruct (Inv3x3Matrix_regular _ Hdet) as (A'' & Hinv' & Hrow).
  rewrite Hinv in Hinv'. inversion Hinv'; subst A''. clear Hinv'.
  unfold normalization_sum, beta_of. cbv zeta.
  rewrite design_first_row in Hrow.
  destruct (d_rho (design_of sigma)) as [[rho0 rho1] rho2].
  destruct (d_zeta (design_of sigma)) as [zeta_15 zeta_35].
  destruct (d_p (design_of sigma)) as [[p_1 p_3] p_5].
  specialize (Hrow 1 (d_radius (design_of sigma) * d_radius (design_of sigma)
                      - sigma * sigma)
                   (zeta_15 * rho0 + zeta_35 * rho1 + rho2)).
  destruct (Mul3x3Vector A' _) as [[b0 b1] b2].
  rewrite <- Hrow. ring.
Qed.

Lemma tolerance_pos : 0 < 1 / 10 ^ 12.
Proof. apply Rdiv_lt_0_compat; [lra|]. apply pow_lt. lra. Qed.

(** With a regular matrix both assertions hold, in every build. *)
Lemma CreateRecursiveGaussian_regular (sigma : R) :
  det3 (d_A (design_of sigma)) <> 0 ->
  (- 2 ^ 31 <= round (radius_arg sigma) < 2 ^ 31)%Z ->
  exists rg,
    (forall dassert, CreateRecursiveGaussian dassert sigma = Ok rg)
    /\ radius rg = round (radius_arg sigma).
Proof.
  intros Hdet Hrange.
  destruct (Inv3x3Matrix_regular _ Hdet) as (A' & Hinv & _).
  pose proof (normalization_regular sigma A' Hdet Hinv) as Hsum.
  unfold CreateRecursiveGaussian. cbv zeta.
  destruct (d_omega (design_of sigma)) as [[omega0 omega1] omega2].
  rewrite Hinv, Hsum.
  destruct (beta_of sigma A') as [[beta0 beta1] beta2].
  assert (Hcheck : Rltb (Rabs (1 - 1)) (1 / 10 ^ 12) = true).
  { unfold Rltb. destruct (Rlt_dec _ _) as [_|Hn]; [reflexivity|].
    exfalso. apply Hn. replace (1 - 1) with 0 by ring. rewrite Rabs_R0.
    exact tolerance_pos. }
  rewrite Hcheck.
  assert (Hcast : static_cast_int (round (radius_arg sigma))
                  = Ok (round (radius_arg sigma))).
  { unfold static_cast_int.
    destruct (- 2 ^ 31 <=? round (radius_arg sigma))%Z eqn:E1;
      [|apply Z.leb_gt in E1; lia].
    destruct (round (radius_arg sigma) <? 2 ^ 31)%Z eqn:E2;
      [|apply Z.ltb_ge in E2; lia].
    reflexivity. }
  rewrite Hcast.
  eexists. split.
  - intros dassert. unfold JXL_DASSERT.
    rewrite !andb_false_r. cbn [bind negb]. reflexivity.
  - reflexivity.
Qed.



Lemma CreateRecursiveGaussian_radius (dassert : bool) (sigma : R)
    (rg : RecursiveGaussian R) :
  CreateRecursiveGaussian dassert sigma = Ok rg ->
  radius rg = round (radius_arg sigma).
Proof.
  unfold CreateRecursiveGaussian. cbv zeta.
  destruct (d_omega (design_of sigma)) as [[omega0 omega1] omega2].
  destruct (Inv3x3Matrix _) as [status A].
  destruct (beta_of sigma A) as [[beta0 beta1] beta2].
  destruct (JXL_DASSERT dassert status); cbn [bind]; try discriminate.
  destruct (JXL_DASSERT dassert _); cbn [bind]; try discriminate.
  unfold static_cast_int.
  destruct (_ && _)%bool; cbn [bind]; [|discriminate].
  intros H. inversion H. reflexivity.
Qed.


Lemma round_plus1 : round (radius_arg 1) = 4%Z.
Proof. apply round_nonneg; unfold radius_arg; lra. Qed.


Lemma floor_bounds (x : R) : IZR (floor x) <= x < IZR (floor x) + 1.
Proof.
  unfold floor. rewrite minus_IZR. simpl.
  destruct (archimed x) as [H0 H1]. lra.
Qed.

(** The rounded value is at least 1 exactly from one half on. *)
Lemma round_ge_1 (x : R) : (1 <= round x)%Z <-> / 2 <= x.
Proof.
  unfold round.
  destruct (Rle_dec 0 x) as [Hp|Hn].
  - pose proof (floor_bounds (x + / 2)) as [H0 H1]. split.
    + intros H. apply IZR_le in H. lra.
    + intros H. assert (Hlt : 0 < IZR (floor (x + / 2))) by lra.
      apply lt_IZR in Hlt. lia.
  - pose proof (floor_bounds (- x + / 2)) as [H0 H1]. split.
    + intros H. assert (Hle : (floor (- x + / 2) <= - 1)%Z) by lia.
      apply IZR_le in Hle. lra.
    + intros H. lra.
Qed.

Lemma det_zero_iff_radius (sigma : R) :
  det3 (d_A (design_of sigma)) = 0
  <-> (- 1 <= round (radius_arg sigma) <= 1)%Z.
Proof.
  rewrite det_zero_iff_D13. apply D13_zero_iff_radius.
Qed.


End DesignerProofs.


(** ** C3: when the designer fails *)



(** ** C4: the normalization of the coefficients *)

Section NormalizationProofs.
Import Designer.
Local Open Scope R_scope.












End NormalizationProofs.




(** ** C5: the radius *)






(** * What the passes compute *)

(** ** The horizontal kernel in direct form *)

Lemma load_coef_fill (t : Target) (n2_ d1_ : R * R * R) (N : Z) :
  target_ok t ->
  load_coef t (fill_tables n2_ d1_ N) = Ok (coef_of t n2_ d1_).
Proof.
  intros Hok.
  destruct n2_ as [[n2_0 n2_1] n2_2], d1_ as [[d1_0 d1_1] d1_2].
  unfold load_coef, coef_of, fill_tables. cbv zeta.
  destruct (LanesCapped_ok t Hok) as [-> | ->]; reflexivity.
Qed.

Lemma coef_of_ok (t : Target) (n2_ d1_ : R * R * R) :
  target_ok t -> hcoef_ok (LanesCapped t) (coef_of t n2_ d1_).
Proof.
  intros Hok.
  destruct n2_ as [[n2_0 n2_1] n2_2], d1_ as [[d1_0 d1_1] d1_2].
  unfold coef_of, hcoef_ok.
  destruct (LanesCapped_ok t Hok) as [-> | ->]; repeat split; reflexivity.
Qed.

Lemma GetLane_getz (v : list R) : hwy.GetLane v = getz v 0.
Proof. destruct v; reflexivity. Qed.

Lemma length1 (v : list R) : length v = 1%nat -> v = [getz v 0].
Proof. destruct v as [|a [|b v]]; try discriminate. reflexivity. Qed.

Lemma SetV_getz (L : nat) (x : R) (i : Z) :
  0 <= i < Z.of_nat L -> getz (hwy.SetV L x) i = x.
Proof.
  intros Hi. unfold getz, hwy.SetV. apply nth_repeat_lt. lia.
Qed.

Lemma mode_all_head (L : nat) (prev prev2 : list R) (s : R * R) :
  (1 <= L)%nat -> mode_all L prev prev2 s -> mode_head L prev prev2 s.
Proof.
  intros HL [-> ->]. unfold mode_head, hwy.SetV.
  rewrite !repeat_length. repeat split; apply SetV_getz; lia.
Qed.

Section HorizontalDirect.
Variable t : Target.
Variables (n2_ d1_ : R * R * R) (N xsize : Z) (input output : list R).
Hypothesis Hok : target_ok t.
Hypothesis HN : 1 <= N.
Hypothesis Hx : 0 <= xsize <= Z.of_nat (length input).
Hypothesis Hout : xsize <= Z.of_nat (length output).

Let L := LanesCapped t.
Let c := coef_of t n2_ d1_.
Let f := row_signal xsize input.
Let u := taps N f.
Let F := direct_filter n2_ d1_ N f.

(** One mode of a bounds-checked step is a step of the direct form in
    lane 0. *)
Lemma single_out_head (n d x : R) (prev prev2 : list R) (s : R * R) :
  mode_head L prev prev2 s ->
  mode_head L
    (single_out (firstn L (mul_in_lanes n d)) (firstn L (mul_prev_lanes d))
                (firstn L (mul_prev2_lanes d)) (hwy.SetV L x) prev prev2)
    prev (direct_step n d x (fst s) (snd s), fst s).
Proof.
  intros (H1 & H2 & H3 & H4). unfold mode_head. cbn [fst snd].
  rewrite <- H3, <- H4. clear H3 H4.
  unfold L in *.
  destruct (LanesCapped_ok t Hok) as [E|E]; rewrite E in *.
  - destruct prev as [|a [|? ?]]; try discriminate.
    destruct prev2 as [|b [|? ?]]; try discriminate.
    repeat split. cbn. unfold direct_step. cbn. ring.
  - destruct prev as [|a0 [|a1 [|a2 [|a3 [|? ?]]]]]; try discriminate.
    destruct prev2 as [|b0 [|b1 [|b2 [|b3 [|? ?]]]]]; try discriminate.
    repeat split. cbn. unfold direct_step. cbn. ring.
Qed.

Lemma direct_state_S (n d : R) (v : nat -> R) (j : nat) :
  direct_state n d v (S j)
  = (direct_step n d (v j) (fst (direct_state n d v j))
                 (snd (direct_state n d v j)),
     fst (direct_state n d v j)).
Proof. simpl. destruct (direct_state n d v j). reflexivity. Qed.

(** A bounds-checked step moves the three modes one step on and writes
    their sum at [n]. *)
Lemma checked_step_direct (guard : bool) (n : Z) (l r : R) (j : nat)
    (st : hstate) :
  hstate_at mode_head t n2_ d1_ u j st -> (l + r)%R = u j ->
  (guard = true /\ n < 0) \/ 0 <= n < Z.of_nat (length (out st)) ->
  exists st',
    checked_step t c guard n l r st = Ok st'
    /\ hstate_at mode_head t n2_ d1_ u (S j) st'
    /\ length (out st') = length (out st)
    /\ (0 <= n -> getz (out st') n = modes_out n2_ d1_ u j)
    /\ (forall m, 0 <= m -> m <> n -> getz (out st') m = getz (out st) m).
Proof.
  unfold c, hstate_at, modes_out, coef_of.
  destruct n2_ as [[n2_0 n2_1] n2_2], d1_ as [[d1_0 d1_1] d1_2].
  intros (M1 & M3 & M5) Hsum Hn.
  unfold checked_step. cbv zeta.
  cbn [mul_in_1 mul_in_3 mul_in_5 mul_prev_1 mul_prev_3 mul_prev_5
       mul_prev2_1 mul_prev2_3 mul_prev2_5].
  fold L. change lane_add with Rplus. rewrite Hsum.
  pose proof (single_out_head n2_0 d1_0 (u j) _ _ _ M1) as S1.
  pose proof (single_out_head n2_1 d1_1 (u j) _ _ _ M3) as S3.
  pose proof (single_out_head n2_2 d1_2 (u j) _ _ _ M5) as S5.
  rewrite <- !direct_state_S in S1, S3, S5.
  set (o1 := single_out _ _ _ _ (prev_1 st) _) in *.
  set (o3 := single_out _ _ _ _ (prev_3 st) _) in *.
  set (o5 := single_out _ _ _ _ (prev_5 st) _) in *.
  assert (HL : (1 <= L)%nat)
    by (unfold L; destruct (LanesCapped_ok t Hok) as [-> | ->]; lia).
  assert (Hsumv : hwy.GetLane (hwy.Add o1 (hwy.Add o3 o5))
                  = (fst (direct_state n2_0 d1_0 u (S j))
                     + (fst (direct_state n2_1 d1_1 u (S j))
                        + fst (direct_state n2_2 d1_2 u (S j))))%R).
  { rewrite GetLane_getz. unfold hwy.Add.
    destruct S1 as (A1 & _ & B1 & _), S3 as (A3 & _ & B3 & _),
             S5 as (A5 & _ & B5 & _).
    rewrite zip_with_getz;
      [|lia| rewrite zip_with_length, A1, A3, A5; lia].
    rewrite zip_with_getz; [|lia|lia].
    rewrite B1, B3, B5. reflexivity. }
  destruct (guard && negb (0 <=? n))%bool eqn:G.
  - cbn [bind]. eexists. split; [reflexivity|]. cbn [prev_1 prev_3 prev_5
      prev2_1 prev2_3 prev2_5 out].
    split; [auto|]. split; [reflexivity|].
    apply andb_prop in G. destruct G as [_ G].
    apply negb_true_iff, Z.leb_gt in G.
    split; [intros; lia | reflexivity].
  - assert (Hn' : 0 <= n < Z.of_nat (length (out st))).
    { destruct Hn as [[-> Hneg]|Hn]; [|exact Hn].
      cbn [andb] in G. apply negb_false_iff, Z.leb_le in G. lia. }
    unfold hwy.write.
    destruct (hwy.Store _ (out st) n) as [o'| | | |] eqn:St;
      try (rewrite Store_ok in St by (cbn [length]; lia); discriminate).
    destruct (Store_getz _ _ _ _ St) as (Hlen & Hin & Hfar).
    cbn [bind]. eexists. split; [reflexivity|]. cbn [prev_1 prev_3 prev_5
      prev2_1 prev2_3 prev2_5 out].
    split; [auto|]. split; [exact Hlen|]. split.
    + intros _. specialize (Hin 0 ltac:(cbn [length]; lia)).
      rewrite Z.add_0_r in Hin. rewrite Hin. cbn. exact Hsumv.
    + intros m Hm Hne. apply Hfar; [exact Hm|]. cbn [length]. lia.
Qed.

Lemma row_signal_in (i : Z) : 0 <= i < xsize -> f i = getz input i.
Proof.
  intros Hi. unfold f, row_signal.
  destruct (Z.leb_spec 0 i); [|lia].
  destruct (Z.ltb_spec i xsize); [|lia]. reflexivity.
Qed.

Lemma row_signal_out (i : Z) : i < 0 \/ xsize <= i -> f i = 0%R.
Proof.
  intros Hi. unfold f, row_signal.
  destruct (Z.leb_spec 0 i); [|reflexivity].
  destruct (Z.ltb_spec i xsize); [lia|reflexivity].
Qed.

(** The two operands of a bounds-checked step are the samples of the
    zero-padded row. *)
Lemma left_val_signal (n : Z) :
  n < xsize + N + 1 -> left_val input N n = Ok (f (n - N - 1)).
Proof.
  intros Hn. unfold left_val. cbv zeta.
  destruct (Z.leb_spec 0 (n - N - 1)).
  - rewrite read_getz by lia. rewrite row_signal_in by lia. reflexivity.
  - rewrite row_signal_out by lia. reflexivity.
Qed.

Lemma right_val_signal (n : Z) :
  - N + 1 <= n -> right_val input N xsize n = Ok (f (n + N - 1)).
Proof.
  intros Hn. unfold right_val. cbv zeta.
  destruct (Z.ltb_spec (n + N - 1) xsize).
  - rewrite read_getz by lia. rewrite row_signal_in by lia. reflexivity.
  - rewrite row_signal_out by lia. reflexivity.
Qed.

Local Abbreviation checked_inv := (checked_inv t n2_ d1_ N xsize input output).

Lemma checked_body_direct (guard : bool) (n : Z) (st : hstate) :
  checked_inv n st -> n < xsize -> guard = true \/ 0 <= n ->
  exists st',
    checked_body t c N xsize input guard n st = Ok st'
    /\ checked_inv (n + 1) st'.
Proof.
  intros (Hn & Hst & Hlen & Hlow & Hhigh) Hlt Hg.
  unfold checked_body.
  rewrite left_val_signal by lia. rewrite right_val_signal by lia.
  cbn [bind].
  destruct (checked_step_direct guard n (f (n - N - 1)) (f (n + N - 1))
              (Z.to_nat (n + N - 1)) st Hst) as (st' & Hrun & Hst' & Hl & Hw & Hfar).
  { unfold u, taps. rewrite Z2Nat.id by lia. f_equal; f_equal; lia. }
  { destruct (Z.lt_ge_cases n 0) as [Hneg|Hpos].
    - left. destruct Hg; [auto | lia].
    - right. lia. }
  exists st'. split; [exact Hrun|].
  split; [lia|]. split.
  - replace (Z.to_nat (n + 1 + N - 1)) with (S (Z.to_nat (n + N - 1))) by lia.
    exact Hst'.
  - split; [congruence|]. split.
    + intros m Hm. destruct (Z.eq_dec m n) as [->|Hne].
      * rewrite Hw by lia. reflexivity.
      * rewrite Hfar by lia. apply Hlow. lia.
    + intros m Hm Hge. rewrite Hfar by lia. apply Hhigh; lia.
Qed.

Lemma checked_loop_direct (guard : bool) (n bound : Z) (st : hstate) :
  checked_inv n st -> bound <= xsize -> n <= bound ->
  guard = true \/ 0 <= n ->
  exists st',
    for_lt n bound 1 (checked_body t c N xsize input guard) st = Ok (bound, st')
    /\ checked_inv bound st'.
Proof.
  intros Hinv Hb Hnb Hg.
  destruct (for_lt_inv
              (fun i s => checked_inv i s /\ n <= i <= bound)
              bound 1 (checked_body t c N xsize input guard))
    with (n := n) (s := st) as (n' & st' & Hrun & [Hinv' Hr] & Hge); try lia.
  - intros i s [Hi Hr] Hlt.
    destruct (checked_body_direct guard i s Hi ltac:(lia)) as (s' & Hs' & Hi').
    { destruct Hg; [auto | right; lia]. }
    exists s'. split; [exact Hs'|]. split; [exact Hi' | lia].
  - split; [exact Hinv | lia].
  - assert (n' = bound) by lia. subst n'.
    exists st'. auto.
Qed.

Local Abbreviation unrolled_inv := (unrolled_inv t n2_ d1_ N xsize input output).

Lemma length4 (v : list R) :
  length v = 4%nat -> v = [getz v 0; getz v 1; getz v 2; getz v 3].
Proof.
  destruct v as [|a0 [|a1 [|a2 [|a3 [|? ?]]]]]; try discriminate. reflexivity.
Qed.

(** One mode of an unrolled step is [Lanes(d)] steps of the direct form. *)
Lemma unrolled_out_mode (n d : R) (sum prev prev2 : list R) (j : nat) :
  mode_all L prev prev2 (direct_state n d u j) ->
  length sum = L ->
  (forall q, (q < L)%nat -> getz sum (Z.of_nat q) = u (j + q)%nat) ->
  let o := unrolled_out t (firstn L (mul_in_lanes n d))
             (firstn L (mul_prev_lanes d)) (firstn L (mul_prev2_lanes d))
             sum prev prev2 in
  length o = L
  /\ (forall q, (q < L)%nat ->
        getz o (Z.of_nat q) = fst (direct_state n d u (S (j + q))))
  /\ mode_all L (next_prev t o) (next_prev2 t prev o)
              (direct_state n d u (j + L)).
Proof.
  intros [Hp Hpp] Hlen Hsum. cbv zeta. unfold L in *.
  destruct t as [|l].
  - (* HWY_SCALAR: one lane *)
    change (LanesCapped HWY_SCALAR) with 1%nat in *.
    rewrite (length1 sum Hlen), Hp, Hpp.
    specialize (Hsum 0%nat ltac:(lia)). cbn [Z.of_nat] in Hsum. rewrite Hsum.
    replace (j + 0)%nat with j by lia.
    replace (j + 1)%nat with (S j) by lia.
    set (p := fst (direct_state n d u j)).
    set (pp := snd (direct_state n d u j)).
    assert (E : unrolled_out HWY_SCALAR (firstn 1 (mul_in_lanes n d))
                  (firstn 1 (mul_prev_lanes d)) (firstn 1 (mul_prev2_lanes d))
                  [u j] (hwy.SetV 1 p) (hwy.SetV 1 pp)
                = [direct_step n d (u j) p pp]).
    { unfold direct_step. cbn. f_equal. ring. }
    rewrite E. split; [reflexivity|]. split.
    + intros q Hq. assert (q = 0%nat) by lia. subst q.
      replace (j + 0)%nat with j by lia. rewrite direct_state_S. reflexivity.
    + rewrite direct_state_S. split; reflexivity.
  - (* vectors: four lanes *)
    assert (E4l : LanesCapped (HWY_SIMD l) = 4%nat)
      by (apply LanesCapped_simd; destruct Hok; assumption).
    rewrite E4l in Hlen, Hsum, Hp, Hpp |- *.
    rewrite (length4 sum Hlen), Hp, Hpp.
    pose proof (Hsum 0%nat ltac:(lia)) as S0.
    pose proof (Hsum 1%nat ltac:(lia)) as S1.
    pose proof (Hsum 2%nat ltac:(lia)) as S2.
    pose proof (Hsum 3%nat ltac:(lia)) as S3.
    change (Z.of_nat 0) with 0 in S0. change (Z.of_nat 1) with 1 in S1.
    change (Z.of_nat 2) with 2 in S2. change (Z.of_nat 3) with 3 in S3.
    rewrite S0, S1, S2, S3. clear S0 S1 S2 S3 Hsum.
    change (firstn 4 (mul_in_lanes n d)) with (mul_in_lanes n d).
    change (firstn 4 (mul_prev_lanes d)) with (mul_prev_lanes d).
    change (firstn 4 (mul_prev2_lanes d)) with (mul_prev2_lanes d).
    destruct (unrolled_out_direct4 l n d (u (j + 0)%nat) (u (j + 1)%nat)
                (u (j + 2)%nat) (u (j + 3)%nat)
                (fst (direct_state n d u j)) (snd (direct_state n d u j)))
      as (E & Enp & Enp2).
    rewrite E in *.
    replace (j + 0)%nat with j in * by lia.
    replace (j + 1)%nat with (S j) in * by lia.
    replace (j + 2)%nat with (S (S j)) in * by lia.
    replace (j + 3)%nat with (S (S (S j))) in * by lia.
    replace (j + 4)%nat with (S (S (S (S j)))) in * by lia.
    assert (E4 : direct4 n d (u j) (u (S j)) (u (S (S j))) (u (S (S (S j))))
                   (fst (direct_state n d u j)) (snd (direct_state n d u j))
                 = [fst (direct_state n d u (S j));
                    fst (direct_state n d u (S (S j)));
                    fst (direct_state n d u (S (S (S j))));
                    fst (direct_state n d u (S (S (S (S j)))))]).
    { unfold direct4. cbv zeta.
      rewrite (direct_state_S n d u (S (S (S j)))),
              (direct_state_S n d u (S (S j))),
              (direct_state_S n d u (S j)).
      cbn [fst snd].
      rewrite (direct_state_S n d u j). cbn [fst snd]. reflexivity. }
    rewrite E4 in *.
    split; [reflexivity|]. split.
    + intros q Hq.
      destruct q as [|[|[|[|q]]]]; try lia;
        [ replace (j + 0)%nat with j by lia
        | replace (j + 1)%nat with (S j) by lia
        | replace (j + 2)%nat with (S (S j)) by lia
        | replace (j + 3)%nat with (S (S (S j))) by lia ]; reflexivity.
    + split.
      * rewrite Enp. reflexivity.
      * rewrite Enp2. cbn [nth].
        rewrite (direct_state_S n d u (S (S (S j)))). reflexivity.
Qed.

Lemma L_cases : (L = 1 \/ L = 4)%nat.
Proof. unfold L. apply LanesCapped_ok. exact Hok. Qed.

(** An unrolled step moves the three modes [Lanes(d)] steps on and writes
    their sums at [n .. n + Lanes(d) - 1]. *)
Lemma unrolled_body_direct (n : Z) (st : hstate) :
  unrolled_inv n st -> N + 1 <= n -> n < unrolled_end N xsize ->
  exists st',
    unrolled_body t c N input n st = Ok st'
    /\ unrolled_inv (n + Z.of_nat L) st'.
Proof.
  intros (Hn & Hst & Hlen & Hlow & Hhigh) HnN Hend.
  unfold unrolled_end, JXL_GAUSS_MAX_LANES in Hend.
  pose proof L_cases as HL.
  assert (HL4 : 1 <= Z.of_nat L <= 4) by lia.
  unfold unrolled_body, hwy.LoadU. fold L.
  destruct (hwy.Load L input (n - N - 1)) as [a| | | |] eqn:Ea;
    try (rewrite Load_ok in Ea by lia; discriminate).
  destruct (hwy.Load L input (n + N - 1)) as [b| | | |] eqn:Eb;
    try (rewrite Load_ok in Eb by lia; discriminate).
  destruct (Load_getz _ _ _ _ Ea) as [La Ga].
  destruct (Load_getz _ _ _ _ Eb) as [Lb Gb].
  cbn [bind]. cbv zeta.
  set (j := Z.to_nat (n + N - 1)) in *.
  assert (Hsum : forall q, (q < L)%nat ->
            getz (hwy.Add a b) (Z.of_nat q) = u (j + q)%nat).
  { intros q Hq. unfold hwy.Add.
    rewrite zip_with_getz by lia.
    rewrite Ga, Gb by lia.
    unfold u, taps. rewrite <- !row_signal_in by lia.
    change lane_add with Rplus. f_equal; f_equal; lia. }
  assert (Lsum : length (hwy.Add a b) = L)
    by (rewrite Add_length; lia).
  unfold hstate_at in Hst. unfold c, coef_of.
  destruct n2_ as [[n2_0 n2_1] n2_2] eqn:En2, d1_ as [[d1_0 d1_1] d1_2] eqn:Ed1.
  destruct Hst as (M1 & M3 & M5).
  cbn [mul_in_1 mul_in_3 mul_in_5 mul_prev_1 mul_prev_3 mul_prev_5
       mul_prev2_1 mul_prev2_3 mul_prev2_5].
  fold L.
  destruct (unrolled_out_mode n2_0 d1_0 _ _ _ j M1 Lsum Hsum) as (L1 & G1 & N1).
  destruct (unrolled_out_mode n2_1 d1_1 _ _ _ j M3 Lsum Hsum) as (L3 & G3 & N3).
  destruct (unrolled_out_mode n2_2 d1_2 _ _ _ j M5 Lsum Hsum) as (L5 & G5 & N5).
  set (o1 := unrolled_out t _ _ _ _ (prev_1 st) _) in *.
  set (o3 := unrolled_out t _ _ _ _ (prev_3 st) _) in *.
  set (o5 := unrolled_out t _ _ _ _ (prev_5 st) _) in *.
  assert (Lo : length (hwy.Add o1 (hwy.Add o3 o5)) = L)
    by (rewrite !Add_length; lia).
  destruct (hwy.Store (hwy.Add o1 (hwy.Add o3 o5)) (out st) n)
    as [o'| | | |] eqn:St;
    try (rewrite Store_ok in St by lia; discriminate).
  destruct (Store_getz _ _ _ _ St) as (Hlen' & Hin & Hfar).
  cbn [bind]. eexists. split; [reflexivity|].
  split; [lia|]. split.
  - unfold hstate_at. cbn [prev_1 prev_3 prev_5 prev2_1 prev2_3 prev2_5].
    replace (Z.to_nat (n + Z.of_nat L + N - 1)) with (j + L)%nat by lia.
    auto.
  - cbn [out]. split; [congruence|]. split.
    + intros m Hm.
      destruct (Z.lt_ge_cases m n) as [Hold|Hnew].
      * rewrite Hfar by lia. apply Hlow. lia.
      * replace m with (n + Z.of_nat (Z.to_nat (m - n))) at 1 by lia.
        rewrite Hin by lia.
        unfold hwy.Add. rewrite zip_with_getz;
          [|lia| rewrite zip_with_length; lia].
        rewrite zip_with_getz by lia.
        rewrite G1, G3, G5 by lia.
        unfold direct_filter, modes_out.
        replace (Z.to_nat (m + N - 1)) with (j + Z.to_nat (m - n))%nat by lia.
        reflexivity.
    + intros m Hm Hge. rewrite Hfar by lia. apply Hhigh; lia.
Qed.

(** The broadcast of lane 0 between the first loop and the unrolled one. *)
Lemma broadcast_state_all (n : Z) (st : hstate) :
  checked_inv n st -> unrolled_inv n (broadcast_state t st).
Proof.
  intros (Hn & Hst & Hout'). split; [exact Hn|]. split.
  - assert (Hm : forall prev prev2 s,
              mode_head L prev prev2 s ->
              mode_all L (if is_scalar t then prev else hwy.Broadcast 0 prev)
                         (if is_scalar t then prev2 else hwy.Broadcast 0 prev2) s).
    { intros prev prev2 s (H1 & H2 & H3 & H4). unfold mode_all.
      destruct (is_scalar t) eqn:Es.
      - assert (L = 1%nat) by (unfold L; destruct t; [reflexivity|discriminate]).
        rewrite H in *. rewrite <- H3, <- H4.
        split; apply length1; assumption.
      - unfold hwy.Broadcast, hwy.SetV. rewrite H1, H2, <- H3, <- H4.
        split; reflexivity. }
    unfold hstate_at in *.
    destruct n2_ as [[n2_0 n2_1] n2_2], d1_ as [[d1_0 d1_1] d1_2].
    destruct Hst as (M1 & M3 & M5).
    apply Hm in M1, M3, M5.
    unfold broadcast_state. fold L.
    destruct (is_scalar t); cbn [prev_1 prev_3 prev_5 prev2_1 prev2_3 prev2_5];
      auto.
  - unfold broadcast_state. destruct (is_scalar t); exact Hout'.
Qed.

Lemma unrolled_inv_checked (n : Z) (st : hstate) :
  unrolled_inv n st -> checked_inv n st.
Proof.
  intros (Hn & Hst & Hout'). split; [exact Hn|]. split; [|exact Hout'].
  pose proof L_cases as HL.
  unfold hstate_at in *.
  destruct n2_ as [[n2_0 n2_1] n2_2], d1_ as [[d1_0 d1_1] d1_2].
  destruct Hst as (M1 & M3 & M5).
  split; [|split]; (apply mode_all_head; [fold L; lia | assumption]).
Qed.

Lemma unrolled_loop_direct (n : Z) (st : hstate) :
  unrolled_inv n st -> Z.min (first_aligned t N) xsize <= n ->
  exists n' st',
    for_lt n (unrolled_end N xsize) (Z.of_nat L) (unrolled_body t c N input) st
    = Ok (n', st')
    /\ unrolled_inv n' st' /\ 0 <= n'.
Proof.
  intros Hinv Hstart.
  pose proof L_cases as HL.
  pose proof (first_aligned_ge t N Hok) as Hfa.
  destruct (for_lt_inv
              (fun i s => unrolled_inv i s
                          /\ Z.min (first_aligned t N) xsize <= i)
              (unrolled_end N xsize) (Z.of_nat L) (unrolled_body t c N input))
    with (n := n) (s := st) as (n' & st' & Hrun & [Hinv' Hr] & Hge); try lia.
  - intros i s [Hi Hr] Hlt.
    assert (HiN : N + 1 <= i).
    { unfold unrolled_end, JXL_GAUSS_MAX_LANES in Hlt. lia. }
    destruct (unrolled_body_direct i s Hi HiN Hlt) as (s' & Hs' & Hi').
    exists s'. split; [exact Hs'|]. split; [exact Hi' | lia].
  - split; [exact Hinv | exact Hstart].
  - exists n', st'. split; [exact Hrun|]. split; [exact Hinv'|]. lia.
Qed.

(** [FastGaussian1D] with the tables of [fill_tables]: every output of the
    row is the output of the direct form over the zero-padded row. *)
Lemma FastGaussian1D_direct :
  exists out',
    FastGaussian1D t (fill_tables n2_ d1_ N) xsize input output = Ok out'
    /\ out_upto F output xsize out'.
Proof.
  unfold FastGaussian1D. cbv zeta.
  rewrite load_coef_fill by exact Hok. cbn [bind]. fold c L.
  assert (Hrad : radius (fill_tables n2_ d1_ N) = N).
  { destruct n2_ as [[? ?] ?], d1_ as [[? ?] ?]. reflexivity. }
  rewrite Hrad.
  pose proof L_cases as HL.
  pose proof (first_aligned_ge t N Hok) as Hfa.
  set (st0 := mkH _ _ _ _ _ _ output).
  assert (H0 : checked_inv (- N + 1) st0).
  { split; [lia|]. split.
    - replace (Z.to_nat (- N + 1 + N - 1)) with 0%nat by lia.
      unfold hstate_at.
      destruct n2_ as [[n2_0 n2_1] n2_2], d1_ as [[d1_0 d1_1] d1_2].
      cbn [direct_state st0 prev_1 prev_3 prev_5 prev2_1 prev2_3 prev2_5].
      fold L.
      assert (Hz : mode_head L (hwy.Zero L) (hwy.Zero L) (0%R, 0%R)).
      { apply mode_all_head; [lia|]. split; reflexivity. }
      auto.
    - split; [reflexivity|]. split; [intros; lia | reflexivity]. }
  destruct (checked_loop_direct true (- N + 1)
              (Z.min (first_aligned t N) xsize) st0 H0)
    as (st1 & Hrun1 & H1); try lia; try (left; reflexivity).
  rewrite Hrun1. cbn [bind].
  apply broadcast_state_all in H1.
  destruct (unrolled_loop_direct _ _ H1 ltac:(lia))
    as (n2 & st2 & Hrun2 & H2 & Hn2).
  rewrite Hrun2. cbn [bind].
  apply unrolled_inv_checked in H2.
  destruct (checked_loop_direct false n2 xsize st2 H2)
    as (st3 & Hrun3 & H3); try lia.
  { destruct H2 as (Hr & _). lia. }
  rewrite Hrun3. cbn [bind].
  exists (out st3). split; [reflexivity|]. apply H3.
Qed.

End HorizontalDirect.

(** ** The vertical pass in direct form: proofs *)

Lemma concat_repeat4 (d : R) (m : nat) :
  concat (repeat [d; d; d; d] m) = repeat d (4 * m).
Proof.
  induction m as [|m IH]; [reflexivity|].
  replace (4 * S m)%nat with (4 + 4 * m)%nat by lia.
  cbn [repeat concat]. rewrite IH. reflexivity.
Qed.

Lemma load_vcoef_fill (t : Target) (n2_ d1_ : R * R * R) (N : Z) :
  target_ok t ->
  load_vcoef t (fill_tables n2_ d1_ N) = Ok (vcoef_of t n2_ d1_).
Proof.
  intros Hok.
  destruct n2_ as [[n2_0 n2_1] n2_2], d1_ as [[d1_0 d1_1] d1_2].
  unfold load_vcoef, vcoef_of, fill_tables, LoadDup128. cbv zeta.
  destruct t as [|l].
  - reflexivity.
  - destruct Hok as (H4 & Hmod & _).
    cbn [is_scalar LanesFull d1 n2].
    assert (El : (4 * (l / 4))%nat = l).
    { pose proof (Nat.div_mod_eq l 4). lia. }
    assert (Eb : forall d : R, concat (repeat [d; d; d; d] (l / 4)) = hwy.SetV l d).
    { intros d. rewrite concat_repeat4, El. reflexivity. }
    change (hwy.Load 4 (d1_lanes d1_0 ++ d1_lanes d1_1 ++ d1_lanes d1_2) (0 * 4))
      with (Ok [d1_0; d1_0; d1_0; d1_0]).
    change (hwy.Load 4 (d1_lanes d1_0 ++ d1_lanes d1_1 ++ d1_lanes d1_2) (1 * 4))
      with (Ok [d1_1; d1_1; d1_1; d1_1]).
    change (hwy.Load 4 (d1_lanes d1_0 ++ d1_lanes d1_1 ++ d1_lanes d1_2) (2 * 4))
      with (Ok [d1_2; d1_2; d1_2; d1_2]).
    change (hwy.Load 4 (n2_lanes n2_0 ++ n2_lanes n2_1 ++ n2_lanes n2_2) (0 * 4))
      with (Ok [n2_0; n2_0; n2_0; n2_0]).
    change (hwy.Load 4 (n2_lanes n2_0 ++ n2_lanes n2_1 ++ n2_lanes n2_2) (1 * 4))
      with (Ok [n2_1; n2_1; n2_1; n2_1]).
    change (hwy.Load 4 (n2_lanes n2_0 ++ n2_lanes n2_1 ++ n2_lanes n2_2) (2 * 4))
      with (Ok [n2_2; n2_2; n2_2; n2_2]).
    cbn [bind]. rewrite !Eb. reflexivity.
Qed.

Lemma vcoef_of_ok (t : Target) (n2_ d1_ : R * R * R) :
  vcoef_ok (LanesFull t) (vcoef_of t n2_ d1_).
Proof.
  destruct n2_ as [[a0 a1] a2], d1_ as [[b0 b1] b2].
  unfold vcoef_of, vcoef_ok, hwy.SetV. cbn [d1_1 d1_3 d1_5 n2_1 n2_3 n2_5].
  rewrite !repeat_length. repeat split.
Qed.

Lemma vcoef_of_lane (t : Target) (n2_ d1_ : R * R * R) (k i : Z) :
  0 <= k < 3 -> 0 <= i < Z.of_nat (LanesFull t) ->
  getz (n2_of (vcoef_of t n2_ d1_) k) i = mode_coef n2_ k
  /\ getz (d1_of (vcoef_of t n2_ d1_) k) i = mode_coef d1_ k.
Proof.
  intros Hk Hi.
  destruct n2_ as [[a0 a1] a2], d1_ as [[b0 b1] b2].
  unfold n2_of, d1_of, vcoef_of, mode_coef.
  cbn [d1_1 d1_3 d1_5 n2_1 n2_3 n2_5].
  destruct (k =? 0); [split; apply SetV_getz; lia|].
  destruct (k =? 1); split; apply SetV_getz; lia.
Qed.

Lemma modes_out_coef (n2_ d1_ : R * R * R) (u : nat -> R) (j : nat) :
  modes_out n2_ d1_ u j
  = (fst (direct_state (mode_coef n2_ 0) (mode_coef d1_ 0) u (S j))
     + (fst (direct_state (mode_coef n2_ 1) (mode_coef d1_ 1) u (S j))
        + fst (direct_state (mode_coef n2_ 2) (mode_coef d1_ 2) u (S j))))%R.
Proof.
  destruct n2_ as [[n2_0 n2_1] n2_2], d1_ as [[d1_0 d1_1] d1_2]. reflexivity.
Qed.

(** Rows of a plane. *)
Lemma at2_row (pl : list (list R)) (y q : Z) (r : list R) :
  nth_error pl (Z.to_nat y) = Some r -> at2 pl y q = getz r q.
Proof.
  intros H. unfold at2. rewrite (nth_error_nth _ _ _ H). reflexivity.
Qed.

Lemma set_row_same (pl : list (list R)) (y : nat) (r r' : list R) :
  nth_error pl y = Some r -> nth_error (set_row pl y r') y = Some r'.
Proof.
  revert y. induction pl as [|r0 pl IH]; intros [|y] H; simpl in *;
    try discriminate; auto.
Qed.

Lemma set_row_other (pl : list (list R)) (y y' : nat) (r' : list R) :
  y' <> y -> nth_error (set_row pl y r') y' = nth_error pl y'.
Proof.
  revert y y'. induction pl as [|r0 pl IH]; intros [|y] [|y'] H; simpl;
    try reflexivity; try congruence.
  apply IH. congruence.
Qed.

Lemma nth_set_row_other (pl : list (list R)) (y y' : nat) (r' : list R) :
  y' <> y -> nth y' (set_row pl y r') [] = nth y' pl [].
Proof.
  revert y y'. induction pl as [|r0 pl IH]; intros [|y] [|y'] H; simpl;
    try reflexivity; try congruence.
  apply IH. congruence.
Qed.

Lemma at2_set_row (pl : list (list R)) (y : Z) (r r' : list R) (m q : Z) :
  0 <= y -> 0 <= m -> nth_error pl (Z.to_nat y) = Some r ->
  at2 (set_row pl (Z.to_nat y) r') m q
  = if m =? y then getz r' q else at2 pl m q.
Proof.
  intros Hy Hm Hr.
  destruct (Z.eqb_spec m y) as [->|Hne].
  - apply at2_row. eapply set_row_same; eauto.
  - unfold at2. rewrite nth_set_row_other by lia. reflexivity.
Qed.

Section BlockPlane.
Variable target : Target.
Import hwy.

(** One iteration of the loop of [VerticalBlock] with [OutputStore]: the
    vector written to the output row is the sum of the three vectors just
    stored in the ring buffer; the rest of the plane is untouched. *)
Lemma block_body_plane (c : vcoef) (kLanes : Z) (input : Input) (n y x : Z)
    (idx : Z) (st st' : vstate) :
  let L := Z.of_nat (LanesFull target) in
  let n_0 := Z.land (n - 0) kRingBufferMask in
  1 <= L -> 0 <= idx -> idx + L <= kLanes -> 0 <= x ->
  vcoef_ok (LanesFull target) c ->
  block_body target c kLanes input n OutputStore (Some (y, x)) idx st = Ok st' ->
  (forall j, 0 <= j < L ->
     at2 (plane st') y (x + idx + j)
     = (ring_at (ring_buffer st') kLanes 0 n_0 (idx + j)
        + (ring_at (ring_buffer st') kLanes 1 n_0 (idx + j)
           + ring_at (ring_buffer st') kLanes 2 n_0 (idx + j)))%R)
  /\ (forall m q, 0 <= m -> 0 <= q ->
        m <> y \/ q < x + idx \/ x + idx + L <= q ->
        at2 (plane st') m q = at2 (plane st) m q).
Proof.
  intros L n_0 HL Hidx Hfit Hx Hc Hrun.
  destruct (ring_slots n) as (R0 & _).
  fold n_0 in R0.
  destruct Hc as (Ld1 & Ld3 & Ld5 & Ln1 & Ln3 & Ln5).
  assert (Hkn : 0 <= kLanes * n_0 <= 3 * kLanes) by nia.
  unfold block_body in Hrun. cbv zeta in Hrun. fold n_0 in Hrun.
  change kRingBufferLen with 4 in *.
  destruct (input_at target input idx) as [sum| | | |] eqn:Esum;
    try discriminate.
  assert (Lsum : length sum = LanesFull target).
  { unfold input_at in Esum. destruct input as [[m b]|[m1 b1] [m2 b2]].
    - apply Load_getz in Esum. apply Esum.
    - destruct (Load _ m1 _) as [v1| | | |] eqn:E1; try discriminate.
      destruct (Load _ m2 _) as [v2| | | |] eqn:E2; try discriminate.
      cbn [bind] in Esum. inversion Esum.
      apply Load_getz in E1, E2. rewrite Add_length.
      destruct E1 as [-> _], E2 as [-> _]. lia. }
  cbn [bind] in Hrun.
  repeat match type of Hrun with
  | (bind (Load ?l ?m ?o) _ = _) =>
      let v := fresh "v" in let E := fresh "E" in
      destruct (Load l m o) as [v| | | |] eqn:E; try discriminate;
      apply Load_getz in E; destruct E as [E _]; cbn [bind] in Hrun
  end.
  set (y1 := y_next (n2_1 c) (d1_1 c) sum v v2) in *.
  set (y3 := y_next (n2_3 c) (d1_3 c) sum v0 v3) in *.
  set (y5 := y_next (n2_5 c) (d1_5 c) sum v1 v4) in *.
  assert (Ly1 : length y1 = LanesFull target)
    by (apply y_next_length; assumption).
  assert (Ly3 : length y3 = LanesFull target)
    by (apply y_next_length; assumption).
  assert (Ly5 : length y5 = LanesFull target)
    by (apply y_next_length; assumption).
  destruct (Store y1 (ring_buffer st) _) as [rb1| | | |] eqn:S1; try discriminate.
  cbn [bind] in Hrun.
  destruct (Store y3 rb1 _) as [rb2| | | |] eqn:S2; try discriminate.
  cbn [bind] in Hrun.
  destruct (Store y5 rb2 _) as [rb3| | | |] eqn:S3; try discriminate.
  cbn [bind] in Hrun.
  destruct (Store_getz _ _ _ _ S1) as (_ & In1 & _).
  destruct (Store_getz _ _ _ _ S2) as (_ & In2 & Out2).
  destruct (Store_getz _ _ _ _ S3) as (_ & In3 & Out3).
  rewrite Ly1 in In1. rewrite Ly3 in In2, Out2. rewrite Ly5 in In3, Out3.
  fold L in In1, In2, In3, Out2, Out3.
  unfold output_at in Hrun.
  destruct (get_row (plane st) y) as [r| | | |] eqn:Er; try discriminate.
  cbn [bind] in Hrun.
  destruct (Store _ r (x + idx)) as [r'| | | |] eqn:Sr; try discriminate.
  cbn [bind] in Hrun. inversion Hrun; subst st'; clear Hrun.
  cbn [plane ring_buffer].
  assert (Hy : 0 <= y /\ nth_error (plane st) (Z.to_nat y) = Some r).
  { unfold get_row in Er. destruct (Z.leb_spec 0 y); [|discriminate].
    destruct (nth_error (plane st) (Z.to_nat y)); inversion Er. auto. }
  destruct Hy as [Hy Hr].
  destruct (Store_getz _ _ _ _ Sr) as (_ & Inr & Outr).
  assert (Lv : length (Add y1 (Add y3 y5)) = LanesFull target)
    by (rewrite !Add_length; lia).
  rewrite Lv in Inr, Outr. fold L in Inr, Outr.
  split.
  - intros j Hj.
    rewrite (at2_set_row _ y r r') by (assumption || lia).
    rewrite Z.eqb_refl.
    rewrite Inr by exact Hj.
    unfold Add. rewrite zip_with_getz;
      [|lia| rewrite zip_with_length; lia].
    rewrite zip_with_getz by lia.
    unfold ring_at. change kRingBufferLen with 4.
    replace (0 * kLanes * 4 + kLanes * n_0 + (idx + j))
      with (0 * kLanes * 4 + kLanes * n_0 + idx + j) by lia.
    replace (1 * kLanes * 4 + kLanes * n_0 + (idx + j))
      with (1 * kLanes * 4 + kLanes * n_0 + idx + j) by lia.
    replace (2 * kLanes * 4 + kLanes * n_0 + (idx + j))
      with (2 * kLanes * 4 + kLanes * n_0 + idx + j) by lia.
    rewrite (In3 j Hj).
    rewrite (Out3 (1 * kLanes * 4 + kLanes * n_0 + idx + j)) by lia.
    rewrite (In2 j Hj).
    rewrite (Out3 (0 * kLanes * 4 + kLanes * n_0 + idx + j)) by lia.
    rewrite (Out2 (0 * kLanes * 4 + kLanes * n_0 + idx + j)) by lia.
    rewrite (In1 j Hj). reflexivity.
  - intros m q Hm Hq Hfar.
    rewrite (at2_set_row _ y r r') by assumption.
    destruct (Z.eqb_spec m y) as [->|Hne]; [|reflexivity].
    rewrite Outr by lia. symmetry. apply at2_row. exact Hr.
Qed.

End BlockPlane.

Section BlockPlaneLoop.
Variable target : Target.
Import hwy.

(** [VerticalBlock] with [OutputStore]: in every lane of the block the
    output row receives the sum of the three values stored at slot [n & 3]
    of the ring buffer; the rest of the plane is untouched. *)
Lemma VerticalBlock_plane (kVectors : Z) (c : vcoef) (input : Input)
    (n y x : Z) (st st' : vstate) :
  let L := Z.of_nat (LanesFull target) in
  let kLanes := kVectors * L in
  let n_0 := Z.land (n - 0) kRingBufferMask in
  1 <= L -> 0 <= kVectors -> 0 <= x ->
  3 * kLanes * kRingBufferLen <= Z.of_nat (length (ring_buffer st)) ->
  vcoef_ok (LanesFull target) c ->
  input_ok kLanes input ->
  output_ok kLanes OutputStore (Some (y, x)) (plane st) ->
  VerticalBlock target kVectors c input n OutputStore (Some (y, x)) st = Ok st' ->
  (forall i, 0 <= i < kLanes ->
     at2 (plane st') y (x + i)
     = (ring_at (ring_buffer st') kLanes 0 n_0 i
        + (ring_at (ring_buffer st') kLanes 1 n_0 i
           + ring_at (ring_buffer st') kLanes 2 n_0 i))%R)
  /\ (forall m q, 0 <= m -> 0 <= q ->
        m <> y \/ q < x \/ x + kLanes <= q ->
        at2 (plane st') m q = at2 (plane st) m q).
Proof.
  intros L kLanes n_0 HL HkV Hx Hrb Hc Hin Hout Hrun.
  destruct (ring_slots n) as (R0 & _). fold n_0 in R0.
  assert (Hkn : 0 <= kLanes * n_0 <= 3 * kLanes) by (unfold kLanes; nia).
  assert (HkL : 0 <= kLanes) by (unfold kLanes; nia).
  assert (Hy : 0 <= y) by (destruct Hout as (Hy & _); exact Hy).
  pose (P := fun (idx : Z) (s : vstate) =>
    (exists j, idx = j * L /\ 0 <= j <= kVectors)
    /\ length (ring_buffer s) = length (ring_buffer st)
    /\ map (@length R) (plane s) = map (@length R) (plane st)
    /\ (forall i, 0 <= i < idx ->
          at2 (plane s) y (x + i)
          = (ring_at (ring_buffer s) kLanes 0 n_0 i
             + (ring_at (ring_buffer s) kLanes 1 n_0 i
                + ring_at (ring_buffer s) kLanes 2 n_0 i))%R)
    /\ (forall m q, 0 <= m -> 0 <= q ->
          m <> y \/ q < x \/ x + idx <= q ->
          at2 (plane s) m q = at2 (plane st) m q)).
  destruct (for_lt_inv P kLanes L
              (block_body target c kLanes input n OutputStore (Some (y, x))))
    with (n := 0) (s := st) as (idx' & st1 & Hrun1 & HP & Hend).
  - lia.
  - intros idx s1 (Hj & Hlen & Hshape & Ha & Hb) Hlt.
    destruct Hj as (j & -> & Hj).
    assert (Hj' : j < kVectors) by (unfold kLanes in Hlt; nia).
    assert (Hfit : j * L + L <= kLanes) by (unfold kLanes; nia).
    assert (Hidx0 : 0 <= j * L) by nia.
    destruct (block_body_spec target c kLanes input n OutputStore
                (Some (y, x)) (j * L) s1)
      as (s2 & Hs2 & Hlen2 & Hshape2 & _ & Hfar); auto.
    { rewrite Hlen. exact Hrb. }
    { apply output_ok_shape with (pl := plane st); auto. }
    fold L n_0 in Hfar. change kRingBufferLen with 4 in Hfar.
    destruct (block_body_plane target c kLanes input n y x (j * L) s1 s2)
      as (Hnew & Hkeep); auto.
    fold L n_0 in Hnew, Hkeep.
    exists s2. split; [exact Hs2|].
    split; [exists (j + 1); split; [ring | lia]|].
    split; [congruence|]. split; [congruence|].
    split.
    + intros i Hi.
      destruct (Z.lt_ge_cases i (j * L)) as [Hold|Hcur].
      * rewrite Hkeep by lia. rewrite (Ha i) by lia.
        unfold ring_at. change kRingBufferLen with 4.
        rewrite !Hfar; [reflexivity| | | | | |]; try lia;
          intros k Hk; assert (Hk' : k = 0 \/ k = 1 \/ k = 2) by lia;
          destruct Hk' as [->|[->| ->]]; lia.
      * replace (x + i) with (x + j * L + (i - j * L)) by ring.
        rewrite Hnew by lia.
        replace (j * L + (i - j * L)) with i by ring. reflexivity.
    + intros m q Hm Hq Hout2.
      rewrite Hkeep by lia. apply Hb; try assumption. lia.
  - unfold P. split; [exists 0; lia|].
    repeat split; auto. intros; lia.
  - destruct HP as ((j & -> & Hj) & Hlen & Hshape & Ha & Hb).
    assert (j = kVectors) by (unfold kLanes in Hend; nia). subst j.
    unfold VerticalBlock in Hrun. fold L kLanes in Hrun.
    rewrite Hrun1 in Hrun. cbn [bind] in Hrun. inversion Hrun; subst st'.
    fold kLanes in Ha, Hb. split; [exact Ha | exact Hb].
Qed.

End BlockPlaneLoop.

Lemma for_loop_keeps {S A : Type} (g : S -> A) (cond : Z -> bool)
    (next : Z -> Z) (body : Z -> S -> outcome S) :
  (forall i s s', body i s = Ok s' -> g s' = g s) ->
  forall fuel n s n' s',
    for_loop fuel cond next body n s = Ok (n', s') -> g s' = g s.
Proof.
  intros Hbody fuel.
  induction fuel as [|fuel IH]; intros n s n' s' Hrun; simpl in Hrun.
  - destruct (cond n); [discriminate|]. inversion Hrun. reflexivity.
  - destruct (cond n).
    + destruct (body n s) as [s1| | | |] eqn:E; try discriminate.
      cbn [bind] in Hrun. apply IH in Hrun. rewrite Hrun.
      eapply Hbody; eauto.
    + inversion Hrun. reflexivity.
Qed.

(** [VerticalBlock] with [OutputNone] leaves the output plane as it is. *)
Lemma VerticalBlock_none {T : Type} {LT : Lane T} (t : Target) (kVectors : Z)
    (c : vcoef (T:=T))
    (input : Input) (n : Z) (out_pos : option (Z * Z)) (st st' : vstate) :
  VerticalBlock t kVectors c input n OutputNone out_pos st = Ok st' ->
  plane st' = plane st.
Proof.
  unfold VerticalBlock, for_lt. intros Hrun.
  destruct (for_loop _ _ _ _ 0 st) as [[n' s']| | | |] eqn:E; try discriminate.
  cbn [bind] in Hrun. inversion Hrun; subst s'.
  eapply (for_loop_keeps plane); [|exact E].
  intros i s s1 Hb. unfold block_body in Hb. cbv zeta in Hb.
  cbn [output_at] in Hb.
  repeat match type of Hb with
  | (bind (input_at ?a ?b ?c) _ = _) =>
      destruct (input_at a b c); try discriminate; cbn [bind] in Hb
  | (bind (hwy.Load ?a ?b ?c) _ = _) =>
      destruct (hwy.Load a b c); try discriminate; cbn [bind] in Hb
  | (bind (hwy.Store ?a ?b ?c) _ = _) =>
      destruct (hwy.Store a b c); try discriminate; cbn [bind] in Hb
  end.
  inversion Hb. reflexivity.
Qed.

Lemma y_lane_direct (n d s p pp : R) :
  y_lane n d s p pp = direct_step n d s p pp.
Proof. unfold y_lane, direct_step. cbn. ring. Qed.

Section StripDirect.
Variable t : Target.
Variables (n2_ d1_ : R * R * R) (N kVectors x ysize : Z).
Variables (zero : list R) (input plane0 : list (list R)) (rb_len : nat).

Let kLanes : Z := kVectors * Z.of_nat (LanesFull t).
Let c := vcoef_of t n2_ d1_.

Hypothesis Hok : target_ok t.
Hypothesis HkV : 0 <= kVectors.
Hypothesis HN : 1 <= N < 2 ^ 62.
Hypothesis Hx : 0 <= x.
Hypothesis Hysize : 0 <= ysize < 2 ^ 62.
Hypothesis Hzero : kLanes <= Z.of_nat (length zero).
Hypothesis Hzero0 : forall i, 0 <= i < kLanes -> getz zero i = 0%R.
Hypothesis Hinput : rows_ok input ysize (x + kLanes).
Hypothesis Hplane0 : rows_ok plane0 ysize (x + kLanes).
Hypothesis Hrb : 3 * kLanes * kRingBufferLen <= Z.of_nat rb_len.

Local Abbreviation sinv := (strip_at t n2_ d1_ N kVectors x ysize input plane0 rb_len).
Local Abbreviation colsig := (fun i => col_signal ysize input (x + i)).

Lemma col_signal_in (col i : Z) :
  0 <= i < ysize -> col_signal ysize input col i = at2 input i col.
Proof.
  intros Hi. unfold col_signal.
  destruct (Z.leb_spec 0 i); [|lia].
  destruct (Z.ltb_spec i ysize); [|lia]. reflexivity.
Qed.

Lemma col_signal_out (col i : Z) :
  i < 0 \/ ysize <= i -> col_signal ysize input col i = 0%R.
Proof.
  intros Hi. unfold col_signal.
  destruct (Z.leb_spec 0 i); [|reflexivity].
  destruct (Z.ltb_spec i ysize); [lia|reflexivity].
Qed.

(** [bottom < ysize ? in(bottom) + x : zero] points at the samples of the
    columns of the strip in row [bottom], zero below the plane. *)
Lemma bottom_pos_lane (bottom : Z) :
  0 <= bottom ->
  exists p, bottom_pos input zero x ysize bottom = Ok p
            /\ pos_ok kLanes p
            /\ forall i, 0 <= i < kLanes ->
                 getz (fst p) (snd p + i) = colsig i bottom.
Proof.
  intros Hb. unfold bottom_pos.
  destruct (Z.ltb_spec bottom ysize) as [E|E].
  - destruct (rows_ok_get input ysize (x + kLanes) bottom Hinput ltac:(lia))
      as (r & Hr & Hlen).
    rewrite (get_row_ok input bottom r ltac:(lia) Hr). cbn [bind].
    eexists; split; [reflexivity|]. split.
    + unfold pos_ok. simpl. lia.
    + intros i Hi. cbn [fst snd]. rewrite col_signal_in by lia.
      symmetry. apply at2_row. exact Hr.
  - eexists; split; [reflexivity|]. split.
    + unfold pos_ok. simpl. lia.
    + intros i Hi. cbn [fst snd]. rewrite col_signal_out by lia.
      apply Hzero0. exact Hi.
Qed.

Lemma row_pos_lane (y : Z) :
  0 <= y < ysize ->
  exists p, row_pos input x y = Ok p
            /\ pos_ok kLanes p
            /\ forall i, 0 <= i < kLanes ->
                 getz (fst p) (snd p + i) = colsig i y.
Proof.
  intros Hy. unfold row_pos.
  destruct (rows_ok_get input ysize (x + kLanes) y Hinput Hy) as (r & Hr & Hlen).
  rewrite (get_row_ok input y r ltac:(lia) Hr). cbn [bind].
  eexists; split; [reflexivity|]. split.
  - unfold pos_ok. simpl. lia.
  - intros i Hi. cbn [fst snd]. rewrite col_signal_in by lia.
    symmetry. apply at2_row. exact Hr.
Qed.

Lemma inv_rows (n : Z) (st : vstate) :
  sinv n st -> rows_ok (plane st) ysize (x + kLanes).
Proof.
  intros (_ & Hshape & _). eapply rows_ok_shape; eauto.
Qed.

(** A call of [VerticalBlock] whose input functor gives the sum of the two
    taps moves every column of the strip one step on. *)
Lemma row_step_direct (inp : Input) (n : Z) (output : Output)
    (out_pos : option (Z * Z)) (st : vstate) :
  sinv n st -> - N + 1 <= n -> input_ok kLanes inp ->
  (forall i, 0 <= i < kLanes ->
     input_lane inp i = taps N (colsig i) (Z.to_nat (n + N - 1))) ->
  (output = OutputNone /\ n < 0)
  \/ (output = OutputStore /\ out_pos = Some (n, x) /\ 0 <= n < ysize) ->
  exists st',
    VerticalBlock t kVectors c inp n output out_pos st = Ok st'
    /\ sinv (n + 1) st'.
Proof.
  intros Hinv Hn Hin Hlane Hout.
  pose proof (inv_rows n st Hinv) as Hrows.
  destruct Hinv as (Hlen & Hshape & Hring & Hlow & Hframe).
  pose proof (LanesFull_ok t Hok) as HL.
  assert (Hoo : output_ok kLanes output out_pos (plane st)).
  { destruct Hout as [[-> _] | (-> & -> & Hn')]; [exact I|]. simpl.
    destruct (rows_ok_get (plane st) ysize (x + kLanes) n Hrows Hn')
      as (r & Hr & Hl).
    split; [lia|]. split; [exact Hx|]. exists r. split; [exact Hr|exact Hl]. }
  destruct (VerticalBlock_spec t kVectors c inp n output out_pos st)
    as (st' & Hrun & Hlen' & Hshape' & Hnew & Hkeep); auto.
  { lia. }
  { rewrite Hlen. exact Hrb. }
  { apply vcoef_of_ok. }
  fold kLanes in Hnew, Hkeep.
  destruct (ring_slots n) as (R0 & R1 & R2 & Hne1 & Hne2).
  replace (n - 0) with n in * by lia.
  set (j := Z.to_nat (n + N - 1)) in *.
  assert (Hring' : forall k i, 0 <= k < 3 -> 0 <= i < kLanes ->
            ring_at (ring_buffer st') kLanes k (Z.land n kRingBufferMask) i
            = fst (direct_state (mode_coef n2_ k) (mode_coef d1_ k)
                     (taps N (colsig i)) (S j))).
  { intros k i Hk Hi. rewrite (Hnew k i Hk Hi).
    assert (Hmod : 0 <= i mod Z.of_nat (LanesFull t) < Z.of_nat (LanesFull t))
      by (apply Z.mod_pos_bound; lia).
    destruct (vcoef_of_lane t n2_ d1_ k _ Hk Hmod) as [E1 E2].
    fold c in E1, E2. rewrite E1, E2.
    destruct (Hring k i Hk Hi) as [E3 E4]. fold kLanes in E3, E4.
    rewrite E3, E4.
    rewrite (Hlane i Hi), y_lane_direct, direct_state_S. reflexivity. }
  exists st'. split; [exact Hrun|].
  split; [congruence|]. split; [congruence|].
  replace (Z.to_nat (n + 1 + N - 1)) with (S j) by lia.
  replace (n + 1 - 1) with n by lia. replace (n + 1 - 2) with (n - 1) by lia.
  split; [|split].
  - intros k i Hk Hi. cbv zeta. fold kLanes.
    split; [apply Hring'; assumption|].
    rewrite (Hkeep k _ i Hk R1 ltac:(congruence) Hi).
    destruct (Hring k i Hk Hi) as [E3 _]. fold kLanes in E3. rewrite E3.
    rewrite direct_state_S. reflexivity.
  - intros m i Hm Hi.
    destruct Hout as [[-> Hneg] | (-> & -> & Hn')]; [lia|].
    destruct (VerticalBlock_plane t kVectors c inp n n x st st'
                ltac:(lia) HkV Hx ltac:(rewrite Hlen; exact Hrb)
                (vcoef_of_ok _ _ _) Hin Hoo Hrun)
      as (Hval & Hfar).
    fold kLanes in Hval, Hfar. replace (n - 0) with n in Hval by lia.
    destruct (Z.eq_dec m n) as [->|Hne].
    + rewrite (Hval i Hi), !Hring' by (lia || assumption).
      unfold direct_filter. fold j. rewrite modes_out_coef. reflexivity.
    + rewrite Hfar by lia. apply Hlow; lia.
  - intros m q Hm Hq Hfar.
    destruct Hout as [[-> Hneg] | (-> & -> & Hn')].
    + rewrite (VerticalBlock_none _ _ _ _ _ _ _ _ Hrun). apply Hframe; lia.
    + destruct (VerticalBlock_plane t kVectors c inp n n x st st'
                  ltac:(lia) HkV Hx ltac:(rewrite Hlen; exact Hrb)
                  (vcoef_of_ok _ _ _) Hin Hoo Hrun)
        as (_ & Hfar').
      fold kLanes in Hfar'.
      rewrite Hfar' by lia. apply Hframe; lia.
Qed.

Lemma taps_top (i n : Z) :
  - N + 1 <= n <= N ->
  taps N (colsig i) (Z.to_nat (n + N - 1)) = colsig i (n + N - 1).
Proof.
  intros Hn. unfold taps. rewrite Z2Nat.id by lia.
  rewrite (col_signal_out (x + i) (n + N - 1 - 2 * N)) by lia. ring.
Qed.

Lemma taps_both (i n : Z) :
  - N + 1 <= n ->
  taps N (colsig i) (Z.to_nat (n + N - 1))
  = (colsig i (n - N - 1)%Z + colsig i (n + N - 1)%Z)%R.
Proof.
  intros Hn. unfold taps. rewrite Z2Nat.id by lia.
  replace (n + N - 1 - 2 * N) with (n - N - 1) by lia. reflexivity.
Qed.

Lemma inv_get_row (n m : Z) (st : vstate) :
  sinv n st -> 0 <= m < ysize -> exists r, get_row (plane st) m = Ok r.
Proof.
  intros Hinv Hm.
  destruct (rows_ok_get (plane st) ysize (x + kLanes) m (inv_rows n st Hinv) Hm)
    as (r & Hr & _).
  exists r. apply get_row_ok; [lia|exact Hr].
Qed.

(** The two warmup loops: the row above is outside the plane. *)
Lemma warmup_direct (output : Output) (n : Z) (st : vstate) :
  sinv n st -> - N + 1 <= n <= N ->
  (output = OutputNone /\ n < 0) \/ (output = OutputStore /\ 0 <= n < ysize) ->
  exists st',
    warmup_body t kVectors c N x ysize zero input output n st = Ok st'
    /\ sinv (n + 1) st'.
Proof.
  intros Hinv Hn Hout. unfold warmup_body.
  rewrite size_t_small by lia.
  destruct (bottom_pos_lane (n + N - 1) ltac:(lia)) as ([m b] & -> & Hp & Hlane).
  cbn [bind fst snd] in *.
  assert (Hin : forall i, 0 <= i < kLanes ->
            input_lane (SingleInput (m, b)) i
            = taps N (colsig i) (Z.to_nat (n + N - 1))).
  { intros i Hi. rewrite taps_top by lia. cbn [input_lane]. apply Hlane. exact Hi. }
  destruct Hout as [[-> Hneg] | [-> Hpos]].
  - apply row_step_direct; auto. lia.
  - destruct (inv_get_row n n st Hinv Hpos) as (r & ->). cbn [bind].
    apply row_step_direct; auto. lia.
Qed.

(** The interior loop: both rows are inside the plane. *)
Lemma interior_direct (n : Z) (st : vstate) :
  sinv n st -> N + 1 <= n -> n + N + 7 < ysize ->
  exists st',
    interior_body t kVectors c N x input n st = Ok st'
    /\ sinv (n + 1) st'.
Proof.
  intros Hinv Hn Hb. unfold interior_body, Prefetch, kPrefetchRows.
  rewrite !(size_t_small (n - N - 1)), !(size_t_small (n + N - 1)) by lia.
  rewrite !size_t_small by lia.
  destruct (row_pos_lane (n - N - 1) ltac:(lia)) as ([m1 b1] & -> & Hp1 & Hl1).
  destruct (row_pos_lane (n + N - 1) ltac:(lia)) as ([m2 b2] & -> & Hp2 & Hl2).
  cbn [bind fst snd] in *.
  destruct (inv_get_row n n st Hinv ltac:(lia)) as (r & ->). cbn [bind].
  destruct (row_step_direct (TwoInputs (m1, b1) (m2, b2)) n OutputStore
              (Some (n, x)) st Hinv ltac:(lia))
    as (st' & -> & Hinv').
  { simpl. auto. }
  { intros i Hi. rewrite taps_both by lia. cbn [input_lane].
    rewrite Hl1, Hl2 by exact Hi. reflexivity. }
  { right. split; [reflexivity|]. split; [reflexivity|lia]. }
  cbn [bind].
  destruct (row_pos_lane (n - N - 1 + 8) ltac:(lia)) as (q1 & -> & _).
  destruct (row_pos_lane (n + N - 1 + 8) ltac:(lia)) as (q2 & -> & _).
  cbn [bind]. exists st'. auto.
Qed.

(** The bottom border: the row below may be outside the plane. *)
Lemma border_direct (n : Z) (st : vstate) :
  sinv n st -> N + 1 <= n < ysize ->
  exists st',
    border_body t kVectors c N x ysize zero input n st = Ok st'
    /\ sinv (n + 1) st'.
Proof.
  intros Hinv Hn. unfold border_body.
  rewrite !size_t_small by lia.
  destruct (row_pos_lane (n - N - 1) ltac:(lia)) as ([m1 b1] & -> & Hp1 & Hl1).
  destruct (bottom_pos_lane (n + N - 1) ltac:(lia)) as ([m2 b2] & -> & Hp2 & Hl2).
  cbn [bind fst snd] in *.
  destruct (inv_get_row n n st Hinv ltac:(lia)) as (r & ->). cbn [bind].
  apply row_step_direct; auto; try lia.
  - simpl. auto.
  - intros i Hi. rewrite taps_both by lia. cbn [input_lane].
    rewrite Hl1, Hl2 by exact Hi. reflexivity.
  - right. split; [reflexivity|]. split; [reflexivity|lia].
Qed.

End StripDirect.

Lemma memset0_getz (mem mem' : list R) (count : Z) :
  memset0 mem count = Ok mem' ->
  length mem' = length mem
  /\ forall q, 0 <= q < count -> getz mem' q = 0%R.
Proof.
  unfold memset0. destruct (Z.leb_spec 0 count); [|discriminate].
  intros Hs. destruct (Store_getz _ _ _ _ Hs) as (Hlen & Hin & _).
  split; [exact Hlen|].
  intros q Hq. unfold hwy.Zero in Hin. rewrite repeat_length in Hin.
  specialize (Hin q ltac:(lia)). rewrite Z.add_0_l in Hin. rewrite Hin.
  apply SetV_getz. lia.
Qed.

(** [VerticalStrip] with the tables of [fill_tables]: in every column of
    the strip, every row of the output is the output of the direct form
    over the zero-padded column of the input; the rest of the output plane
    is untouched. *)
Lemma VerticalStrip_direct (t : Target) (n2_ d1_ : R * R * R)
    (N kVectors x ysize : Z) (zero : list R) (input : list (list R))
    (st : vstate) :
  let kLanes := kVectors * Z.of_nat (LanesFull t) in
  target_ok t -> 0 <= kVectors -> 1 <= N < 2 ^ 62 -> 0 <= x ->
  0 <= ysize < 2 ^ 62 ->
  kLanes <= Z.of_nat (length zero) ->
  (forall i, 0 <= i < kLanes -> getz zero i = 0%R) ->
  rows_ok input ysize (x + kLanes) ->
  3 * kLanes * kRingBufferLen <= Z.of_nat (length (ring_buffer st)) ->
  rows_ok (plane st) ysize (x + kLanes) ->
  exists st',
    VerticalStrip t kVectors (fill_tables n2_ d1_ N) x ysize zero input st
    = Ok st'
    /\ strip_at t n2_ d1_ N kVectors x ysize input (plane st)
                (length (ring_buffer st)) ysize st'.
Proof.
  intros kLanes Hok HkV HN Hx Hy Hzero Hzero0 Hin Hrb Hrows.
  unfold VerticalStrip. cbv zeta.
  rewrite load_vcoef_fill by exact Hok. cbn [bind].
  assert (Hrad : radius (fill_tables n2_ d1_ N) = N).
  { destruct n2_ as [[? ?] ?], d1_ as [[? ?] ?]. reflexivity. }
  rewrite Hrad.
  rewrite !(size_t_small N) by lia.
  rewrite (ssize_t_small N) by lia.
  pose proof (LanesFull_ok t Hok) as HL.
  change kRingBufferLen with 4 in Hrb.
  destruct (memset0_ok (ring_buffer st)
              (3 * kVectors * Z.of_nat (LanesFull t) * kRingBufferLen))
    as (rb & Hms & Hrblen).
  { change kRingBufferLen with 4. unfold kLanes in Hrb. nia. }
  rewrite Hms. cbn [bind].
  destruct (memset0_getz _ _ _ Hms) as (_ & Hrb0).
  change kRingBufferLen with 4 in Hrb0.
  set (inv := strip_at t n2_ d1_ N kVectors x ysize input (plane st)
                (length (ring_buffer st))).
  assert (Hinv0 : inv (- N + 1) (mkV rb (plane st))).
  { unfold inv, strip_at. cbv zeta. cbn [ring_buffer plane].
    split; [exact Hrblen|]. split; [reflexivity|].
    replace (Z.to_nat (- N + 1 + N - 1)) with 0%nat by lia.
    fold kLanes. split; [|split].
    - intros k i Hk Hi. cbn [direct_state fst snd].
      destruct (ring_slots (- N + 1)) as (_ & R1 & R2 & _).
      unfold ring_at. change kRingBufferLen with 4.
      assert (Hk' : k = 0 \/ k = 1 \/ k = 2) by lia.
      split; apply Hrb0; fold kLanes;
        destruct Hk' as [->|[->| ->]]; nia.
    - intros; lia.
    - reflexivity. }
  assert (Hrb' : 3 * kLanes * kRingBufferLen
                 <= Z.of_nat (length (ring_buffer st)))
    by (change kRingBufferLen with 4; exact Hrb).
  (* warmup without output *)
  destruct (for_lt_inv (fun n s => - N + 1 <= n <= 0 /\ inv n s) 0 1
              (warmup_body t kVectors (vcoef_of t n2_ d1_) N x ysize zero
                 input OutputNone))
    with (n := - N + 1) (s := mkV rb (plane st))
    as (n1 & st1 & -> & (Hn1 & Hinv1) & Hge1).
  { lia. }
  { intros n s (Hn & Hs) Hlt.
    destruct (warmup_direct t n2_ d1_ N kVectors x ysize zero input (plane st)
                (length (ring_buffer st))
                Hok HkV HN Hx Hy Hzero Hzero0 Hin Hrows Hrb' OutputNone n s Hs
                ltac:(lia) ltac:(left; split; [reflexivity|lia]))
      as (s' & Hs' & Hinv').
    exists s'. split; [exact Hs'|]. split; [lia|exact Hinv']. }
  { split; [lia|exact Hinv0]. }
  assert (n1 = 0) by lia. subst n1.
  cbn [bind].
  (* warmup with output *)
  rewrite (size_t_small (N + 1)) by lia.
  destruct (for_loop_inv (fun n s => 0 <= n <= Z.min (N + 1) ysize /\ inv n s)
              (fun n => Z.to_nat (ysize - n))
              (fun n => size_t n <? Z.min (N + 1) ysize) (fun n => n + 1)
              (warmup_body t kVectors (vcoef_of t n2_ d1_) N x ysize zero
                 input OutputStore))
    with (fuel := Z.to_nat ysize) (n := 0) (s := st1)
    as (n2 & st2 & -> & ((Hn2 & Hinv2) & Hend2)).
  { intros n s (Hn & Hs) Hc2.
    rewrite size_t_small in Hc2 by lia. apply Z.ltb_lt in Hc2.
    destruct (warmup_direct t n2_ d1_ N kVectors x ysize zero input (plane st)
                (length (ring_buffer st))
                Hok HkV HN Hx Hy Hzero Hzero0 Hin Hrows Hrb' OutputStore n s Hs
                ltac:(lia) ltac:(right; split; [reflexivity|lia]))
      as (s' & Hs' & Hinv').
    exists s'. split; [exact Hs'|]. split; [split; [lia|exact Hinv']|lia]. }
  { split; [lia|exact Hinv1]. }
  { lia. }
  rewrite size_t_small in Hend2 by lia. apply Z.ltb_ge in Hend2.
  assert (En2 : n2 = Z.min (N + 1) ysize) by lia.
  cbn [bind].
  (* interior *)
  unfold kPrefetchRows.
  rewrite (ssize_t_size_t (ysize - N + 1 - 8)) by lia.
  destruct (for_lt_inv
              (fun n s => n2 <= n <= Z.max n2 (ysize - N + 1 - 8) /\ inv n s)
              (ysize - N + 1 - 8) 1
              (interior_body t kVectors (vcoef_of t n2_ d1_) N x input))
    with (n := n2) (s := st2)
    as (n3 & st3 & -> & ((Hn3 & Hinv3) & Hend3)).
  { lia. }
  { intros n s (Hn & Hs) Hlt.
    destruct (interior_direct t n2_ d1_ N kVectors x ysize zero input (plane st)
                (length (ring_buffer st))
                Hok HkV HN Hx Hy Hin Hrows Hrb' n s Hs ltac:(lia) ltac:(lia))
      as (s' & Hs' & Hinv').
    exists s'. split; [exact Hs'|]. split; [lia|exact Hinv']. }
  { split; [lia|exact Hinv2]. }
  cbn [bind].
  (* bottom border *)
  destruct (for_loop_inv (fun n s => n2 <= n <= ysize /\ inv n s)
              (fun n => Z.to_nat (ysize - n))
              (fun n => size_t n <? ysize) (fun n => n + 1)
              (border_body t kVectors (vcoef_of t n2_ d1_) N x ysize zero input))
    with (fuel := Z.to_nat (ysize - n3)) (n := n3) (s := st3)
    as (n4 & st4 & -> & ((Hn4 & Hinv4) & Hend4)).
  { intros n s (Hn & Hs) Hc4.
    rewrite size_t_small in Hc4 by lia. apply Z.ltb_lt in Hc4.
    destruct (border_direct t n2_ d1_ N kVectors x ysize zero input (plane st)
                (length (ring_buffer st))
                Hok HkV HN Hx Hy Hzero Hzero0 Hin Hrows Hrb' n s Hs ltac:(lia))
      as (s' & Hs' & Hinv').
    exists s'. split; [exact Hs'|]. split; [split; [lia|exact Hinv']|lia]. }
  { split; [lia|exact Hinv3]. }
  { lia. }
  cbn [bind].
  rewrite size_t_small in Hend4 by lia. apply Z.ltb_ge in Hend4.
  assert (n4 = ysize) by lia. subst n4.
  exists st4. split; [reflexivity|exact Hinv4].
Qed.

Lemma filter_one_existsb {A : Type} (f : A -> bool) (l : list A) :
  length (filter f l) = 1%nat -> existsb f l = true.
Proof.
  induction l as [|a l IH]; simpl; [discriminate|].
  destruct (f a); [reflexivity|]. exact IH.
Qed.

(** Strip after strip, the columns of the strips that have run hold the
    outputs of the direct form. *)
Lemma run_strips_direct (t : Target) (n2_ d1_ : R * R * R) (N ysize width : Z)
    (zero : list R) (input : list (list R)) (calls : list (Z * Z)) :
  target_ok t -> 1 <= N < 2 ^ 62 -> 0 <= ysize < 2 ^ 62 ->
  rows_ok input ysize width ->
  (forall i, 0 <= i < Z.of_nat (length zero) -> getz zero i = 0%R) ->
  Forall (fun c => 0 <= fst c /\ 0 <= snd c
            /\ snd c + fst c * Z.of_nat (LanesFull t) <= width
            /\ fst c * Z.of_nat (LanesFull t) <= Z.of_nat (length zero)) calls ->
  forall (done : Z -> bool) st,
    Forall (fun c => 3 * (fst c * Z.of_nat (LanesFull t)) * kRingBufferLen
                     <= Z.of_nat (length (ring_buffer st))) calls ->
    rows_ok (plane st) ysize width ->
    (forall m q, 0 <= m < ysize -> 0 <= q -> done q = true ->
       at2 (plane st) m q
       = direct_filter n2_ d1_ N (col_signal ysize input q) m) ->
    exists st',
      run_strips (fun kVectors x st =>
                    VerticalStrip t kVectors (fill_tables n2_ d1_ N) x ysize
                                  zero input st)
                 calls st = Ok st'
      /\ map (@length R) (plane st') = map (@length R) (plane st)
      /\ (forall m q, 0 <= m < ysize -> 0 <= q ->
            done q || existsb (covers t q) calls = true ->
            at2 (plane st') m q
            = direct_filter n2_ d1_ N (col_signal ysize input q) m)
      /\ (forall m q, 0 <= m -> 0 <= q -> ysize <= m \/ width <= q ->
            at2 (plane st') m q = at2 (plane st) m q).
Proof.
  intros Hok HN Hy Hin Hzero0 Hcalls.
  induction Hcalls as [|[k x] calls (Hk & Hx & Hw & Hz) _ IH];
    intros done st Hrb Hrows Hdone; cbn [run_strips].
  - exists st. split; [reflexivity|]. split; [reflexivity|]. split.
    + intros m q Hm Hq Hd. cbn [existsb] in Hd. rewrite orb_false_r in Hd.
      apply Hdone; assumption.
    + reflexivity.
  - cbn [fst snd] in *. inversion Hrb as [|? ? Hrb1 Hrb2]; subst.
    cbn [fst snd] in Hrb1.
    destruct (VerticalStrip_direct t n2_ d1_ N k x ysize zero input st)
      as (st1 & -> & Hlen1 & Hshape1 & _ & Hval1 & Hfar1); auto.
    { intros i Hi. apply Hzero0. lia. }
    { eapply rows_ok_weaken; [|exact Hin]. lia. }
    { eapply rows_ok_weaken; [|exact Hrows]. lia. }
    cbn [bind].
    destruct (IH (fun q => done q || covers t q (k, x)) st1)
      as (st' & Hrun & Hshape' & Hval' & Hfar').
    { rewrite Hlen1. exact Hrb2. }
    { eapply rows_ok_shape; eauto. }
    { intros m q Hm Hq Hd.
      destruct (covers t q (k, x)) eqn:Ec.
      - unfold covers in Ec. apply andb_prop in Ec. destruct Ec as [E1 E2].
        apply Z.leb_le in E1. apply Z.ltb_lt in E2.
        replace q with (x + (q - x)) by lia.
        apply Hval1; lia.
      - rewrite orb_false_r in Hd.
        rewrite Hfar1; [apply Hdone; assumption|lia|lia|].
        unfold covers in Ec. apply andb_false_iff in Ec.
        destruct Ec as [E|E]; [apply Z.leb_gt in E | apply Z.ltb_ge in E]; lia. }
    exists st'. split; [exact Hrun|]. split; [congruence|]. split.
    + intros m q Hm Hq Hd. apply Hval'; try assumption.
      cbn [existsb] in Hd. rewrite orb_assoc in Hd. exact Hd.
    + intros m q Hm Hq Hout. rewrite Hfar' by assumption.
      apply Hfar1; lia.
Qed.

(** [FastGaussianVertical] with the tables of [fill_tables], when the
    allocation succeeds: every float of the columns [0 .. xsize - 1] of the
    output is the output of the direct form over the zero-padded column of
    the input. *)
Lemma FastGaussianVertical_direct (t : Target)
    (memory_manager : Z -> option (list R)) (n2_ d1_ : R * R * R)
    (N xsize ysize : Z) (input output : list (list R)) (mem : list R) :
  let width := RoundUpTo xsize (Z.of_nat (LanesFull t)) in
  target_ok t -> allocator_ok memory_manager ->
  memory_manager (scratch_size_of t) = Some mem ->
  1 <= N < 2 ^ 62 -> 0 <= xsize < 2 ^ 62 -> 0 <= ysize < 2 ^ 62 ->
  rows_ok input ysize width -> rows_ok output ysize width ->
  exists out',
    FastGaussianVertical t memory_manager (fill_tables n2_ d1_ N) xsize ysize
                         input output = Ok (true, out')
    /\ map (@length R) out' = map (@length R) output
    /\ (forall m q, 0 <= m < ysize -> 0 <= q < xsize ->
          at2 out' m q = direct_filter n2_ d1_ N (col_signal ysize input q) m)
    /\ (forall m q, 0 <= m -> 0 <= q -> ysize <= m \/ width <= q ->
          at2 out' m q = at2 output m q).
Proof.
  intros width Hok Halloc Emm HN Hxs Hys Hin Hout.
  unfold FastGaussianVertical. cbv zeta.
  change (Z.max (64 / sizeof_float / Z.of_nat (LanesFull t)) 4) with (unroll_of t).
  change (size_t (unroll_of t * Z.of_nat (LanesFull t))) with (fast_pace_of t).
  change (size_t (fast_pace_of t * sizeof_float * (1 + 3 * kRingBufferLen)))
    with (scratch_size_of t).
  rewrite Emm.
  pose proof (LanesFull_ok t Hok) as HL.
  destruct (unroll_cases t Hok) as (Hcases & Hfp). cbv zeta in Hcases.
  set (L := Z.of_nat (LanesFull t)) in *.
  set (fp := fast_pace_of t) in *.
  assert (Hfp0 : 0 < fp < 2 ^ 40)
    by (rewrite Hfp; destruct Hcases as [[-> ->]|[-> ?]]; lia).
  assert (Hmem : Z.of_nat (length mem) = 13 * fp).
  { apply Halloc in Emm. unfold scratch_size_of in Emm. fold fp in Emm.
    change sizeof_float with 4 in Emm. change kRingBufferLen with 4 in Emm.
    rewrite size_t_small in Emm by lia. lia. }
  destruct (memset0_ok (firstn (Z.to_nat fp) mem) fp) as (zero & Hms & Hzero).
  { rewrite length_firstn. lia. }
  rewrite Hms. destruct (memset0_getz _ _ _ Hms) as (_ & Hzero0).
  rewrite length_firstn in Hzero.
  cbn [bind].
  destruct (strip_schedule_inv t xsize Hok Hxs)
    as (full & singles & Hsched & Hu & Hfull & Hsingles & _ & Honce).
  fold L fp in Hfull, Hsingles.
  rewrite (strip_loops_schedule t xsize _ _ _ Hsched).
  destruct (run_strips_direct t n2_ d1_ N ysize width zero input
              (full ++ singles) Hok HN Hys Hin)
    with (done := fun _ : Z => false) (st := mkV (skipn (Z.to_nat fp) mem) output)
    as (st' & -> & Hshape & Hval & Hfar); auto.
  - intros i Hi. apply Hzero0. lia.
  - apply Forall_app. split.
    + eapply Forall_impl; [|exact Hfull]. simpl.
      intros [k x]. simpl. intros (-> & _ & Hx0 & Hx1). fold L.
      rewrite <- Hfp.
      pose proof (RoundUpTo_ge xsize L ltac:(lia)). fold width in H. lia.
    + eapply Forall_impl; [|exact Hsingles]. simpl.
      intros [k x]. simpl. intros (-> & (j & ->) & Hx0). fold L.
      pose proof (RoundUpTo_vector xsize L j ltac:(lia) ltac:(lia)).
      fold width in H.
      assert (L <= fp) by (rewrite Hfp; destruct Hcases as [[-> ->]|[-> ?]]; lia).
      lia.
  - cbn [ring_buffer]. rewrite length_skipn. change kRingBufferLen with 4.
    apply Forall_app. split.
    + eapply Forall_impl; [|exact Hfull]. cbn beta.
      intros [k x]. cbn [fst snd]. intros (-> & _). fold L. rewrite <- Hfp. lia.
    + eapply Forall_impl; [|exact Hsingles]. cbn beta.
      intros [k x]. cbn [fst snd]. intros (-> & _). fold L.
      assert (L <= fp) by (rewrite Hfp; destruct Hcases as [[-> ->]|[-> ?]]; lia).
      lia.
  - intros; discriminate.
  - cbn [bind]. exists (plane st'). split; [reflexivity|].
    cbn [plane] in *. split; [exact Hshape|]. split.
    + intros m q Hm Hq. apply Hval; [exact Hm|lia|].
      cbn [orb]. apply filter_one_existsb. apply Honce. exact Hq.
    + exact Hfar.
Qed.

(** ** The passes in direct form: statements *)

Lemma direct_state_ext (n d : R) (u v : nat -> R) (j : nat) :
  (forall i, (i < j)%nat -> u i = v i) ->
  direct_state n d u j = direct_state n d v j.
Proof.
  induction j as [|j IH]; intros H; [reflexivity|].
  rewrite !direct_state_S, IH by (intros; apply H; lia).
  rewrite (H j) by lia. reflexivity.
Qed.

Lemma direct_filter_ext (n2_ d1_ : R * R * R) (N : Z) (f g : Z -> R) (n : Z) :
  (forall i, f i = g i) ->
  direct_filter n2_ d1_ N f n = direct_filter n2_ d1_ N g n.
Proof.
  intros H. unfold direct_filter, modes_out.
  destruct n2_ as [[a0 a1] a2], d1_ as [[b0 b1] b2].
  assert (E : forall a b j, direct_state a b (taps N f) j
                            = direct_state a b (taps N g) j).
  { intros a b j. apply direct_state_ext. intros i _. unfold taps.
    rewrite !H. reflexivity. }
  rewrite !E. reflexivity.
Qed.

Lemma getz_ext (a b : list R) :
  length a = length b ->
  (forall n, 0 <= n < Z.of_nat (length a) -> getz a n = getz b n) ->
  a = b.
Proof.
  intros Hlen H. apply (nth_ext a b 0%R 0%R Hlen).
  intros n Hn. specialize (H (Z.of_nat n) ltac:(lia)).
  unfold getz in H. rewrite Nat2Z.id in H. exact H.
Qed.

Lemma r_alloc_ok : allocator_ok r_alloc.
Proof.
  intros bytes mem. unfold r_alloc, sizeof_float.
  destruct (0 <=? bytes) eqn:E0; [|discriminate].
  destruct (bytes mod 4 =? 0) eqn:E1; [|discriminate].
  simpl. intros H. inversion H. rewrite repeat_length.
  apply Z.leb_le in E0. apply Z.eqb_eq in E1.
  pose proof (Z.div_mod bytes 4 ltac:(lia)).
  assert (0 <= bytes / 4) by (apply Z.div_pos; lia).
  lia.
Qed.

(** X1: [FastGaussian1D] on any target, with the tables that
    [CreateRecursiveGaussian] fills for the modes' [n2] and [d1] and a
    radius of at least 1, runs to its end on a row of at least [xsize]
    floats; output [n] is the sum over the three modes of the direct
    recursion [y[n] = n2 * (in[n - N - 1] + in[n + N - 1]) - d1 * y[n-1]
    - y[n-2]] started at [n = -N + 1] from zeros over the row padded with
    zeros; the floats of the output row from [xsize] on are untouched. *)
Theorem FastGaussian1D_is_direct_filter (t : Target) (n2_ d1_ : R * R * R)
    (N xsize : Z) (input output : list R) :
  target_ok t -> 1 <= N < 2 ^ 62 -> 0 <= xsize < 2 ^ 62 ->
  xsize <= Z.of_nat (length input) -> xsize <= Z.of_nat (length output) ->
  exists out',
    FastGaussian1D t (fill_tables n2_ d1_ N) xsize input output = Ok out'
    /\ length out' = length output
    /\ (forall n, 0 <= n < xsize ->
          getz out' n = direct_filter n2_ d1_ N (row_signal xsize input) n)
    /\ (forall n, xsize <= n -> getz out' n = getz output n).
Proof.
  intros Hok HN Hx Hin Hout.
  destruct (FastGaussian1D_direct t n2_ d1_ N xsize input output Hok
              ltac:(lia) ltac:(lia) Hout)
    as (out' & Hrun & Hlen & Hlow & Hhigh).
  exists out'. split; [exact Hrun|]. split; [exact Hlen|].
  split; [exact Hlow|]. intros n Hn. apply Hhigh; lia.
Qed.

Lemma FastGaussian1D_is_direct_filter_witness :
  exists out',
    FastGaussian1D (HWY_SIMD 4) (fill_tables (1, 2, 3) (4, 5, 6) 2)%R 9
                   [1; 2; 3; 4; 5; 6; 7; 8; 9]%R (repeat 0%R 9) = Ok out'
    /\ length out' = length (repeat 0%R 9)
    /\ (forall n, 0 <= n < 9 ->
          getz out' n
          = direct_filter (1, 2, 3)%R (4, 5, 6)%R 2
              (row_signal 9 [1; 2; 3; 4; 5; 6; 7; 8; 9]%R) n)
    /\ (forall n, 9 <= n -> getz out' n = getz (repeat 0%R 9) n).
Proof.
  apply (FastGaussian1D_is_direct_filter (HWY_SIMD 4) (1, 2, 3)%R (4, 5, 6)%R
           2 9 [1; 2; 3; 4; 5; 6; 7; 8; 9]%R (repeat 0%R 9)).
  - simpl. repeat split; try lia; reflexivity.
  - lia.
  - lia.
  - simpl. lia.
  - simpl. lia.
Defined.

(** X2: the result of [FastGaussian1D] does not depend on the target: with
    the tables of [CreateRecursiveGaussian] and in exact arithmetic, the
    scalar build and every vector build write the same output row. *)
Theorem FastGaussian1D_target_independent (t1 t2 : Target)
    (n2_ d1_ : R * R * R) (N xsize : Z) (input output : list R) :
  target_ok t1 -> target_ok t2 -> 1 <= N < 2 ^ 62 -> 0 <= xsize < 2 ^ 62 ->
  xsize <= Z.of_nat (length input) -> xsize <= Z.of_nat (length output) ->
  exists out',
    FastGaussian1D t1 (fill_tables n2_ d1_ N) xsize input output = Ok out'
    /\ FastGaussian1D t2 (fill_tables n2_ d1_ N) xsize input output = Ok out'.
Proof.
  intros Hok1 Hok2 HN Hx Hin Hout.
  destruct (FastGaussian1D_direct t1 n2_ d1_ N xsize input output Hok1
              ltac:(lia) ltac:(lia) Hout)
    as (o1 & Hrun1 & Hlen1 & Hlow1 & Hhigh1).
  destruct (FastGaussian1D_direct t2 n2_ d1_ N xsize input output Hok2
              ltac:(lia) ltac:(lia) Hout)
    as (o2 & Hrun2 & Hlen2 & Hlow2 & Hhigh2).
  exists o1. split; [exact Hrun1|]. rewrite Hrun2. f_equal.
  apply getz_ext; [congruence|].
  intros n Hn. destruct (Z.lt_ge_cases n xsize).
  - rewrite Hlow1, Hlow2 by lia. reflexivity.
  - rewrite Hhigh1, Hhigh2 by lia. reflexivity.
Qed.

Lemma FastGaussian1D_target_independent_witness :
  exists out',
    FastGaussian1D HWY_SCALAR (fill_tables (1, 2, 3) (4, 5, 6) 2)%R 9
                   [1; 2; 3; 4; 5; 6; 7; 8; 9]%R (repeat 0%R 9) = Ok out'
    /\ FastGaussian1D (HWY_SIMD 8) (fill_tables (1, 2, 3) (4, 5, 6) 2)%R 9
                   [1; 2; 3; 4; 5; 6; 7; 8; 9]%R (repeat 0%R 9) = Ok out'.
Proof.
  apply (FastGaussian1D_target_independent HWY_SCALAR (HWY_SIMD 8)
           (1, 2, 3)%R (4, 5, 6)%R 2 9 [1; 2; 3; 4; 5; 6; 7; 8; 9]%R
           (repeat 0%R 9)).
  - exact I.
  - simpl. repeat split; try lia; reflexivity.
  - lia.
  - lia.
  - simpl. lia.
  - simpl. lia.
Defined.

Lemma getz_nil (q : Z) : getz ([] : list R) q = 0%R.
Proof. unfold getz. destruct (Z.to_nat q); reflexivity. Qed.

Lemma column_getz (pl : list (list R)) (q m : Z) :
  getz (column pl q) m = at2 pl m q.
Proof.
  unfold column, at2, getz at 1.
  rewrite <- (getz_nil q) at 1.
  apply (map_nth (fun r => getz r q)).
Qed.

Lemma column_signal (ysize : Z) (pl : list (list R)) (q i : Z) :
  row_signal ysize (column pl q) i = col_signal ysize pl q i.
Proof.
  unfold row_signal, col_signal. rewrite column_getz. reflexivity.
Qed.

Lemma shape_length (a b : list (list R)) :
  map (@length R) a = map (@length R) b -> length a = length b.
Proof.
  intros H. rewrite <- (length_map (@length R) a), H, length_map. reflexivity.
Qed.

(** X3: [FastGaussianVertical] on any target, with the tables that
    [CreateRecursiveGaussian] fills, a radius of at least 1 and rows that
    hold whole vectors, returns success when the allocation succeeds, and
    then every float of the columns [0 .. xsize - 1] of the output is the
    output of the direct recursion run down the zero-padded column of the
    input; the rows keep their lengths, and the floats from
    [RoundUpTo(xsize, Lanes(df))] on are untouched. *)
Theorem FastGaussianVertical_is_direct_filter (t : Target)
    (memory_manager : Z -> option (list R)) (n2_ d1_ : R * R * R)
    (N xsize ysize : Z) (input output : list (list R)) :
  target_ok t -> allocator_ok memory_manager ->
  memory_manager (scratch_size_of t) <> None ->
  1 <= N < 2 ^ 62 -> 0 <= xsize < 2 ^ 62 -> 0 <= ysize < 2 ^ 62 ->
  rows_ok input ysize (RoundUpTo xsize (Z.of_nat (LanesFull t))) ->
  rows_ok output ysize (RoundUpTo xsize (Z.of_nat (LanesFull t))) ->
  exists out',
    FastGaussianVertical t memory_manager (fill_tables n2_ d1_ N) xsize ysize
                         input output = Ok (true, out')
    /\ map (@length R) out' = map (@length R) output
    /\ (forall m q, 0 <= m < ysize -> 0 <= q < xsize ->
          at2 out' m q = direct_filter n2_ d1_ N (col_signal ysize input q) m)
    /\ (forall m q, 0 <= m -> RoundUpTo xsize (Z.of_nat (LanesFull t)) <= q ->
          at2 out' m q = at2 output m q).
Proof.
  intros Hok Halloc Hmm HN Hxs Hys Hin Hout.
  destruct (memory_manager (scratch_size_of t)) as [mem|] eqn:Emm;
    [|congruence].
  destruct (FastGaussianVertical_direct t memory_manager n2_ d1_ N xsize ysize
              input output mem Hok Halloc Emm HN Hxs Hys Hin Hout)
    as (out' & Hrun & Hshape & Hval & Hfar).
  exists out'. split; [exact Hrun|]. split; [exact Hshape|].
  split; [exact Hval|].
  intros m q Hm Hq. apply Hfar; try lia.
  pose proof (LanesFull_ok t Hok).
  pose proof (RoundUpTo_ge xsize (Z.of_nat (LanesFull t)) ltac:(lia)). lia.
Qed.

Lemma FastGaussianVertical_is_direct_filter_witness :
  exists out',
    FastGaussianVertical (HWY_SIMD 4) r_alloc
      (fill_tables (1, 2, 3) (4, 5, 6) 1)%R 3 2 r_plane r_ones = Ok (true, out')
    /\ map (@length R) out' = map (@length R) r_ones
    /\ (forall m q, 0 <= m < 2 -> 0 <= q < 3 ->
          at2 out' m q
          = direct_filter (1, 2, 3)%R (4, 5, 6)%R 1 (col_signal 2 r_plane q) m)
    /\ (forall m q, 0 <= m -> RoundUpTo 3 (Z.of_nat (LanesFull (HWY_SIMD 4))) <= q ->
          at2 out' m q = at2 r_ones m q).
Proof.
  apply (FastGaussianVertical_is_direct_filter (HWY_SIMD 4) r_alloc
           (1, 2, 3)%R (4, 5, 6)%R 1 3 2 r_plane r_ones).
  - simpl. repeat split; try lia; reflexivity.
  - exact r_alloc_ok.
  - vm_compute. discriminate.
  - lia.
  - lia.
  - lia.
  - split; [reflexivity|]. unfold r_plane, r_ones.
    repeat constructor; vm_compute; discriminate.
  - split; [reflexivity|]. unfold r_plane, r_ones.
    repeat constructor; vm_compute; discriminate.
Defined.

(** X4: in exact real arithmetic, the vertical pass computes in every
    column what the horizontal kernel computes in a row: for each column
    [q] below [xsize], the column of the output of [FastGaussianVertical]
    is the row that [FastGaussian1D], on any target, writes for the column
    of the input. *)
Theorem FastGaussianVertical_is_FastGaussian1D_on_columns (t t' : Target)
    (memory_manager : Z -> option (list R)) (n2_ d1_ : R * R * R)
    (N xsize ysize : Z) (input output : list (list R)) (q : Z) :
  target_ok t -> target_ok t' -> allocator_ok memory_manager ->
  memory_manager (scratch_size_of t) <> None ->
  1 <= N < 2 ^ 62 -> 0 <= xsize < 2 ^ 62 -> 0 <= ysize < 2 ^ 62 ->
  rows_ok input ysize (RoundUpTo xsize (Z.of_nat (LanesFull t))) ->
  rows_ok output ysize (RoundUpTo xsize (Z.of_nat (LanesFull t))) ->
  0 <= q < xsize ->
  exists out',
    FastGaussianVertical t memory_manager (fill_tables n2_ d1_ N) xsize ysize
                         input output = Ok (true, out')
    /\ FastGaussian1D t' (fill_tables n2_ d1_ N) ysize
                      (column input q) (column output q)
       = Ok (column out' q).
Proof.
  intros Hok Hok' Halloc Hmm HN Hxs Hys Hin Hout Hq.
  destruct (memory_manager (scratch_size_of t)) as [mem|] eqn:Emm;
    [|congruence].
  destruct (FastGaussianVertical_direct t memory_manager n2_ d1_ N xsize ysize
              input output mem Hok Halloc Emm HN Hxs Hys Hin Hout)
    as (out' & Hrun & Hshape & Hval & _).
  exists out'. split; [exact Hrun|].
  assert (Lin : Z.of_nat (length (column input q)) = ysize).
  { unfold column. rewrite length_map. apply Hin. }
  assert (Lout : Z.of_nat (length (column output q)) = ysize).
  { unfold column. rewrite length_map. apply Hout. }
  destruct (FastGaussian1D_direct t' n2_ d1_ N ysize (column input q)
              (column output q) Hok' ltac:(lia) ltac:(lia) ltac:(lia))
    as (col' & Hcol & Hlen & Hlow & _).
  rewrite Hcol. f_equal. symmetry.
  apply getz_ext.
  - rewrite Hlen. unfold column. rewrite !length_map.
    apply shape_length. exact Hshape.
  - intros m Hm.
    assert (Hm' : 0 <= m < ysize).
    { unfold column in Hm. rewrite length_map in Hm.
      rewrite (shape_length _ _ Hshape) in Hm.
      destruct Hout as [Hl _]. lia. }
    rewrite column_getz, Hval, Hlow by lia.
    apply direct_filter_ext. intros i. symmetry. apply column_signal.
Qed.

Lemma FastGaussianVertical_is_FastGaussian1D_on_columns_witness :
  exists out',
    FastGaussianVertical (HWY_SIMD 4) r_alloc
      (fill_tables (1, 2, 3) (4, 5, 6) 1)%R 3 2 r_plane r_ones = Ok (true, out')
    /\ FastGaussian1D HWY_SCALAR (fill_tables (1, 2, 3) (4, 5, 6) 1)%R 2
                      (column r_plane 2) (column r_ones 2)
       = Ok (column out' 2).
Proof.
  apply (FastGaussianVertical_is_FastGaussian1D_on_columns (HWY_SIMD 4)
           HWY_SCALAR r_alloc (1, 2, 3)%R (4, 5, 6)%R 1 3 2 r_plane r_ones 2).
  - simpl. repeat split; try lia; reflexivity.
  - exact I.
  - exact r_alloc_ok.
  - vm_compute. discriminate.
  - lia.
  - lia.
  - lia.
  - split; [reflexivity|]. unfold r_plane, r_ones.
    repeat constructor; vm_compute; discriminate.
  - split; [reflexivity|]. unfold r_plane, r_ones.
    repeat constructor; vm_compute; discriminate.
  - lia.
Defined.

(** The horizontal pass row by row. *)
Lemma FastGaussianHorizontal_direct (t : Target) (n2_ d1_ : R * R * R)
    (N xsize ysize : Z) (input out : list (list R)) :
  target_ok t -> 1 <= N -> 0 <= xsize -> 0 <= ysize ->
  rows_ok input ysize xsize -> rows_ok out ysize xsize ->
  exists out',
    FastGaussianHorizontal t (fill_tables n2_ d1_ N) xsize ysize input out
    = Ok (true, out')
    /\ map (@length R) out' = map (@length R) out
    /\ (forall m q, 0 <= m < ysize -> 0 <= q < xsize ->
          at2 out' m q
          = direct_filter n2_ d1_ N
              (row_signal xsize (nth (Z.to_nat m) input [])) q)
    /\ (forall m q, 0 <= m -> 0 <= q -> ysize <= m \/ xsize <= q ->
          at2 out' m q = at2 out m q).
Proof.
  intros Hok HN Hx Hy Hin Hout. unfold FastGaussianHorizontal.
  pose (P := fun (y : Z) (s : list (list R)) =>
    0 <= y <= ysize
    /\ map (@length R) s = map (@length R) out
    /\ (forall m q, 0 <= m < y -> 0 <= q < xsize ->
          at2 s m q
          = direct_filter n2_ d1_ N
              (row_signal xsize (nth (Z.to_nat m) input [])) q)
    /\ (forall m q, 0 <= m -> 0 <= q -> y <= m \/ xsize <= q ->
          at2 s m q = at2 out m q)).
  destruct (for_lt_inv P ysize 1
              (process_line t (fill_tables n2_ d1_ N) xsize input))
    with (n := 0) (s := out) as (y' & out' & Hrun & HP & Hend).
  - lia.
  - intros y s (Hy0 & Hshape & Hlow & Hhigh) Hlt.
    unfold process_line.
    destruct (rows_ok_get input ysize xsize y Hin ltac:(lia))
      as (r_in & Hr_in & Lin).
    rewrite (get_row_ok input y r_in ltac:(lia) Hr_in). cbn [bind].
    assert (Hrows : rows_ok s ysize xsize)
      by (eapply rows_ok_shape; eauto).
    destruct (rows_ok_get s ysize xsize y Hrows ltac:(lia))
      as (r_out & Hr_out & Lout).
    rewrite (get_row_ok s y r_out ltac:(lia) Hr_out). cbn [bind].
    destruct (FastGaussian1D_direct t n2_ d1_ N xsize r_in r_out Hok HN
                ltac:(lia) Lout)
      as (r & -> & Hlen & Hval & Hrest).
    cbn [bind]. eexists. split; [reflexivity|].
    split; [lia|]. split.
    { rewrite (set_row_shape s (Z.to_nat y) r_out r Hr_out Hlen). exact Hshape. }
    split.
    + intros m q Hm Hq.
      rewrite (at2_set_row s y r_out r) by (assumption || lia).
      destruct (Z.eqb_spec m y) as [->|Hne].
      * rewrite Hval by lia.
        rewrite (nth_error_nth _ _ [] Hr_in). reflexivity.
      * apply Hlow; lia.
    + intros m q Hm Hq Hfar.
      rewrite (at2_set_row s y r_out r) by (assumption || lia).
      destruct (Z.eqb_spec m y) as [->|Hne].
      * rewrite Hrest by lia. rewrite <- (at2_row s y q r_out Hr_out).
        apply Hhigh; lia.
      * apply Hhigh; lia.
  - unfold P. split; [lia|]. split; [reflexivity|].
    split; [intros; lia | reflexivity].
  - rewrite Hrun. cbn [bind].
    destruct HP as (Hy' & Hshape & Hlow & Hhigh).
    assert (y' = ysize) by lia. subst y'.
    exists out'. split; [reflexivity|]. split; [exact Hshape|].
    split; [exact Hlow | exact Hhigh].
Qed.

(** A loop of tasks that all return [true], on task ids below [2^32], is the
    loop of their effects. *)
Lemma for_loop_tasks {S : Type} (f : Z -> S -> outcome S) (bound : Z)
    (fuel : nat) (n : Z) (s : S) :
  0 <= n -> bound <= 2 ^ 32 ->
  for_loop fuel (fun n => n <? bound) (fun n => n + 1)
    (fun task '(ok, s) =>
       '(ok', s') <- (s' <- f (uint32_t task) s ;; Ok (true, s')) ;;
       Ok (ok && ok', s'))
    n (true, s)
  = '(n', s') <- for_loop fuel (fun n => n <? bound) (fun n => n + 1) f n s ;;
    Ok (n', (true, s')).
Proof.
  revert n s. induction fuel as [|fuel IH]; intros n s Hn Hb; simpl.
  - destruct (n <? bound); reflexivity.
  - destruct (n <? bound) eqn:E; [|reflexivity].
    apply Z.ltb_lt in E.
    unfold uint32_t at 1. rewrite Z.mod_small by lia.
    destruct (f n s) as [s'| | | |]; cbn [bind andb]; try reflexivity.
    apply IH; lia.
Qed.

(** On a pool, for fewer than [2^32] rows, the horizontal pass is the loop
    over the rows, and its status is the one of the pool. *)
Lemma FastGaussianHorizontal_pool_rows {T : Type} {LT : Lane T} (t : Target)
    (rg : RecursiveGaussian T) (xsize ysize : Z) (input out : list (list T))
    (pool : ThreadPool) :
  ysize <= 2 ^ 32 ->
  FastGaussianHorizontal_pool t rg xsize ysize input out pool
  = '(_, out') <- FastGaussianHorizontal t rg xsize ysize input out ;;
    Ok (runner_ok pool, out').
Proof.
  intros Hy. unfold FastGaussianHorizontal_pool, RunOnPool, FastGaussianHorizontal.
  cbv zeta. unfold for_lt.
  rewrite (for_loop_tasks (process_line t rg xsize input) ysize) by lia.
  destruct (for_loop _ _ _ _ 0 out) as [[n' out']| | | |]; cbn [bind];
    try reflexivity.
  rewrite andb_true_r. destruct (runner_ok pool); reflexivity.
Qed.

(** The horizontal pass on a pool, row by row. *)
Lemma FastGaussianHorizontal_pool_direct (t : Target) (n2_ d1_ : R * R * R)
    (N xsize ysize : Z) (input out : list (list R)) (pool : ThreadPool) :
  target_ok t -> 1 <= N -> 0 <= xsize -> 0 <= ysize < 2 ^ 32 ->
  rows_ok input ysize xsize -> rows_ok out ysize xsize ->
  exists out',
    FastGaussianHorizontal_pool t (fill_tables n2_ d1_ N) xsize ysize input
                                out pool
    = Ok (runner_ok pool, out')
    /\ map (@length R) out' = map (@length R) out
    /\ (forall m q, 0 <= m < ysize -> 0 <= q < xsize ->
          at2 out' m q
          = direct_filter n2_ d1_ N
              (row_signal xsize (nth (Z.to_nat m) input [])) q)
    /\ (forall m q, 0 <= m -> 0 <= q -> ysize <= m \/ xsize <= q ->
          at2 out' m q = at2 out m q).
Proof.
  intros Hok HN Hx Hy Hin Hout.
  destruct (FastGaussianHorizontal_direct t n2_ d1_ N xsize ysize input out)
    as (out' & Hrun & Hrest); auto; try lia.
  exists out'. split; [|exact Hrest].
  rewrite FastGaussianHorizontal_pool_rows by lia.
  rewrite Hrun. reflexivity.
Qed.

(** X5: for fewer than [2^32] rows, [FastGaussianHorizontal] returns the
    status of the pool, success or failure.  When the pool reports
    success, every float of the columns [0 .. xsize - 1] of row [m] of the
    output is, in exact real arithmetic, the output of the direct recursion
    along row [m] of the input padded with zeros.  In either case the rows
    keep their lengths and the rest of the output plane is untouched. *)
Theorem FastGaussianHorizontal_is_direct_filter (t : Target)
    (n2_ d1_ : R * R * R) (N xsize ysize : Z) (input out : list (list R))
    (pool : ThreadPool) :
  target_ok t -> 1 <= N < 2 ^ 62 -> 0 <= xsize < 2 ^ 62 ->
  0 <= ysize < 2 ^ 32 ->
  rows_ok input ysize xsize -> rows_ok out ysize xsize ->
  exists out',
    FastGaussianHorizontal_pool t (fill_tables n2_ d1_ N) xsize ysize input
                                out pool
    = Ok (runner_ok pool, out')
    /\ map (@length R) out' = map (@length R) out
    /\ (runner_ok pool = true ->
        forall m q, 0 <= m < ysize -> 0 <= q < xsize ->
          at2 out' m q
          = direct_filter n2_ d1_ N
              (row_signal xsize (nth (Z.to_nat m) input [])) q)
    /\ (forall m q, 0 <= m -> 0 <= q -> ysize <= m \/ xsize <= q ->
          at2 out' m q = at2 out m q).
Proof.
  intros Hok HN Hx Hy Hin Hout.
  destruct (FastGaussianHorizontal_pool_direct t n2_ d1_ N xsize ysize input
              out pool)
    as (out' & Hrun & Hshape & Hval & Hrest); auto; try lia.
  exists out'. split; [exact Hrun|]. split; [exact Hshape|].
  split; [intros _; exact Hval | exact Hrest].
Qed.

Lemma FastGaussianHorizontal_is_direct_filter_witness :
  exists out',
    FastGaussianHorizontal_pool (HWY_SIMD 4)
      (fill_tables (1, 2, 3) (4, 5, 6) 1)%R 3 2 r_plane r_ones (mkPool true)
    = Ok (runner_ok (mkPool true), out')
    /\ map (@length R) out' = map (@length R) r_ones
    /\ (runner_ok (mkPool true) = true ->
        forall m q, 0 <= m < 2 -> 0 <= q < 3 ->
          at2 out' m q
          = direct_filter (1, 2, 3)%R (4, 5, 6)%R 1
              (row_signal 3 (nth (Z.to_nat m) r_plane [])) q)
    /\ (forall m q, 0 <= m -> 0 <= q -> 2 <= m \/ 3 <= q ->
          at2 out' m q = at2 r_ones m q).
Proof.
  apply (FastGaussianHorizontal_is_direct_filter (HWY_SIMD 4)
           (1, 2, 3)%R (4, 5, 6)%R 1 3 2 r_plane r_ones (mkPool true)).
  - simpl. repeat split; try lia; reflexivity.
  - lia.
  - lia.
  - lia.
  - split; [reflexivity|]. unfold r_plane, r_ones.
    repeat constructor; vm_compute; discriminate.
  - split; [reflexivity|]. unfold r_plane, r_ones.
    repeat constructor; vm_compute; discriminate.
Defined.

Lemma FastGaussianVertical_no_memory (t : Target)
    (memory_manager : Z -> option (list R)) (rg : RecursiveGaussian R)
    (xsize ysize : Z) (input output : list (list R)) :
  memory_manager (scratch_size_of t) = None ->
  FastGaussianVertical t memory_manager rg xsize ysize input output
  = Ok (false, output).
Proof.
  intros Emm. unfold FastGaussianVertical. cbv zeta.
  change (Z.max (64 / sizeof_float / Z.of_nat (LanesFull t)) 4) with (unroll_of t).
  change (size_t (unroll_of t * Z.of_nat (LanesFull t))) with (fast_pace_of t).
  change (size_t (fast_pace_of t * sizeof_float * (1 + 3 * kRingBufferLen)))
    with (scratch_size_of t).
  rewrite Emm. reflexivity.
Qed.

Lemma RoundUpTo_lanes (t : Target) (xsize : Z) :
  target_ok t -> xsize <= RoundUpTo xsize (Z.of_nat (LanesFull t)).
Proof.
  intros Hok. pose proof (LanesFull_ok t Hok).
  apply RoundUpTo_ge. lia.
Qed.

(** X6: in exact real arithmetic, [FastGaussian] is the vertical pass after
    the horizontal pass: when the pool reports success and the allocation
    succeeds it returns success, [temp] holds, in the columns below
    [xsize], the direct recursion along each row of the input, and [out]
    holds, in the columns below [xsize], the direct recursion down each
    column of that [temp]. *)
Theorem FastGaussian_is_separable (t : Target)
    (memory_manager : Z -> option (list R)) (n2_ d1_ : R * R * R)
    (N xsize ysize : Z) (input temp out : list (list R))
    (pool : ThreadPool) :
  target_ok t -> allocator_ok memory_manager ->
  runner_ok pool = true ->
  memory_manager (scratch_size_of t) <> None ->
  1 <= N < 2 ^ 62 -> 0 <= xsize < 2 ^ 62 -> 0 <= ysize < 2 ^ 32 ->
  rows_ok input ysize xsize ->
  rows_ok temp ysize (RoundUpTo xsize (Z.of_nat (LanesFull t))) ->
  rows_ok out ysize (RoundUpTo xsize (Z.of_nat (LanesFull t))) ->
  exists temp' out',
    FastGaussian t memory_manager (fill_tables n2_ d1_ N) xsize ysize
                 input temp out pool = Ok (true, (temp', out'))
    /\ (forall m q, 0 <= m < ysize -> 0 <= q < xsize ->
          at2 temp' m q
          = direct_filter n2_ d1_ N
              (row_signal xsize (nth (Z.to_nat m) input [])) q)
    /\ (forall m q, 0 <= m < ysize -> 0 <= q < xsize ->
          at2 out' m q
          = direct_filter n2_ d1_ N (col_signal ysize temp' q) m).
Proof.
  intros Hok Halloc Hpool Hmm HN Hxs Hys Hin Htemp Hout.
  pose proof (RoundUpTo_lanes t xsize Hok) as Hw.
  destruct (FastGaussianHorizontal_pool_direct t n2_ d1_ N xsize ysize input
              temp pool)
    as (temp' & Hh & Hshape & Hval & _); auto; try lia.
  { eapply rows_ok_weaken; [|exact Htemp]. exact Hw. }
  destruct (memory_manager (scratch_size_of t)) as [mem|] eqn:Emm;
    [|congruence].
  destruct (FastGaussianVertical_direct t memory_manager n2_ d1_ N xsize ysize
              temp' out mem Hok Halloc Emm HN Hxs ltac:(lia))
    as (out' & Hv & _ & Hvval & _); auto.
  { eapply rows_ok_shape; eauto. }
  exists temp', out'. unfold FastGaussian.
  rewrite Hh, Hpool. cbn [bind negb]. rewrite Hv. cbn [bind negb].
  split; [reflexivity|]. split; [exact Hval | exact Hvval].
Qed.

Lemma FastGaussian_is_separable_witness :
  exists temp' out',
    FastGaussian (HWY_SIMD 4) r_alloc (fill_tables (1, 2, 3) (4, 5, 6) 1)%R
                 3 2 r_plane r_ones r_ones (mkPool true)
    = Ok (true, (temp', out'))
    /\ (forall m q, 0 <= m < 2 -> 0 <= q < 3 ->
          at2 temp' m q
          = direct_filter (1, 2, 3)%R (4, 5, 6)%R 1
              (row_signal 3 (nth (Z.to_nat m) r_plane [])) q)
    /\ (forall m q, 0 <= m < 2 -> 0 <= q < 3 ->
          at2 out' m q
          = direct_filter (1, 2, 3)%R (4, 5, 6)%R 1 (col_signal 2 temp' q) m).
Proof.
  apply (FastGaussian_is_separable (HWY_SIMD 4) r_alloc
           (1, 2, 3)%R (4, 5, 6)%R 1 3 2 r_plane r_ones r_ones (mkPool true)).
  - simpl. repeat split; try lia; reflexivity.
  - exact r_alloc_ok.
  - reflexivity.
  - vm_compute. discriminate.
  - lia.
  - lia.
  - lia.
  - split; [reflexivity|]. unfold r_plane.
    repeat constructor; vm_compute; discriminate.
  - split; [reflexivity|]. unfold r_ones.
    repeat constructor; vm_compute; discriminate.
  - split; [reflexivity|]. unfold r_ones.
    repeat constructor; vm_compute; discriminate.
Defined.

(** X7: [FastGaussian] returns failure exactly when the pool reports a
    failure of the horizontal pass or the allocation of the vertical pass
    fails; either way the output plane is returned as it was.  A failure of
    the allocation comes after the horizontal pass: when the pool has
    reported success, [temp] has been overwritten with the result of the
    horizontal pass (in exact real arithmetic, the direct recursion along
    each row). *)
Theorem FastGaussian_status (t : Target)
    (memory_manager : Z -> option (list R)) (n2_ d1_ : R * R * R)
    (N xsize ysize : Z) (input temp out : list (list R))
    (pool : ThreadPool) :
  target_ok t -> allocator_ok memory_manager ->
  1 <= N < 2 ^ 62 -> 0 <= xsize < 2 ^ 62 -> 0 <= ysize < 2 ^ 32 ->
  rows_ok input ysize xsize ->
  rows_ok temp ysize (RoundUpTo xsize (Z.of_nat (LanesFull t))) ->
  rows_ok out ysize (RoundUpTo xsize (Z.of_nat (LanesFull t))) ->
  exists status temp' out',
    FastGaussian t memory_manager (fill_tables n2_ d1_ N) xsize ysize
                 input temp out pool = Ok (status, (temp', out'))
    /\ (status = false
        <-> runner_ok pool = false
            \/ memory_manager (scratch_size_of t) = None)
    /\ (status = false -> out' = out)
    /\ (runner_ok pool = true ->
        forall m q, 0 <= m < ysize -> 0 <= q < xsize ->
          at2 temp' m q
          = direct_filter n2_ d1_ N
              (row_signal xsize (nth (Z.to_nat m) input [])) q).
Proof.
  intros Hok Halloc HN Hxs Hys Hin Htemp Hout.
  pose proof (RoundUpTo_lanes t xsize Hok) as Hw.
  destruct (FastGaussianHorizontal_pool_direct t n2_ d1_ N xsize ysize input
              temp pool)
    as (temp' & Hh & Hshape & Hval & _); auto; try lia.
  { eapply rows_ok_weaken; [|exact Htemp]. exact Hw. }
  unfold FastGaussian. rewrite Hh. cbn [bind].
  destruct (runner_ok pool) eqn:Epool; cbn [negb].
  - destruct (memory_manager (scratch_size_of t)) as [mem|] eqn:Emm.
    + destruct (FastGaussianVertical_direct t memory_manager n2_ d1_ N xsize
                  ysize temp' out mem Hok Halloc Emm HN Hxs ltac:(lia))
        as (out' & Hv & _); auto.
      { eapply rows_ok_shape; eauto. }
      rewrite Hv. cbn [bind negb].
      exists true, temp', out'. split; [reflexivity|].
      split; [split; [discriminate | intros [H|H]; discriminate]|].
      split; [discriminate | intros _; exact Hval].
    + rewrite (FastGaussianVertical_no_memory t memory_manager _ xsize ysize
                 temp' out Emm).
      cbn [bind negb].
      exists false, temp', out. split; [reflexivity|].
      split; [split; [intros _; right; reflexivity | reflexivity]|].
      split; [reflexivity | intros _; exact Hval].
  - exists false, temp', out. split; [reflexivity|].
    split; [split; [intros _; left; reflexivity | reflexivity]|].
    split; [reflexivity | discriminate].
Qed.

Lemma FastGaussian_status_witness :
  exists status temp' out',
    FastGaussian (HWY_SIMD 4) r_alloc
                 (fill_tables (1, 2, 3) (4, 5, 6) 1)%R
                 3 2 r_plane r_ones r_ones (mkPool false)
    = Ok (status, (temp', out'))
    /\ (status = false
        <-> runner_ok (mkPool false) = false
            \/ r_alloc (scratch_size_of (HWY_SIMD 4)) = None)
    /\ (status = false -> out' = r_ones)
    /\ (runner_ok (mkPool false) = true ->
        forall m q, 0 <= m < 2 -> 0 <= q < 3 ->
          at2 temp' m q
          = direct_filter (1, 2, 3)%R (4, 5, 6)%R 1
              (row_signal 3 (nth (Z.to_nat m) r_plane [])) q).
Proof.
  apply (FastGaussian_status (HWY_SIMD 4) r_alloc
           (1, 2, 3)%R (4, 5, 6)%R 1 3 2 r_plane r_ones r_ones (mkPool false)).
  - simpl. repeat split; try lia; reflexivity.
  - exact r_alloc_ok.
  - lia.
  - lia.
  - lia.
  - split; [reflexivity|]. unfold r_plane.
    repeat constructor; vm_compute; discriminate.
  - split; [reflexivity|]. unfold r_ones.
    repeat constructor; vm_compute; discriminate.
  - split; [reflexivity|]. unfold r_ones.
    repeat constructor; vm_compute; discriminate.
Defined.

(** ** The designer and the kernels *)


Lemma CreateRecursiveGaussian_tables (dassert : bool) (sigma : R)
    (rg : RecursiveGaussian R) :
  Designer.CreateRecursiveGaussian dassert sigma = Ok rg ->
  exists n2_,
    rg = fill_tables n2_ (designed_d1 sigma)
                     (Designer.round (Designer.radius_arg sigma))
    /\ - 2 ^ 31 <= Designer.round (Designer.radius_arg sigma) < 2 ^ 31.
Proof.
  unfold Designer.CreateRecursiveGaussian, designed_d1. cbv zeta.
  destruct (Designer.d_omega (Designer.design_of sigma))
    as [[omega0 omega1] omega2].
  destruct (Designer.Inv3x3Matrix _) as [status A].
  destruct (Designer.beta_of sigma A) as [[beta0 beta1] beta2].
  destruct (Designer.JXL_DASSERT dassert status); cbn [bind]; try discriminate.
  destruct (Designer.JXL_DASSERT dassert _); cbn [bind]; try discriminate.
  unfold Designer.static_cast_int.
  destruct (_ && _)%bool eqn:E; cbn [bind]; [|discriminate].
  intros H.
  exists ((- beta0 * cos (omega0 * (Designer.d_radius (Designer.design_of sigma) + 1)))%R,
          (- beta1 * cos (omega1 * (Designer.d_radius (Designer.design_of sigma) + 1)))%R,
          (- beta2 * cos (omega2 * (Designer.d_radius (Designer.design_of sigma) + 1)))%R).
  split; [injection H as H; symmetry; exact H|].
  apply andb_prop in E. destruct E as [E1 E2].
  apply Z.leb_le in E1. apply Z.ltb_lt in E2. lia.
Qed.

(** X9: the designer and the horizontal kernel together, in exact real
    arithmetic (the designer on reals, the tables not rounded to [float]):
    whenever [CreateRecursiveGaussian] returns a filter for a [sigma] with
    [3.2795 * sigma + 0.2546 >= 0.5], [FastGaussian1D] with that filter
    runs to its end inside a row of [xsize] floats, on any target, and its
    outputs are those of the direct recursion with
    [d1 = -2 * cos(omega)] and the filter's radius. *)
Theorem CreateRecursiveGaussian_then_FastGaussian1D (dassert : bool)
    (sigma : R) (rg : RecursiveGaussian R) (t : Target) (xsize : Z)
    (input output : list R) :
  Designer.CreateRecursiveGaussian dassert sigma = Ok rg ->
  (/ 2 <= Designer.radius_arg sigma)%R ->
  target_ok t -> 0 <= xsize < 2 ^ 62 ->
  xsize <= Z.of_nat (length input) -> xsize <= Z.of_nat (length output) ->
  exists n2_ out',
    rg = fill_tables n2_ (designed_d1 sigma) (radius rg)
    /\ 1 <= radius rg
    /\ FastGaussian1D t rg xsize input output = Ok out'
    /\ length out' = length output
    /\ (forall n, 0 <= n < xsize ->
          getz out' n
          = direct_filter n2_ (designed_d1 sigma) (radius rg)
              (row_signal xsize input) n).
Proof.
  intros Hrun Hsig Hok Hx Hin Hout.
  pose proof (CreateRecursiveGaussian_radius dassert sigma rg Hrun) as Hr.
  destruct (CreateRecursiveGaussian_tables dassert sigma rg Hrun)
    as (n2_ & Hrg & Hrange).
  assert (H1 : 1 <= radius rg) by (rewrite Hr; apply round_ge_1; exact Hsig).
  rewrite <- Hr in Hrg, Hrange.
  exists n2_.
  destruct (FastGaussian1D_direct t n2_ (designed_d1 sigma) (radius rg) xsize
              input output Hok H1 ltac:(lia) Hout)
    as (out' & Hf & Hlen & Hlow & _).
  exists out'. split; [exact Hrg|]. split; [exact H1|].
  split; [rewrite Hrg at 1; exact Hf|]. split; [exact Hlen | exact Hlow].
Qed.

Lemma CreateRecursiveGaussian_then_FastGaussian1D_witness :
  exists rg,
    Designer.CreateRecursiveGaussian true 1 = Ok rg
    /\ exists n2_ out',
         rg = fill_tables n2_ (designed_d1 1) (radius rg)
         /\ 1 <= radius rg
         /\ FastGaussian1D (HWY_SIMD 4) rg 3 [1; 2; 3]%R [0; 0; 0]%R = Ok out'
         /\ length out' = length [0; 0; 0]%R
         /\ (forall n, 0 <= n < 3 ->
               getz out' n
               = direct_filter n2_ (designed_d1 1) (radius rg)
                   (row_signal 3 [1; 2; 3]%R) n).
Proof.
  destruct (CreateRecursiveGaussian_regular 1) as (rg & Hrg & _).
  - rewrite det_zero_iff_radius, round_plus1. lia.
  - rewrite round_plus1. lia.
  - exists rg. split; [apply Hrg|].
    apply (CreateRecursiveGaussian_then_FastGaussian1D true 1 rg (HWY_SIMD 4)
             3 [1; 2; 3]%R [0; 0; 0]%R).
    + apply Hrg.
    + unfold Designer.radius_arg. lra.
    + simpl. repeat split; try lia; reflexivity.
    + lia.
    + simpl. lia.
    + simpl. lia.
Defined.

(** ** A radius of 0 *)

(** A loop whose body fails before its condition turns false. *)
Lemma for_loop_fails {S : Type} (P : Z -> S -> Prop) (m : Z -> nat)
    (cond : Z -> bool) (next : Z -> Z) (body : Z -> S -> outcome S) :
  (forall i s, P i s ->
     cond i = true /\ (1 <= m i)%nat
     /\ ((exists s', body i s = Ok s' /\ P (next i) s' /\ (m (next i) < m i)%nat)
         \/ body i s = OutOfBounds)) ->
  forall fuel n s, P n s -> (m n <= fuel)%nat ->
    for_loop fuel cond next body n s = OutOfBounds.
Proof.
  intros Hstep fuel.
  induction fuel as [|fuel IH]; intros n s HP Hm;
    destruct (Hstep n s HP) as (Hc & H1 & Hb).
  - lia.
  - simpl. rewrite Hc.
    destruct Hb as [(s' & -> & HP' & Hlt) | ->]; [|reflexivity].
    cbn [bind]. apply IH; [exact HP' | lia].
Qed.

Section Radius0.
Context {T : Type} {LT : Lane T}.
Import hwy.

Lemma zip_with_len (f : T -> T -> T) (a b : V) (L : nat) :
  length a = L -> length b = L -> length (zip_with f a b) = L.
Proof. intros Ha Hb. rewrite zip_with_length. lia. Qed.

Lemma single_out_len (L : nat) (a b c s p q : V (T:=T)) :
  length a = L -> length b = L -> length c = L -> length s = L ->
  length p = L -> length q = L ->
  length (single_out a b c s p q) = L.
Proof.
  intros. unfold single_out, MulAdd, Add, Mul.
  repeat apply zip_with_len; assumption.
Qed.

Lemma ShiftLeftLanes_len (k : nat) (v : V (T:=T)) :
  length (ShiftLeftLanes k v) = length v.
Proof.
  unfold ShiftLeftLanes. rewrite length_firstn, length_app, repeat_length. lia.
Qed.

Lemma Broadcast_len (k : nat) (v : V (T:=T)) :
  length (Broadcast k v) = length v.
Proof. unfold Broadcast. apply repeat_length. Qed.

Lemma unrolled_out_len (t : Target) (L : nat) (a b c s p q : V (T:=T)) :
  length a = L -> length b = L -> length c = L -> length s = L ->
  length p = L -> length q = L ->
  length (unrolled_out t a b c s p q) = L.
Proof.
  intros. unfold unrolled_out, MulAdd, Add, Mul.
  destruct (is_scalar t);
    repeat apply zip_with_len;
    rewrite ?ShiftLeftLanes_len, ?Broadcast_len; assumption.
Qed.

(** A bounds-checked step keeps the number of lanes of the state. *)
Lemma checked_body_shape (t : Target) (c : hcoef) (N xsize : Z)
    (input : list T) (guard : bool) (n : Z) (st st' : hstate) :
  hcoef_ok (LanesCapped t) c -> hshape (LanesCapped t) st ->
  checked_body t c N xsize input guard n st = Ok st' ->
  hshape (LanesCapped t) st'.
Proof.
  intros Hc Hs Hrun.
  destruct Hc as (C1 & C2 & C3 & C4 & C5 & C6 & C7 & C8 & C9).
  destruct Hs as (S1 & S2 & S3 & S4 & S5 & S6).
  unfold checked_body in Hrun.
  destruct (left_val input N n) as [l| | | |]; try discriminate.
  destruct (right_val input N xsize n) as [r| | | |]; try discriminate.
  cbn [bind] in Hrun. unfold checked_step in Hrun. cbv zeta in Hrun.
  match type of Hrun with
  | (bind ?m _ = _) => destruct m as [o| | | |]; try discriminate
  end.
  cbn [bind] in Hrun. injection Hrun as <-.
  unfold hshape. cbn [prev_1 prev_3 prev_5 prev2_1 prev2_3 prev2_5].
  assert (Ls : forall x : T, length (SetV (LanesCapped t) x) = LanesCapped t)
    by (intros; apply repeat_length).
  repeat split; try assumption; apply single_out_len; auto.
Qed.

Lemma broadcast_state_shape (t : Target) (L : nat) (st : hstate) :
  hshape L st ->
  hshape L (broadcast_state t st)
  /\ out (broadcast_state t st) = out st.
Proof.
  intros Hs. unfold broadcast_state.
  destruct (is_scalar t); [split; [exact Hs|reflexivity]|].
  destruct Hs as (S1 & S2 & S3 & S4 & S5 & S6).
  split; [|reflexivity].
  unfold hshape. cbn [prev_1 prev_3 prev_5 prev2_1 prev2_3 prev2_5].
  rewrite !Broadcast_len. repeat split; assumption.
Qed.

(** With a radius of 0, an unrolled step of four lanes at [n] runs when
    [n + 4 <= xsize]; at [n = xsize - 3] its two loads are inside the row
    and its store is not. *)
Lemma unrolled_body_radius0 (l : nat) (c : hcoef) (xsize : Z)
    (input : list T) (n : Z) (st : hstate) :
  (4 <= l)%nat -> hcoef_ok 4 c -> hshape 4 st ->
  Z.of_nat (length input) = xsize -> Z.of_nat (length (out st)) = xsize ->
  1 <= n -> n + 3 <= xsize ->
  (n + 4 <= xsize ->
     exists st', unrolled_body (HWY_SIMD l) c 0 input n st = Ok st'
                 /\ hshape 4 st'
                 /\ Z.of_nat (length (out st')) = xsize)
  /\ (xsize < n + 4 ->
        unrolled_body (HWY_SIMD l) c 0 input n st = OutOfBounds).
Proof.
  intros Hl Hc Hs Hin Hout Hn Hfit.
  destruct Hc as (C1 & C2 & C3 & C4 & C5 & C6 & C7 & C8 & C9).
  destruct Hs as (S1 & S2 & S3 & S4 & S5 & S6).
  unfold unrolled_body, LoadU. rewrite (LanesCapped_simd l Hl).
  destruct (Load 4 input (n - 0 - 1)) as [a| | | |] eqn:Ea;
    try (rewrite Load_ok in Ea by lia; discriminate).
  destruct (Load 4 input (n + 0 - 1)) as [b| | | |] eqn:Eb;
    try (rewrite Load_ok in Eb by lia; discriminate).
  destruct (Load_getz _ _ _ _ Ea) as [La _].
  destruct (Load_getz _ _ _ _ Eb) as [Lb _].
  cbn [bind]. cbv zeta.
  assert (Lsum : length (Add a b) = 4%nat) by (apply zip_with_len; assumption).
  set (o1 := unrolled_out _ (mul_in_1 c) _ _ _ _ _).
  set (o3 := unrolled_out _ (mul_in_3 c) _ _ _ _ _).
  set (o5 := unrolled_out _ (mul_in_5 c) _ _ _ _ _).
  assert (L1 : length o1 = 4%nat) by (apply unrolled_out_len; assumption).
  assert (L3 : length o3 = 4%nat) by (apply unrolled_out_len; assumption).
  assert (L5 : length o5 = 4%nat) by (apply unrolled_out_len; assumption).
  assert (Lv : length (Add o1 (Add o3 o5)) = 4%nat)
    by (apply zip_with_len; [assumption | apply zip_with_len; assumption]).
  split.
  - intros Hok.
    destruct (Store (Add o1 (Add o3 o5)) (out st) n) as [o'| | | |] eqn:St;
      try (rewrite Store_ok in St by lia; discriminate).
    destruct (Store_getz _ _ _ _ St) as (Hlen' & _).
    cbn [bind]. eexists. split; [reflexivity|].
    split; [|cbn [out]; lia].
    unfold hshape, next_prev, next_prev2.
    cbn [prev_1 prev_3 prev_5 prev2_1 prev2_3 prev2_5 is_scalar].
    rewrite !Broadcast_len. repeat split; assumption.
  - intros Hover. unfold Store. rewrite Lv.
    destruct (Z.leb_spec (n + Z.of_nat 4) (Z.of_nat (length (out st))));
      [lia|].
    rewrite andb_false_r. reflexivity.
Qed.

(** X10: a radius of 0 makes the unrolled loop of [FastGaussian1D] store
    past the end of the row: on a vector target, for a row of exactly
    [xsize] floats with [xsize >= 7] and [xsize mod 4 = 3], the last
    unrolled step is at [n = xsize - 3] and stores four lanes there. *)
Theorem FastGaussian1D_radius0_overrun (l : nat) (rg : RecursiveGaussian T)
    (xsize : Z) (input output : list T) :
  target_ok (HWY_SIMD l) -> tables_ok rg -> radius rg = 0 ->
  7 <= xsize -> xsize mod 4 = 3 ->
  Z.of_nat (length input) = xsize -> Z.of_nat (length output) = xsize ->
  FastGaussian1D (HWY_SIMD l) rg xsize input output = OutOfBounds.
Proof.
  intros Hok Htab Hrad Hx Hmod Hin Hout.
  assert (Hl : (4 <= l)%nat) by (destruct Hok; assumption).
  pose proof (LanesCapped_simd l Hl) as HL.
  unfold FastGaussian1D. cbv zeta.
  destruct (load_coef_ok (HWY_SIMD l) rg Hok Htab) as (c & -> & Hc).
  cbn [bind]. rewrite Hrad.
  assert (Hfa : first_aligned (HWY_SIMD l) 0 = 4).
  { unfold first_aligned. rewrite HL. reflexivity. }
  rewrite Hfa. replace (Z.min 4 xsize) with 4 by lia.
  change (- 0 + 1) with 1.
  set (st0 := mkH _ _ _ _ _ _ output).
  assert (Hs0 : hshape (LanesCapped (HWY_SIMD l)) st0).
  { unfold hshape, st0, Zero.
    cbn [prev_1 prev_3 prev_5 prev2_1 prev2_3 prev2_5].
    rewrite !repeat_length. repeat split. }
  destruct (for_lt_inv
              (fun i s => 1 <= i <= 4 /\ hshape (LanesCapped (HWY_SIMD l)) s
                          /\ Z.of_nat (length (out s)) = xsize)
              4 1 (checked_body (HWY_SIMD l) c 0 xsize input true))
    with (n := 1) (s := st0) as (n1 & st1 & -> & (Hn1 & Hs1 & Ho1) & Hge1).
  { lia. }
  { intros i s (Hi & Hs & Ho) Hlt.
    destruct (checked_body_safe (HWY_SIMD l) c 0 xsize input true i s Hin Ho
                ltac:(lia) ltac:(lia) ltac:(left; reflexivity))
      as (s' & Hs' & Ho').
    exists s'. split; [exact Hs'|]. split; [lia|].
    split; [|exact Ho'].
    eapply checked_body_shape; eauto. }
  { split; [lia|]. split; [exact Hs0 | exact Hout]. }
  assert (n1 = 4) by lia. subst n1.
  cbn [bind].
  destruct (broadcast_state_shape (HWY_SIMD l) _ st1 Hs1) as (Hsb & Hob).
  rewrite HL in Hsb, Hc |- *.
  unfold for_lt.
  rewrite (for_loop_fails
             (fun i s => 4 <= i <= xsize - 3 /\ i mod 4 = 0 /\ hshape 4 s
                         /\ Z.of_nat (length (out s)) = xsize)
             (fun i => Z.to_nat (unrolled_end 0 xsize - i))).
  - reflexivity.
  - intros i s (Hi & Him & Hs & Ho).
    unfold unrolled_end, JXL_GAUSS_MAX_LANES.
    split; [apply Z.ltb_lt; lia|]. split; [lia|].
    destruct (unrolled_body_radius0 l c xsize input i s Hl Hc Hs Hin Ho
                ltac:(lia) ltac:(lia)) as (Hgo & Hstop).
    destruct (Z.le_gt_cases (i + 4) xsize) as [Hle|Hgt].
    + left. destruct (Hgo Hle) as (s' & Hs' & Hsh' & Ho').
      exists s'. split; [exact Hs'|]. split; [|lia].
      change (Z.of_nat 4) with 4.
      split; [|split; [|split; assumption]].
      * assert (E : (i + 4) mod 4 = 0).
        { rewrite <- Z.add_mod_idemp_l, Him by lia. reflexivity. }
        pose proof (Z.div_mod i 4 ltac:(lia)).
        pose proof (Z.div_mod xsize 4 ltac:(lia)). lia.
      * rewrite <- Z.add_mod_idemp_l, Him by lia. reflexivity.
    + right. apply Hstop. lia.
  - split; [lia|]. split; [reflexivity|]. split; [exact Hsb|].
    rewrite Hob. exact Ho1.
  - lia.
Qed.

End Radius0.

Lemma FastGaussian1D_radius0_overrun_witness :
  FastGaussian1D (HWY_SIMD 4) (fill_tables (2, 3, 5) (1, -1, 2) 0) 7
                 [1; 2; 3; 4; 5; 6; 7] [0; 0; 0; 0; 0; 0; 0] = OutOfBounds.
Proof.
  apply (FastGaussian1D_radius0_overrun 4 (fill_tables (2, 3, 5) (1, -1, 2) 0)
           7 [1; 2; 3; 4; 5; 6; 7] [0; 0; 0; 0; 0; 0; 0]).
  - simpl. repeat split; try lia; reflexivity.
  - repeat split.
  - reflexivity.
  - lia.
  - reflexivity.
  - reflexivity.
  - reflexivity.
Defined.

(** ** What an output depends on *)




(** ** Linearity *)

Lemma direct_state_linear (n d a : R) (u v w : nat -> R) (j : nat) :
  (forall i, (i < j)%nat -> w i = (a * u i + v i)%R) ->
  fst (direct_state n d w j)
  = (a * fst (direct_state n d u j) + fst (direct_state n d v j))%R
  /\ snd (direct_state n d w j)
     = (a * snd (direct_state n d u j) + snd (direct_state n d v j))%R.
Proof.
  induction j as [|j IH]; intros H.
  - cbn [direct_state fst snd]. split; ring.
  - destruct IH as [IH1 IH2]; [intros; apply H; lia|].
    rewrite !direct_state_S. cbn [fst snd].
    split; [|exact IH1].
    rewrite IH1, IH2, (H j) by lia.
    unfold direct_step. cbn. ring.
Qed.

(** X12: [FastGaussian1D] is linear in its input row: the row
    [a * x + y] gives [a] times the outputs of [x] plus the outputs of
    [y]. *)
Theorem FastGaussian1D_linear (t : Target) (n2_ d1_ : R * R * R)
    (N xsize : Z) (a : R) (x y z output : list R) :
  target_ok t -> 1 <= N < 2 ^ 62 -> 0 <= xsize < 2 ^ 62 ->
  xsize <= Z.of_nat (length x) -> xsize <= Z.of_nat (length y) ->
  xsize <= Z.of_nat (length z) -> xsize <= Z.of_nat (length output) ->
  (forall i, 0 <= i < xsize -> getz z i = (a * getz x i + getz y i)%R) ->
  exists out_x out_y out_z,
    FastGaussian1D t (fill_tables n2_ d1_ N) xsize x output = Ok out_x
    /\ FastGaussian1D t (fill_tables n2_ d1_ N) xsize y output = Ok out_y
    /\ FastGaussian1D t (fill_tables n2_ d1_ N) xsize z output = Ok out_z
    /\ forall n, 0 <= n < xsize ->
         getz out_z n = (a * getz out_x n + getz out_y n)%R.
Proof.
  intros Hok HN Hx Hlx Hly Hlz Hout Hz.
  destruct (FastGaussian1D_direct t n2_ d1_ N xsize x output Hok
              ltac:(lia) ltac:(lia) Hout) as (ox & Hrx & _ & Hvx & _).
  destruct (FastGaussian1D_direct t n2_ d1_ N xsize y output Hok
              ltac:(lia) ltac:(lia) Hout) as (oy & Hry & _ & Hvy & _).
  destruct (FastGaussian1D_direct t n2_ d1_ N xsize z output Hok
              ltac:(lia) ltac:(lia) Hout) as (oz & Hrz & _ & Hvz & _).
  exists ox, oy, oz. split; [exact Hrx|]. split; [exact Hry|].
  split; [exact Hrz|].
  intros n Hn. rewrite Hvx, Hvy, Hvz by exact Hn.
  unfold direct_filter, modes_out.
  destruct n2_ as [[a0 a1] a2], d1_ as [[b0 b1] b2].
  assert (Hsig : forall i, row_signal xsize z i
                 = (a * row_signal xsize x i + row_signal xsize y i)%R).
  { intros i. unfold row_signal.
    destruct ((0 <=? i) && (i <? xsize))%bool eqn:E; [|ring].
    apply andb_prop in E. destruct E as [E1 E2].
    apply Z.leb_le in E1. apply Z.ltb_lt in E2. apply Hz. lia. }
  assert (E : forall c d j,
            fst (direct_state c d (taps N (row_signal xsize z)) j)
            = (a * fst (direct_state c d (taps N (row_signal xsize x)) j)
               + fst (direct_state c d (taps N (row_signal xsize y)) j))%R).
  { intros c d j. apply direct_state_linear. intros i _. unfold taps.
    rewrite !Hsig. ring. }
  rewrite !E. ring.
Qed.

Lemma FastGaussian1D_linear_witness :
  exists out_x out_y out_z,
    FastGaussian1D (HWY_SIMD 4) (fill_tables (1, 2, 3) (4, 5, 6) 1)%R 2
                   [1; 2]%R [0; 0]%R = Ok out_x
    /\ FastGaussian1D (HWY_SIMD 4) (fill_tables (1, 2, 3) (4, 5, 6) 1)%R 2
                   [3; 4]%R [0; 0]%R = Ok out_y
    /\ FastGaussian1D (HWY_SIMD 4) (fill_tables (1, 2, 3) (4, 5, 6) 1)%R 2
                   [5; 8]%R [0; 0]%R = Ok out_z
    /\ forall n, 0 <= n < 2 ->
         getz out_z n = (2 * getz out_x n + getz out_y n)%R.
Proof.
  apply (FastGaussian1D_linear (HWY_SIMD 4) (1, 2, 3)%R (4, 5, 6)%R 1 2 2
           [1; 2]%R [3; 4]%R [5; 8]%R [0; 0]%R).
  - simpl. repeat split; try lia; reflexivity.
  - lia.
  - lia.
  - simpl. lia.
  - simpl. lia.
  - simpl. lia.
  - simpl. lia.
  - intros i Hi. assert (Hc : i = 0 \/ i = 1) by lia.
    destruct Hc as [-> | ->]; unfold getz; simpl; lra.
Defined.

(** ** The ring buffer and the warmup *)

(** X13: a call of [VerticalBlock] for row [n] writes slot [n & 3] of the
    ring buffer only: the slots of the three rows before it keep their
    values in every mode and lane, and the buffer keeps its size; with
    [OutputNone], as in the warmup, the output plane is left as it is. *)
Theorem VerticalBlock_keeps_other_slots {T : Type} {LT : Lane T}
    (target : Target) (kVectors : Z) (c : vcoef) (input : Input) (n : Z)
    (st : vstate) :
  let L := Z.of_nat (LanesFull target) in
  let kLanes := kVectors * L in
  1 <= L -> 0 <= kVectors ->
  3 * kLanes * kRingBufferLen <= Z.of_nat (length (ring_buffer st)) ->
  vcoef_ok (LanesFull target) c ->
  input_ok kLanes input ->
  exists st',
    VerticalBlock target kVectors c input n OutputNone None st = Ok st'
    /\ plane st' = plane st
    /\ length (ring_buffer st') = length (ring_buffer st)
    /\ (forall k s i, 0 <= k < 3 -> 0 <= s < 4 ->
          s <> Z.land n kRingBufferMask -> 0 <= i < kLanes ->
          ring_at (ring_buffer st') kLanes k s i
          = ring_at (ring_buffer st) kLanes k s i).
Proof.
  intros L kLanes HL HkV Hrb Hc Hin.
  destruct (VerticalBlock_spec target kVectors c input n OutputNone None st
              HL HkV Hrb Hc Hin I)
    as (st' & Hrun & Hlen & _ & _ & Hkeep).
  exists st'. split; [exact Hrun|].
  split; [exact (VerticalBlock_none _ _ _ _ _ _ _ _ Hrun)|].
  split; [exact Hlen|].
  intros k s i Hk Hs Hne Hi. apply Hkeep; try assumption.
  replace (n - 0) with n by lia. exact Hne.
Qed.

Lemma VerticalBlock_keeps_other_slots_witness :
  exists st',
    VerticalBlock HWY_SCALAR 1 c1_coef c1_input 0 OutputNone None
                  (mkV c1_ring []) = Ok st'
    /\ plane st' = plane (mkV c1_ring [])
    /\ length (ring_buffer st') = length (ring_buffer (mkV c1_ring []))
    /\ (forall k s i, 0 <= k < 3 -> 0 <= s < 4 ->
          s <> Z.land 0 kRingBufferMask ->
          0 <= i < 1 * Z.of_nat (LanesFull HWY_SCALAR) ->
          ring_at (ring_buffer st') (1 * Z.of_nat (LanesFull HWY_SCALAR)) k s i
          = ring_at (ring_buffer (mkV c1_ring []))
                    (1 * Z.of_nat (LanesFull HWY_SCALAR)) k s i).
Proof.
  apply (VerticalBlock_keeps_other_slots HWY_SCALAR 1 c1_coef c1_input 0
           (mkV c1_ring [])).
  - simpl. lia.
  - lia.
  - simpl. lia.
  - repeat split.
  - simpl. unfold pos_ok. simpl. lia.
Defined.

Section Radius0Scalar.
Context {T : Type} {LT : Lane T}.
Import hwy.

(** A bounds-checked step at [n >= 1] leaves [out[0]] as it is. *)
Lemma checked_body_keeps_first (t : Target) (c : hcoef) (N xsize : Z)
    (input : list T) (guard : bool) (n : Z) (st st' : hstate) :
  1 <= n -> checked_body t c N xsize input guard n st = Ok st' ->
  getz (out st') 0 = getz (out st) 0.
Proof.
  intros Hn Hrun. unfold checked_body in Hrun.
  destruct (left_val input N n) as [l| | | |]; try discriminate.
  destruct (right_val input N xsize n) as [r| | | |]; try discriminate.
  cbn [bind] in Hrun. unfold checked_step in Hrun. cbv zeta in Hrun.
  destruct (guard && negb (0 <=? n))%bool.
  - cbn [bind] in Hrun. injection Hrun as <-. reflexivity.
  - unfold write in Hrun.
    match type of Hrun with
    | (bind ?m _ = _) => destruct m as [o| | | |] eqn:St; try discriminate
    end.
    cbn [bind] in Hrun. injection Hrun as <-. cbn [out].
    destruct (Store_getz _ _ _ _ St) as (_ & _ & Hfar).
    apply Hfar; lia.
Qed.

(** With a radius of 0, an unrolled step of one lane at [n >= 1] is inside
    the row and leaves [out[0]] as it is. *)
Lemma unrolled_body_radius0_scalar (c : hcoef) (xsize : Z) (input : list T)
    (n : Z) (st : hstate) :
  hcoef_ok 1 c -> hshape 1 st ->
  Z.of_nat (length input) = xsize -> Z.of_nat (length (out st)) = xsize ->
  1 <= n < unrolled_end 0 xsize ->
  exists st', unrolled_body HWY_SCALAR c 0 input n st = Ok st'
              /\ hshape 1 st'
              /\ Z.of_nat (length (out st')) = xsize
              /\ getz (out st') 0 = getz (out st) 0.
Proof.
  intros Hc Hs Hin Hout Hn.
  unfold unrolled_end, JXL_GAUSS_MAX_LANES in Hn.
  destruct Hc as (C1 & C2 & C3 & C4 & C5 & C6 & C7 & C8 & C9).
  destruct Hs as (S1 & S2 & S3 & S4 & S5 & S6).
  unfold unrolled_body, LoadU.
  change (LanesCapped HWY_SCALAR) with 1%nat.
  destruct (Load 1 input (n - 0 - 1)) as [a| | | |] eqn:Ea;
    try (rewrite Load_ok in Ea by lia; discriminate).
  destruct (Load 1 input (n + 0 - 1)) as [b| | | |] eqn:Eb;
    try (rewrite Load_ok in Eb by lia; discriminate).
  destruct (Load_getz _ _ _ _ Ea) as [La _].
  destruct (Load_getz _ _ _ _ Eb) as [Lb _].
  cbn [bind]. cbv zeta.
  assert (Lsum : length (Add a b) = 1%nat) by (apply zip_with_len; assumption).
  set (o1 := unrolled_out _ (mul_in_1 c) _ _ _ _ _).
  set (o3 := unrolled_out _ (mul_in_3 c) _ _ _ _ _).
  set (o5 := unrolled_out _ (mul_in_5 c) _ _ _ _ _).
  assert (L1 : length o1 = 1%nat) by (apply unrolled_out_len; assumption).
  assert (L3 : length o3 = 1%nat) by (apply unrolled_out_len; assumption).
  assert (L5 : length o5 = 1%nat) by (apply unrolled_out_len; assumption).
  assert (Lv : length (Add o1 (Add o3 o5)) = 1%nat)
    by (apply zip_with_len; [assumption | apply zip_with_len; assumption]).
  destruct (Store (Add o1 (Add o3 o5)) (out st) n) as [o'| | | |] eqn:St;
    try (rewrite Store_ok in St by lia; discriminate).
  destruct (Store_getz _ _ _ _ St) as (Hlen' & _ & Hfar).
  cbn [bind]. eexists. split; [reflexivity|].
  split; [|cbn [out]; split; [lia | apply Hfar; lia]].
  unfold hshape, next_prev, next_prev2.
  cbn [prev_1 prev_3 prev_5 prev2_1 prev2_3 prev2_5 is_scalar].
  repeat split; assumption.
Qed.

(** X14: with a radius of 0 the scalar build of [FastGaussian1D] runs to
    its end inside the row, but its loops start at [n = 1]: [out[0]] is
    never written and keeps the value it had. *)
Theorem FastGaussian1D_radius0_skips_first (rg : RecursiveGaussian T)
    (xsize : Z) (input output : list T) :
  tables_ok rg -> radius rg = 0 -> 0 <= xsize ->
  Z.of_nat (length input) = xsize -> Z.of_nat (length output) = xsize ->
  exists out',
    FastGaussian1D HWY_SCALAR rg xsize input output = Ok out'
    /\ length out' = length output
    /\ getz out' 0 = getz output 0.
Proof.
  intros Htab Hrad Hx Hin Hout.
  unfold FastGaussian1D. cbv zeta.
  destruct (load_coef_ok HWY_SCALAR rg I Htab) as (c & -> & Hc).
  cbn [bind]. rewrite Hrad.
  change (LanesCapped HWY_SCALAR) with 1%nat in *.
  change (first_aligned HWY_SCALAR 0) with 1.
  change (- 0 + 1) with 1.
  set (st0 := mkH _ _ _ _ _ _ output).
  assert (Hs0 : hshape 1 st0) by (repeat split).
  pose (P := fun (i : Z) (s : hstate (T:=T)) =>
    1 <= i /\ hshape 1 s /\ Z.of_nat (length (out s)) = xsize
    /\ getz (out s) 0 = getz output 0).
  assert (H0 : P 1 st0) by (unfold P; repeat split; auto; lia).
  assert (Hchecked : forall guard i s, P i s -> i < xsize ->
            exists s', checked_body HWY_SCALAR c 0 xsize input guard i s = Ok s'
                       /\ P (i + 1) s').
  { intros guard i s (Hi & Hs & Ho & Hz) Hlt.
    destruct (checked_body_safe HWY_SCALAR c 0 xsize input guard i s Hin Ho
                ltac:(lia) ltac:(lia) ltac:(right; lia))
      as (s' & Hs' & Ho').
    exists s'. split; [exact Hs'|]. split; [lia|].
    split; [eapply (checked_body_shape HWY_SCALAR); eauto|].
    split; [exact Ho'|].
    rewrite (checked_body_keeps_first _ _ _ _ _ _ _ _ _ Hi Hs'). exact Hz. }
  destruct (for_lt_inv P (Z.min 1 xsize) 1
              (checked_body HWY_SCALAR c 0 xsize input true))
    with (n := 1) (s := st0) as (n1 & st1 & -> & H1 & _); [lia| |exact H0|].
  { intros i s Hi Hlt. apply Hchecked; [exact Hi|lia]. }
  cbn [bind]. change (broadcast_state HWY_SCALAR st1) with st1.
  change (Z.of_nat 1) with 1.
  destruct (for_lt_inv P (unrolled_end 0 xsize) 1
              (unrolled_body HWY_SCALAR c 0 input))
    with (n := n1) (s := st1) as (n2 & st2 & -> & H2 & _); [lia| |exact H1|].
  { intros i s (Hi & Hs & Ho & Hz) Hlt.
    destruct (unrolled_body_radius0_scalar c xsize input i s Hc Hs Hin Ho
                ltac:(lia)) as (s' & Hs' & Hsh' & Ho' & Hz').
    exists s'. split; [exact Hs'|]. unfold P.
    split; [lia|]. split; [exact Hsh'|]. split; [exact Ho'|]. congruence. }
  cbn [bind].
  destruct (for_lt_inv P xsize 1
              (checked_body HWY_SCALAR c 0 xsize input false))
    with (n := n2) (s := st2) as (n3 & st3 & -> & H3 & _); [lia| |exact H2|].
  { intros i s Hi Hlt. apply Hchecked; [exact Hi|lia]. }
  cbn [bind]. destruct H3 as (_ & _ & Ho3 & Hz3).
  exists (out st3). split; [reflexivity|]. split; [lia | exact Hz3].
Qed.

End Radius0Scalar.

Lemma FastGaussian1D_radius0_skips_first_witness :
  exists out',
    FastGaussian1D HWY_SCALAR (fill_tables (2, 3, 5) (1, -1, 2) 0) 5
                   [1; 2; 3; 4; 5] [9; 9; 9; 9; 9] = Ok out'
    /\ length out' = length [9; 9; 9; 9; 9]
    /\ getz out' 0 = getz [9; 9; 9; 9; 9] 0.
Proof.
  apply (FastGaussian1D_radius0_skips_first (fill_tables (2, 3, 5) (1, -1, 2) 0)
           5 [1; 2; 3; 4; 5] [9; 9; 9; 9; 9]).
  - repeat split.
  - reflexivity.
  - lia.
  - reflexivity.
  - reflexivity.
Defined.
